(** * OrderedDict on top of the compact dict: a shallow embedding

    The development follows [Objects/odictobject.c] and
    [Objects/dict-common.h].  Pointers are addresses in [Z] with [NULL = 0],
    [Py_ssize_t] and [Py_hash_t] values are integers in [Z], [size_t]
    arithmetic is written with its wrap-around modulo [2^64], and the C arrays
    [dk_indices] and [DK_ENTRIES] are lists read and written by position. *)

From Stdlib Require Import ZArith Lia List String Bool.
From stdpp Require Import base tactics option list.
Import ListNotations.
Local Open Scope Z_scope.

(** ** Machine integers *)

Module Mach.

(** [(size_t)z]: the value of [z] as an unsigned 64-bit integer. *)
Definition size_t (z : Z) : Z := z mod 2 ^ 64.

(** [(intN_t)z]: the value of [z] stored in a signed cell of [w] bits. *)
Definition sint (w z : Z) : Z := (z + 2 ^ (w - 1)) mod 2 ^ w - 2 ^ (w - 1).

End Mach.

(** ** Arrays addressed by a [Py_ssize_t]

    A read or write outside the array is undefined in C.  The model returns
    the default on such a read and leaves the array alone on such a write; the
    theorems below say where the accesses are in range. *)

Definition aget {A : Type} (d : A) (l : list A) (i : Z) : A :=
  if i <? 0 then d else default d (l !! Z.to_nat i).

Definition aset {A : Type} (l : list A) (i : Z) (x : A) : list A :=
  if i <? 0 then l else <[Z.to_nat i := x]> l.

(** ** Objects, entries, key tables (dict-common.h) *)

(** A [PyObject *]: the address of the object. *)
Definition PyObject : Type := Z.
Definition NULL : Z := 0.

Definition PERTURB_SHIFT : Z := 5.
Definition DKIX_EMPTY : Z := -1.
Definition DKIX_DUMMY : Z := -2.
Definition DKIX_ERROR : Z := -3.

Record PyDictKeyEntry : Type := mkEntry {
  me_hash : Z;
  me_key : PyObject;
  me_value : PyObject
}.

(** The entry left behind by [me_key = NULL; me_value = NULL; me_hash = 0]. *)
Definition entry_zero : PyDictKeyEntry :=
  {| me_hash := 0; me_key := NULL; me_value := NULL |}.

(** [struct _dictkeysobject].  [dk_addr] is the address of the object: it is
    what two [PyDictKeysObject *] are compared by.  [dk_indices] holds the
    [dk_size] cells of the hash index and [dk_entries] the entry array that
    follows it in memory ([DK_ENTRIES]).  The function pointer [dk_lookup] is
    not stored: every lookup function it may hold is the general [lookdict]
    below. *)
Record PyDictKeysObject : Type := mkKeys {
  dk_addr : Z;
  dk_refcnt : Z;
  dk_size : Z;
  dk_usable : Z;
  dk_nentries : Z;
  dk_indices : list Z;
  dk_entries : list PyDictKeyEntry
}.

(** The fields of [PyDictObject] the ordered dict reads and writes. *)
Record PyDictObject : Type := mkDict {
  ma_used : Z;
  ma_keys : PyDictKeysObject;
  ma_offset : Z
}.

(** [struct _odictobject]: the underlying dict and the state counter, a
    [size_t] "incremented whenever order is changed". *)
Record PyODictObject : Type := mkODict {
  od_dict : PyDictObject;
  od_state : Z
}.

Definition DK_MASK (dk : PyDictKeysObject) : Z := dk_size dk - 1.
Definition DK_SIZE (dk : PyDictKeysObject) : Z := dk_size dk.

Definition DK_IXSIZE (dk : PyDictKeysObject) : Z :=
  if DK_SIZE dk <=? 0xff then 1
  else if DK_SIZE dk <=? 0xffff then 2
  else if DK_SIZE dk <=? 0xffffffff then 4
  else 8.

(** [DK_ENTRIES(dk)[ix]] *)
Definition DK_ENTRIES (dk : PyDictKeysObject) (ix : Z) : PyDictKeyEntry :=
  aget entry_zero (dk_entries dk) ix.

Definition GROWTH_RATE (d : PyDictObject) : Z :=
  ma_used d * 2 + Z.shiftr (dk_size (ma_keys d)) 1.

Definition _odict_EMPTY (od : PyODictObject) : bool :=
  ma_used (od_dict od) =? 0.

Definition PyODict_SIZE (od : PyODictObject) : Z := ma_used (od_dict od).

(** [dk_get_index]: the cell is read at the width chosen from [dk_size]; the
    list holds the values of the cells, so the read is the same at each
    width. *)
Definition dk_get_index (keys : PyDictKeysObject) (i : Z) : Z :=
  aget DKIX_EMPTY (dk_indices keys) i.

(** [dk_set_index]: the value is cast to the width of the cell. *)
Definition dk_set_index (keys : PyDictKeysObject) (i ix : Z) : PyDictKeysObject :=
  let s := DK_SIZE keys in
  let cell :=
    if s <=? 0xff then Mach.sint 8 ix
    else if s <=? 0xffff then Mach.sint 16 ix
    else if 0xffffffff <? s then Mach.sint 64 ix
    else Mach.sint 32 ix in
  {| dk_addr := dk_addr keys; dk_refcnt := dk_refcnt keys;
     dk_size := dk_size keys; dk_usable := dk_usable keys;
     dk_nentries := dk_nentries keys;
     dk_indices := aset (dk_indices keys) i cell;
     dk_entries := dk_entries keys |}.

(** Field updates written [ep0[i] = e], [keys->dk_nentries++] and
    [keys->dk_usable--] in the source. *)
Definition set_entry (keys : PyDictKeysObject) (i : Z) (e : PyDictKeyEntry)
  : PyDictKeysObject :=
  {| dk_addr := dk_addr keys; dk_refcnt := dk_refcnt keys;
     dk_size := dk_size keys; dk_usable := dk_usable keys;
     dk_nentries := dk_nentries keys;
     dk_indices := dk_indices keys;
     dk_entries := aset (dk_entries keys) i e |}.

Definition bump_nentries (keys : PyDictKeysObject) : PyDictKeysObject :=
  {| dk_addr := dk_addr keys; dk_refcnt := dk_refcnt keys;
     dk_size := dk_size keys; dk_usable := dk_usable keys - 1;
     dk_nentries := dk_nentries keys + 1;
     dk_indices := dk_indices keys;
     dk_entries := dk_entries keys |}.

(** ** The probe sequence

    Every lookup loop of the dict walks the same sequence of cells:
    [i = hash & mask] first, then [perturb >>= PERTURB_SHIFT;
    i = mask & (i*5 + perturb + 1)] in [size_t] arithmetic. *)

Definition probe_next_perturb (perturb : Z) : Z := Z.shiftr perturb PERTURB_SHIFT.

Definition probe_next (mask perturb' i : Z) : Z :=
  Z.land mask (Mach.size_t (i * 5 + perturb' + 1)).

(** A [for (;;)] over the probe sequence that leaves when [visit] answers.
    [None] means that the loop did not leave within [fuel] iterations. *)
Fixpoint probe_search (visit : Z -> option Z) (fuel : nat) (mask perturb i : Z)
  : option Z :=
  match fuel with
  | O => None
  | S fuel' =>
      match visit i with
      | Some r => Some r
      | None =>
          let perturb' := probe_next_perturb perturb in
          probe_search visit fuel' mask perturb' (probe_next mask perturb' i)
      end
  end.

(** The cell visited at iteration [n] of a probe loop entered with
    [perturb] and [i]. *)
Fixpoint probe_cell (n : nat) (mask perturb i : Z) : Z :=
  match n with
  | O => i
  | S n' =>
      let perturb' := probe_next_perturb perturb in
      probe_cell n' mask perturb' (probe_next mask perturb' i)
  end.

(** Once [perturb] is zero the sequence is the recurrence [i <- 5*i + 1]
    modulo the table size [2^k]; [geom5 n] is [1 + 5 + ... + 5^(n-1)], the
    constant term of its [n]-th iterate. *)
Definition lcg_step (k : Z) (i : Z) : Z := (5 * i + 1) mod 2 ^ k.

Fixpoint geom5 (n : nat) : Z :=
  match n with
  | O => 0
  | S n' => 5 * geom5 n' + 1
  end.

(** Iterations after which a probe loop over [keys] that has not left never
    will: 13 shifts empty a 64-bit [perturb], and from then on the sequence
    runs through all [dk_size] cells (lemma [probe_search_total]). *)
Definition probe_fuel (keys : PyDictKeysObject) : nat :=
  (13 + Z.to_nat (dk_size keys))%nat.

(** [lookdict_ident]: "Search key by it's identity, without equality check." *)
Fixpoint lookdict_ident_loop (fuel : nat) (keys : PyDictKeysObject)
    (key : PyObject) (mask perturb i : Z) : option Z :=
  match fuel with
  | O => None
  | S fuel' =>
      let ix := dk_get_index keys i in
      if ix =? DKIX_EMPTY then Some DKIX_EMPTY
      else if (0 <=? ix) && (me_key (DK_ENTRIES keys ix) =? key) then Some ix
      else
        let perturb' := Z.shiftr perturb PERTURB_SHIFT in
        lookdict_ident_loop fuel' keys key mask perturb'
          (Z.land mask (Mach.size_t (i * 5 + perturb' + 1)))
  end.

Definition lookdict_ident (keys : PyDictKeysObject) (key : PyObject) (hash : Z)
  : option Z :=
  let mask := Mach.size_t (DK_MASK keys) in
  let perturb := Mach.size_t hash in
  let i := Z.land (Mach.size_t hash) mask in
  lookdict_ident_loop (probe_fuel keys) keys key mask perturb i.

(** One iteration of [lookdict_ident]: what the loop returns at cell [i],
    [None] when it goes on to the next cell. *)
Definition lookdict_ident_visit (keys : PyDictKeysObject) (key : PyObject)
    (i : Z) : option Z :=
  let ix := dk_get_index keys i in
  if ix =? DKIX_EMPTY then Some DKIX_EMPTY
  else if (0 <=? ix) && (me_key (DK_ENTRIES keys ix) =? key) then Some ix
  else None.

(** The probe sequence in the words of the specification: "start slot =
    hash & mask; each step computes next = mask & (i*5 + perturb + 1),
    perturb >>= 5", with [perturb] the hash as a [size_t] shifted once more
    before each step. *)
Fixpoint spec_probe_cell (mask hash : Z) (m : nat) : Z :=
  match m with
  | O => Z.land (Mach.size_t hash) mask
  | S m' =>
      Z.land mask
        (Mach.size_t
           (spec_probe_cell mask hash m' * 5 +
            Z.shiftr (Mach.size_t hash) (5 * Z.of_nat (S m')) + 1))
  end.

(** ** What the ordered dict takes from the rest of the interpreter *)

(** The hash and equality slots of the key objects, the allocator and the
    load factor of the entry array.
    - [PyObject_Hash key] is the hash, [-1] when hashing raises;
    - [PyObject_RichCompareBool a b] is the [Py_EQ] comparison of two keys:
      positive when equal, [0] when not, negative when the comparison raises;
    - [USABLE_FRACTION size] is the length of the entry array of a table of
      [size] cells (the macro is defined in dictobject.c);
    - [new_keys_object size] is the address of a freshly allocated key table,
      [NULL] when memory is exhausted;
    - [new_iter_ok] tells whether [odictiter_new] obtains its iterator object
      and result tuple, [result_tuple_ok] whether [odictiter_iternext] can
      reuse the result tuple or allocate a new one. *)
Class Runtime : Type := mkRuntime {
  PyObject_Hash : PyObject -> Z;
  PyObject_RichCompareBool : PyObject -> PyObject -> Z;
  USABLE_FRACTION : Z -> Z;
  new_keys_object : Z -> Z;
  new_iter_ok : bool;
  result_tuple_ok : bool
}.

(** Exceptions a call may leave set when it returns [NULL] or [-1]. *)
Inductive exn : Type :=
| KeyError (key : PyObject)
| MemoryError
| HashFailed
| CompareFailed
| RuntimeError (msg : string).

(** How a call on an object in state [S] ends: normally, with an exception
    set, on a failed [assert], or never (a probe loop that does not leave). *)
Inductive result (S : Type) : Type :=
| Ok (s : S)
| Error (e : exn) (s : S)
| Aborted
| Diverges.

Arguments Ok {S} s.
Arguments Error {S} e s.
Arguments Aborted {S}.
Arguments Diverges {S}.

Section Model.
Context {rt : Runtime}.

(** Modelled from the spec: [lookdict], the function behind
    [keys->dk_lookup], whose definition is in dictobject.c.  It walks the probe
    sequence until an EMPTY cell (miss) or a cell whose entry's key is equal
    to the query key (hit); a failing comparison aborts the lookup with
    [DKIX_ERROR].  The value it stores through [value_addr] is not used by
    the callers modelled here. *)
Definition lookdict_visit (keys : PyDictKeysObject) (key : PyObject) (i : Z)
  : option Z :=
  let ix := dk_get_index keys i in
  if ix =? DKIX_EMPTY then Some DKIX_EMPTY
  else if 0 <=? ix then
    let cmp := PyObject_RichCompareBool (me_key (DK_ENTRIES keys ix)) key in
    if cmp <? 0 then Some DKIX_ERROR
    else if 0 <? cmp then Some ix
    else None
  else None.

Definition lookdict (mp : PyDictObject) (key : PyObject) (hash : Z) : option Z :=
  let keys := ma_keys mp in
  let mask := Mach.size_t (DK_MASK keys) in
  probe_search (lookdict_visit keys key) (probe_fuel keys) mask
    (Mach.size_t hash) (Z.land (Mach.size_t hash) mask).

(** Modelled from the spec: [lookdict_index], declared in dict-common.h and
    defined in dictobject.c.  It walks the probe sequence of [hash] to the
    cell that holds the entry index [index] and returns the position of that
    cell, or [DKIX_EMPTY] when an EMPTY cell comes first. *)
Definition lookdict_index_visit (keys : PyDictKeysObject) (index i : Z)
  : option Z :=
  let ix := dk_get_index keys i in
  if ix =? index then Some i
  else if ix =? DKIX_EMPTY then Some DKIX_EMPTY
  else None.

Definition lookdict_index (keys : PyDictKeysObject) (hash index : Z) : option Z :=
  let mask := Mach.size_t (DK_MASK keys) in
  probe_search (lookdict_index_visit keys index) (probe_fuel keys) mask
    (Mach.size_t hash) (Z.land (Mach.size_t hash) mask).

(** Modelled from the spec: the search for the cell a new entry goes to, the
    first EMPTY cell on the probe sequence of its hash (dictobject.c). *)
Definition find_empty_slot_visit (keys : PyDictKeysObject) (i : Z) : option Z :=
  if dk_get_index keys i =? DKIX_EMPTY then Some i else None.

Definition find_empty_slot (keys : PyDictKeysObject) (hash : Z) : option Z :=
  let mask := Mach.size_t (DK_MASK keys) in
  probe_search (find_empty_slot_visit keys) (probe_fuel keys) mask
    (Mach.size_t hash) (Z.land (Mach.size_t hash) mask).

(** Modelled from the spec: the capacity a resize asked for [minused] slots
    builds, "rounded up to the next power of two, with a floor of 8 slots". *)
Definition resize_capacity (minused : Z) : Z := 2 ^ Z.log2_up (Z.max 8 minused).

(** The slots [[b, n)] of an entry array and the live entries among them. *)
Definition slots_between (b n : Z) (ep : list PyDictKeyEntry)
  : list PyDictKeyEntry :=
  take (Z.to_nat (n - b)) (drop (Z.to_nat b) ep).

Definition is_live (e : PyDictKeyEntry) : bool := negb (me_value e =? NULL).

Definition live_entries (mp : PyDictObject) : list PyDictKeyEntry :=
  List.filter is_live
    (slots_between (ma_offset mp) (dk_nentries (ma_keys mp))
       (dk_entries (ma_keys mp))).

(** Modelled from the spec: rebuilding the hash index "by re-inserting each
    relocated entry's hash"; the entries [ep] sit at the slots [ix], [ix+1],
    ... of the new entry array. *)
Fixpoint build_indices (keys : PyDictKeysObject) (ix : Z)
    (ep : list PyDictKeyEntry) : option PyDictKeysObject :=
  match ep with
  | [] => Some keys
  | e :: ep' =>
      match find_empty_slot keys (me_hash e) with
      | Some i => build_indices (dk_set_index keys i ix) (ix + 1) ep'
      | None => None
      end
  end.

(** Modelled from the spec: [dictresize], declared in dict-common.h and
    defined in dictobject.c.  It allocates a key table of the target
    capacity, copies the live entries in their order into the new entry array
    starting at [offset], whose leading slots stay empty, and rebuilds the
    hash index.  When the allocation fails the dict stays on its key table. *)
Definition dictresize (mp : PyDictObject) (minused offset : Z)
  : result PyDictObject :=
  let newsize := resize_capacity minused in
  let addr := new_keys_object newsize in
  if addr =? NULL then Error MemoryError mp
  else
    let live := live_entries mp in
    let numentries := offset + Z.of_nat (length live) in
    let capacity := USABLE_FRACTION newsize in
    let fresh :=
      {| dk_addr := addr; dk_refcnt := 1; dk_size := newsize;
         dk_usable := capacity - numentries;
         dk_nentries := numentries;
         dk_indices := replicate (Z.to_nat newsize) DKIX_EMPTY;
         dk_entries :=
           replicate (Z.to_nat offset) entry_zero ++ live ++
           replicate (Z.to_nat (capacity - numentries)) entry_zero |} in
    match build_indices fresh offset live with
    | Some keys =>
        Ok {| ma_used := ma_used mp; ma_keys := keys; ma_offset := offset |}
    | None => Diverges
    end.

(** Modelled from the spec: [PyDict_SetItem] (dictobject.c).  "Insert first
    performs lookup; on a miss, if usable == 0, a resize precedes insertion";
    on a hit the value of the entry is replaced. *)
Definition insert_new (mp : PyDictObject) (key : PyObject) (hash : Z)
    (value : PyObject) : result PyDictObject :=
  let keys := ma_keys mp in
  match find_empty_slot keys hash with
  | None => Diverges
  | Some hashpos =>
      let keys := dk_set_index keys hashpos (dk_nentries keys) in
      let keys :=
        set_entry keys (dk_nentries keys)
          {| me_hash := hash; me_key := key; me_value := value |} in
      Ok {| ma_used := ma_used mp + 1; ma_keys := bump_nentries keys;
            ma_offset := ma_offset mp |}
  end.

Definition PyDict_SetItem (mp : PyDictObject) (key value : PyObject)
  : result PyDictObject :=
  let hash := PyObject_Hash key in
  if hash =? -1 then Error HashFailed mp
  else
    match lookdict mp key hash with
    | None => Diverges
    | Some ix =>
        if ix =? DKIX_ERROR then Error CompareFailed mp
        else if ix =? DKIX_EMPTY then
          if dk_usable (ma_keys mp) =? 0 then
            match dictresize mp (GROWTH_RATE mp) 0 with
            | Ok mp' => insert_new mp' key hash value
            | other => other
            end
          else insert_new mp key hash value
        else
          let e := DK_ENTRIES (ma_keys mp) ix in
          Ok {| ma_used := ma_used mp;
                ma_keys :=
                  set_entry (ma_keys mp) ix
                    {| me_hash := me_hash e; me_key := me_key e;
                       me_value := value |};
                ma_offset := ma_offset mp |}
    end.

(** Modelled from the spec: [PyDict_DelItem] (dictobject.c).  The entry is
    "logically removed on delete (hole)": its cell of the hash index becomes
    [DKIX_DUMMY], its key and value become [NULL]. *)
Definition PyDict_DelItem (mp : PyDictObject) (key : PyObject)
  : result PyDictObject :=
  let hash := PyObject_Hash key in
  if hash =? -1 then Error HashFailed mp
  else
    match lookdict mp key hash with
    | None => Diverges
    | Some ix =>
        if ix =? DKIX_ERROR then Error CompareFailed mp
        else if ix =? DKIX_EMPTY then Error (KeyError key) mp
        else
          match lookdict_index (ma_keys mp) hash ix with
          | None => Diverges
          | Some hashpos =>
              let keys := dk_set_index (ma_keys mp) hashpos DKIX_DUMMY in
              let e := DK_ENTRIES keys ix in
              let keys :=
                set_entry keys ix
                  {| me_hash := me_hash e; me_key := NULL; me_value := NULL |} in
              Ok {| ma_used := ma_used mp - 1; ma_keys := keys;
                    ma_offset := ma_offset mp |}
          end
    end.

(** ** odictobject.c *)

(** [PyODict_SetItem] and [PyODict_DelItem] forward to the dict functions,
    which see the [PyDictObject] at the head of the struct. *)
Definition on_dict (od : PyODictObject) (r : result PyDictObject)
  : result PyODictObject :=
  match r with
  | Ok mp => Ok {| od_dict := mp; od_state := od_state od |}
  | Error e mp => Error e {| od_dict := mp; od_state := od_state od |}
  | Aborted => Aborted
  | Diverges => Diverges
  end.

Definition PyODict_SetItem (od : PyODictObject) (key value : PyObject)
  : result PyODictObject :=
  on_dict od (PyDict_SetItem (od_dict od) key value).

Definition PyODict_DelItem (od : PyODictObject) (key : PyObject)
  : result PyODictObject :=
  on_dict od (PyDict_DelItem (od_dict od) key).

(** The tail of both branches of [move_to_end]: the cell [hashpos] is
    pointed at slot [dst], the entry of slot [ix] is copied there, slot [ix]
    is zeroed, and [dk_nentries++; dk_usable--]. *)
Definition relocate_entry (keys : PyDictKeysObject) (hashpos ix dst : Z)
  : PyDictKeysObject :=
  let keys := dk_set_index keys hashpos dst in
  let keys := set_entry keys dst (DK_ENTRIES keys ix) in
  let keys := set_entry keys ix entry_zero in
  bump_nentries keys.

(** [keys = mp->ma_keys; ix = lookdict_ident(keys, key, hash);
    assert(ix >= 0);] after a resize. *)
Definition find_again (mp : PyDictObject) (key : PyObject) (hash : Z)
  : result (PyDictObject * Z) :=
  match lookdict_ident (ma_keys mp) key hash with
  | None => Diverges
  | Some ix => if 0 <=? ix then Ok (mp, ix) else Aborted
  end.

(** The block [if (last) { ... }] of [OrderedDict_move_to_end_impl] and the
    [self->od_state++] that follows it; [key] is the key object found in the
    dict, [ix] its slot. *)
Definition move_to_end_last (self : PyODictObject) (key : PyObject)
    (hash ix : Z) : result PyODictObject :=
  let mp := od_dict self in
  let keys := ma_keys mp in
  let offset := ma_offset mp in
  if ix =? dk_nentries keys - 1 then Ok self
  else
    let resized :=
      if dk_usable keys =? 0 then
        match dictresize mp (GROWTH_RATE mp + offset) offset with
        | Ok mp' => find_again mp' key hash
        | Error e mp' => Error e (mp', ix)
        | Aborted => Aborted
        | Diverges => Diverges
        end
      else Ok (mp, ix) in
    match resized with
    | Ok (mp, ix) =>
        let keys := ma_keys mp in
        match lookdict_index keys hash ix with
        | None => Diverges
        | Some hashpos =>
            let keys := relocate_entry keys hashpos ix (dk_nentries keys) in
            Ok {| od_dict :=
                    {| ma_used := ma_used mp; ma_keys := keys;
                       ma_offset :=
                         if ix =? offset then ma_offset mp + 1
                         else ma_offset mp |};
                  od_state := Mach.size_t (od_state self + 1) |}
        end
    | Error e (mp, _) => Error e {| od_dict := mp; od_state := od_state self |}
    | Aborted => Aborted
    | Diverges => Diverges
    end.

(** The block [else { ... }] and the [self->od_state++] that follows it. *)
Definition move_to_end_first (self : PyODictObject) (key : PyObject)
    (hash ix : Z) : result PyODictObject :=
  let mp := od_dict self in
  let offset := ma_offset mp in
  if ix =? offset then Ok self
  else
    let resized :=
      if offset =? 0 then
        (* reserve at least two space. *)
        let offset := Z.quot (ma_used mp) 2 + 2 in
        match dictresize mp (GROWTH_RATE mp + offset) offset with
        | Ok mp' =>
            match find_again mp' key hash with
            | Ok (mp', ix) => Ok (mp', ix, offset)
            | Error e (mp', ix) => Error e (mp', ix, offset)
            | Aborted => Aborted
            | Diverges => Diverges
            end
        | Error e mp' => Error e (mp', ix, offset)
        | Aborted => Aborted
        | Diverges => Diverges
        end
      else Ok (mp, ix, offset) in
    match resized with
    | Ok (mp, ix, offset) =>
        let keys := ma_keys mp in
        let offset := offset - 1 in
        match lookdict_index keys hash ix with
        | None => Diverges
        | Some hashpos =>
            let keys := relocate_entry keys hashpos ix offset in
            Ok {| od_dict :=
                    {| ma_used := ma_used mp; ma_keys := keys;
                       ma_offset := offset |};
                  od_state := Mach.size_t (od_state self + 1) |}
        end
    | Error e (mp, _, _) =>
        Error e {| od_dict := mp; od_state := od_state self |}
    | Aborted => Aborted
    | Diverges => Diverges
    end.

Definition OrderedDict_move_to_end_impl (self : PyODictObject) (key : PyObject)
    (last : bool) : result PyODictObject :=
  if _odict_EMPTY self then Error (KeyError key) self
  else
    let hash := PyObject_Hash key in
    if hash =? -1 then Error HashFailed self
    else
      let mp := od_dict self in
      let keys := ma_keys mp in
      match lookdict mp key hash with
      | None => Diverges
      | Some ix =>
          if ix =? DKIX_EMPTY then Error (KeyError key) self
          else if ix =? DKIX_ERROR then Error CompareFailed self
          else
            (* Use key in dict instead of argument *)
            let key := me_key (DK_ENTRIES keys ix) in
            if last then move_to_end_last self key hash ix
            else move_to_end_first self key hash ix
      end.

(** *** The iterator *)

Definition _odict_ITER_REVERSED : Z := 1.
Definition _odict_ITER_KEYS : Z := 2.
Definition _odict_ITER_VALUES : Z := 4.

(** [odictiterobject].  [di_odict] is the address of the ordered dict or
    [NULL], [di_keys] the address of its key table when the iterator was
    made.  The reusable tuple [di_result] is left to [result_tuple_ok]. *)
Record odictiterobject : Type := mkIter {
  kind : Z;
  di_odict : Z;
  di_keys : Z;
  di_size : Z;
  di_state : Z;
  di_pos : Z
}.

(** [odictiter_new(od, kind)], with [self] the address of [od]; [None] when
    the iterator or its result tuple cannot be allocated. *)
Definition odictiter_new (self : Z) (od : PyODictObject) (kind : Z)
  : option odictiterobject :=
  let reversed := Z.land kind _odict_ITER_REVERSED in
  if negb new_iter_ok then None
  else
    let size := PyODict_SIZE od in
    if 0 <? size then
      let keys := ma_keys (od_dict od) in
      Some {| kind := kind; di_odict := self; di_keys := dk_addr keys;
              di_size := size; di_state := od_state od;
              di_pos :=
                if negb (reversed =? 0) then dk_nentries keys - 1
                else ma_offset (od_dict od) |}
    else
      Some {| kind := kind; di_odict := NULL; di_keys := NULL;
              di_size := size; di_state := Mach.size_t (-1);
              di_pos := -1 |}.

(** What [tp_iternext] hands back: an element, [NULL] without an exception
    (the iterator is exhausted), or [NULL] with an exception set.  A call
    that runs [Py_INCREF] on a [NULL] pointer hands nothing back: it
    dereferences the pointer, and the process is stopped there. *)
Inductive element : Type :=
| Key (k : PyObject)
| Value (v : PyObject)
| Item (k v : PyObject).

Inductive next_result : Type :=
| Yield (x : element)
| Exhausted
| Raised (e : exn)
| Faulted.

(** [while (pos >= offset && entry_ptr->me_value == NULL) { entry_ptr--;
    pos--; }]: at most [pos - offset + 1] iterations. *)
Fixpoint skip_holes_down (n : nat) (keys : PyDictKeysObject) (offset pos : Z)
  : Z :=
  match n with
  | O => pos
  | S n' =>
      if (offset <=? pos) && (me_value (DK_ENTRIES keys pos) =? NULL)
      then skip_holes_down n' keys offset (pos - 1)
      else pos
  end.

(** [while (pos < n && entry_ptr->me_value == NULL) { entry_ptr++; pos++; }]:
    at most [n - pos] iterations. *)
Fixpoint skip_holes_up (m : nat) (keys : PyDictKeysObject) (n pos : Z) : Z :=
  match m with
  | O => pos
  | S m' =>
      if (pos <? n) && (me_value (DK_ENTRIES keys pos) =? NULL)
      then skip_holes_up m' keys n (pos + 1)
      else pos
  end.

Definition clear_odict (di : odictiterobject) : odictiterobject :=
  {| kind := kind di; di_odict := NULL; di_keys := di_keys di;
     di_size := di_size di; di_state := di_state di; di_pos := di_pos di |}.

Definition set_pos (di : odictiterobject) (pos : Z) : odictiterobject :=
  {| kind := kind di; di_odict := di_odict di; di_keys := di_keys di;
     di_size := di_size di; di_state := di_state di; di_pos := pos |}.

Definition set_size (di : odictiterobject) (size : Z) : odictiterobject :=
  {| kind := kind di; di_odict := di_odict di; di_keys := di_keys di;
     di_size := size; di_state := di_state di; di_pos := di_pos di |}.

(** The element built from the entry [entry_ptr] points at.  Each case
    starts with [Py_INCREF] of what it returns: of [me_key], of [me_value],
    or of both before the tuple is looked at. *)
Definition iter_element (di : odictiterobject) (e : PyDictKeyEntry)
  : next_result * odictiterobject :=
  if Z.land (kind di) _odict_ITER_VALUES =? 0 then
    if me_key e =? NULL then (Faulted, di)
    else (Yield (Key (me_key e)), di)
  else if Z.land (kind di) _odict_ITER_KEYS =? 0 then
    if me_value e =? NULL then (Faulted, di)
    else (Yield (Value (me_value e)), di)
  else if (me_key e =? NULL) || (me_value e =? NULL) then (Faulted, di)
  else if result_tuple_ok then (Yield (Item (me_key e) (me_value e)), di)
  else (Raised MemoryError, clear_odict di).

(** [odictiter_iternext(di)], with [od] the state of the ordered dict
    [di->di_odict] points at when the call is made. *)
Definition odictiter_iternext (di : odictiterobject) (od : PyODictObject)
  : next_result * odictiterobject :=
  if di_odict di =? NULL then (Exhausted, di)
  else
    let dk := ma_keys (od_dict od) in
    if negb (od_state od =? di_state di) || negb (dk_addr dk =? di_keys di)
    then (Raised (RuntimeError "OrderedDict mutated during iteration"),
          clear_odict di)
    else if negb (di_size di =? PyODict_SIZE od)
    then (Raised (RuntimeError "OrderedDict changed size during iteration"),
          set_size di (-1))
    else
      let pos := di_pos di in
      if negb (Z.land (kind di) _odict_ITER_REVERSED =? 0) then
        let offset := ma_offset (od_dict od) in
        let pos := skip_holes_down (Z.to_nat (pos - offset + 1)) dk offset pos in
        if pos <? 0 then (Exhausted, clear_odict di)
        else iter_element (set_pos di (pos - 1)) (DK_ENTRIES dk pos)
      else
        let n := dk_nentries dk in
        let pos := skip_holes_up (Z.to_nat (n - pos)) dk n pos in
        if n <=? pos then (Exhausted, clear_odict di)
        else iter_element (set_pos di (pos + 1)) (DK_ENTRIES dk pos).

End Model.

(** ** Well-formed tables

    What dict-common.h asks of a key table: [dk_size] is a power of two, at
    least 8 (and below [2^60], far beyond what memory holds); the hash index
    has [dk_size] cells, each EMPTY, DUMMY or the index of a slot below
    [dk_nentries], and one of them at least is EMPTY; the entry array has at
    most two thirds as many slots as the hash index has cells, [dk_usable] is
    not negative and [dk_nentries + dk_usable] is the length of the array. *)
Definition is_pow2 (s : Z) : bool := (0 <? s) && (s =? 2 ^ Z.log2 s).

Definition keys_wf (keys : PyDictKeysObject) : bool :=
  (8 <=? dk_size keys) && (dk_size keys <=? 2 ^ 60) && is_pow2 (dk_size keys)
  && (Z.of_nat (length (dk_indices keys)) =? dk_size keys)
  && (3 * Z.of_nat (length (dk_entries keys)) <=? 2 * dk_size keys)
  && (0 <=? dk_nentries keys) && (0 <=? dk_usable keys)
  && (dk_nentries keys + dk_usable keys =? Z.of_nat (length (dk_entries keys)))
  && forallb (fun c => (DKIX_DUMMY <=? c) && (c <? dk_nentries keys))
       (dk_indices keys)
  && existsb (fun c => c =? DKIX_EMPTY) (dk_indices keys).

(** The same, as the facts the proofs use. *)
Record keys_ok (keys : PyDictKeysObject) : Prop := {
  ok_size : exists k : nat, (3 <= k <= 62)%nat /\ dk_size keys = 2 ^ Z.of_nat k;
  ok_indices : Z.of_nat (length (dk_indices keys)) = dk_size keys;
  ok_capacity : 3 * Z.of_nat (length (dk_entries keys)) <= 2 * dk_size keys;
  ok_nentries : 0 <= dk_nentries keys;
  ok_room : 0 <= dk_usable keys;
  ok_usable : dk_nentries keys + dk_usable keys = Z.of_nat (length (dk_entries keys));
  ok_cells : forall c, DKIX_DUMMY <= dk_get_index keys c < dk_nentries keys;
  ok_empty : exists c, 0 <= c < dk_size keys /\ dk_get_index keys c = DKIX_EMPTY
}.

(** The number of EMPTY cells of a hash index. *)
Definition count_empty (cells : list Z) : nat :=
  length (List.filter (fun c => c =? DKIX_EMPTY) cells).

(** The slot [ix] can be found from [hash]: a cell on the probe sequence of
    [hash] holds [ix], and no EMPTY cell comes before it. *)
Definition reachable (keys : PyDictKeysObject) (hash ix : Z) : Prop :=
  let mask := Mach.size_t (DK_MASK keys) in
  let first := Z.land (Mach.size_t hash) mask in
  exists m : nat, (m < probe_fuel keys)%nat /\
    dk_get_index keys (probe_cell m mask (Mach.size_t hash) first) = ix /\
    forall m' : nat, (m' < m)%nat ->
      dk_get_index keys (probe_cell m' mask (Mach.size_t hash) first)
      <> DKIX_EMPTY.

(** What moving the entry of slot [ix] to slot [dst] does to a key table
    whose cell [hashpos] referred to it: the entry is copied to [dst], slot
    [ix] is zeroed, cell [hashpos] refers to [dst], [dk_nentries] grows and
    [dk_usable] shrinks by one, and nothing else changes. *)
Record relocated (keys keys' : PyDictKeysObject) (hashpos ix dst : Z) : Prop := {
  rel_copied : DK_ENTRIES keys' dst = DK_ENTRIES keys ix;
  rel_zeroed : DK_ENTRIES keys' ix = entry_zero;
  rel_cell : dk_get_index keys' hashpos = dst;
  rel_other_slots :
    forall j, j <> dst -> j <> ix -> DK_ENTRIES keys' j = DK_ENTRIES keys j;
  rel_other_cells :
    forall c, c <> hashpos -> dk_get_index keys' c = dk_get_index keys c;
  rel_nentries : dk_nentries keys' = dk_nentries keys + 1;
  rel_usable : dk_usable keys' = dk_usable keys - 1;
  rel_size : dk_size keys' = dk_size keys;
  rel_addr : dk_addr keys' = dk_addr keys;
  rel_refcnt : dk_refcnt keys' = dk_refcnt keys;
  rel_capacity : length (dk_entries keys') = length (dk_entries keys);
  rel_cells : length (dk_indices keys') = length (dk_indices keys)
}.

(** A slot that holds nothing: [me_key] and [me_value] are [NULL]. *)
Definition is_free (e : PyDictKeyEntry) : bool :=
  (me_key e =? NULL) && (me_value e =? NULL).

(** A well-formed dict: the begin offset is within [[0, dk_nentries]]; the
    slots before the offset and from [dk_nentries] on hold nothing; [ma_used]
    counts the live entries; the cells of the hash index refer to live
    entries at or after the offset. *)
Definition dict_wf (mp : PyDictObject) : bool :=
  keys_wf (ma_keys mp)
  && (0 <=? ma_offset mp) && (ma_offset mp <=? dk_nentries (ma_keys mp))
  && forallb is_free (take (Z.to_nat (ma_offset mp)) (dk_entries (ma_keys mp)))
  && forallb is_free
       (drop (Z.to_nat (dk_nentries (ma_keys mp))) (dk_entries (ma_keys mp)))
  && (Z.of_nat (length (live_entries mp)) =? ma_used mp)
  && forallb
       (fun c => (c <? 0) ||
                 ((ma_offset mp <=? c) && is_live (DK_ENTRIES (ma_keys mp) c)))
       (dk_indices (ma_keys mp)).

Record dict_ok (mp : PyDictObject) : Prop := {
  ok_keys : keys_ok (ma_keys mp);
  ok_offset : 0 <= ma_offset mp <= dk_nentries (ma_keys mp);
  ok_before :
    forall j, j < ma_offset mp -> is_free (DK_ENTRIES (ma_keys mp) j) = true;
  ok_after :
    forall j, dk_nentries (ma_keys mp) <= j ->
              is_free (DK_ENTRIES (ma_keys mp) j) = true;
  ok_used : Z.of_nat (length (live_entries mp)) = ma_used mp;
  ok_refer :
    forall c, 0 <= dk_get_index (ma_keys mp) c ->
      ma_offset mp <= dk_get_index (ma_keys mp) c /\
      is_live (DK_ENTRIES (ma_keys mp) (dk_get_index (ma_keys mp) c)) = true
}.

(** The key-value pairs of a dict in iteration order: the live entries of
    the slots [[ma_offset, dk_nentries)]. *)
Definition items (mp : PyDictObject) : list (PyObject * PyObject) :=
  List.map (fun e => (me_key e, me_value e)) (live_entries mp).

(** ** The state a move leaves

    [mp1] is the dict the entry is moved in: the dict of [self], or the dict
    [dictresize] has built from it.  [r] is the slot of the entry in [mp1]
    and [hashpos] the cell of the hash index that refers to it. *)
Definition moved_last (self : PyODictObject) (mp1 : PyDictObject)
    (hashpos r : Z) : PyODictObject :=
  {| od_dict :=
       {| ma_used := ma_used mp1;
          ma_keys := relocate_entry (ma_keys mp1) hashpos r
                       (dk_nentries (ma_keys mp1));
          ma_offset := if r =? ma_offset (od_dict self) then ma_offset mp1 + 1
                       else ma_offset mp1 |};
     od_state := Mach.size_t (od_state self + 1) |}.

Definition moved_first (self : PyODictObject) (mp1 : PyDictObject)
    (hashpos r offset : Z) : PyODictObject :=
  {| od_dict :=
       {| ma_used := ma_used mp1;
          ma_keys := relocate_entry (ma_keys mp1) hashpos r (offset - 1);
          ma_offset := offset - 1 |};
     od_state := Mach.size_t (od_state self + 1) |}.

(** What is known of [mp1], [r] and [hashpos] when the entry is moved: [mp1]
    is well formed and has the live entries of [mp]; slot [r] is in its
    window, is live and holds the key [found]; cell [hashpos] refers to it. *)
Record prepared (mp mp1 : PyDictObject) (found : PyObject) (r hashpos : Z)
  : Prop := {
  prep_ok : dict_ok mp1;
  prep_used : ma_used mp1 = ma_used mp;
  prep_live : live_entries mp1 = live_entries mp;
  prep_slot : ma_offset mp1 <= r < dk_nentries (ma_keys mp1);
  prep_key : me_key (DK_ENTRIES (ma_keys mp1) r) = found;
  prep_is_live : is_live (DK_ENTRIES (ma_keys mp1) r) = true;
  prep_cell : 0 <= hashpos < dk_size (ma_keys mp1);
  prep_refers : dk_get_index (ma_keys mp1) hashpos = r
}.

(** ** Running an iterator

    The results of advancing [di] once per element of [states], the [i]-th
    call being made when the ordered dict is in the [i]-th state.  A call
    that faults is the last one. *)
Fixpoint advance_all {rt : Runtime} (di : odictiterobject)
    (states : list PyODictObject) : list next_result :=
  match states with
  | [] => []
  | od :: rest =>
      match odictiter_iternext di od with
      | (Faulted, _) => [Faulted]
      | (r, di') => r :: advance_all di' rest
      end
  end.

(** ** Outcomes

    The outcomes the specification lists for [move_to_end]: Ok, NotFound and
    AllocationFailed. *)
Definition spec_outcome (r : result PyODictObject) : bool :=
  match r with
  | Ok _ => true
  | Error (KeyError _) _ => true
  | Error MemoryError _ => true
  | _ => false
  end.

(** The outcomes of [OrderedDict_move_to_end_impl self key last]: success, or
    one of four exceptions with the ordered dict as it was. *)
Definition code_outcome (self : PyODictObject) (key : PyObject)
    (r : result PyODictObject) : Prop :=
  (exists od', r = Ok od') \/
  r = Error (KeyError key) self \/
  r = Error MemoryError self \/
  r = Error HashFailed self \/
  r = Error CompareFailed self.

(** The entry of slot [ix] is the last live entry of the window: every slot
    after it, up to [dk_nentries], holds no live entry. *)
Definition last_live_slot (mp : PyDictObject) (ix : Z) : bool :=
  (ma_offset mp <=? ix) && (ix <? dk_nentries (ma_keys mp))
  && is_live (DK_ENTRIES (ma_keys mp) ix)
  && forallb (fun e => negb (is_live e))
       (slots_between (ix + 1) (dk_nentries (ma_keys mp))
          (dk_entries (ma_keys mp))).

(** ** The resize a reorder asks for

    [offset = mp->ma_used / 2 + 2], the leading slots the move to the front
    reserves, and the capacity request in the words of the specification:
    [2*used + (old_capacity >> 1)] plus the reserved offset. *)
Definition front_reserve (mp : PyDictObject) : Z := Z.quot (ma_used mp) 2 + 2.

Definition resize_request (mp : PyDictObject) (last : bool) : Z :=
  2 * ma_used mp + Z.shiftr (dk_size (ma_keys mp)) 1
  + (if last then ma_offset mp else front_reserve mp).

(** ** Sample objects

    A runtime whose keys hash to their address and compare by identity, and
    the ordered dicts the examples below run on. *)

Module Sample.

Definition runtime : Runtime :=
  {| PyObject_Hash := fun key => key;
     PyObject_RichCompareBool := fun a b => if a =? b then 1 else 0;
     USABLE_FRACTION := fun n => Z.shiftl n 1 / 3;
     new_keys_object := fun size => 4096 + size;
     new_iter_ok := true;
     result_tuple_ok := true |}.

(** The keys 10, 18 and 12 inserted in this order into a table of 8 cells. *)
Definition keys3 : PyDictKeysObject :=
  {| dk_addr := 64; dk_refcnt := 1; dk_size := 8;
     dk_usable := 2; dk_nentries := 3;
     dk_indices := [-1; -1; 0; 1; 2; -1; -1; -1];
     dk_entries :=
       [ {| me_hash := 10; me_key := 10; me_value := 100 |};
         {| me_hash := 18; me_key := 18; me_value := 101 |};
         {| me_hash := 12; me_key := 12; me_value := 102 |};
         entry_zero; entry_zero ] |}.

Definition od3 : PyODictObject :=
  {| od_dict := {| ma_used := 3; ma_keys := keys3; ma_offset := 0 |};
     od_state := 0 |}.

(** [od3] after [move_to_end(18, last=False)]: the table has been resized
    with five leading slots reserved, 18 sits before 10, and [dk_nentries]
    covers the empty slot 6 after the last live entry. *)
Definition keys_front : PyDictKeysObject :=
  {| dk_addr := 4112; dk_refcnt := 1; dk_size := 16;
     dk_usable := 3; dk_nentries := 7;
     dk_indices :=
       [-1; -1; 2; -1; -1; -1; -1; -1; -1; -1; 3; -1; 5; -1; -1; -1];
     dk_entries :=
       [ entry_zero; entry_zero;
         {| me_hash := 18; me_key := 18; me_value := 101 |};
         {| me_hash := 10; me_key := 10; me_value := 100 |};
         entry_zero;
         {| me_hash := 12; me_key := 12; me_value := 102 |};
         entry_zero; entry_zero; entry_zero; entry_zero ] |}.

Definition od_front : PyODictObject :=
  {| od_dict := {| ma_used := 3; ma_keys := keys_front; ma_offset := 2 |};
     od_state := 1 |}.

(** [od_front] after the keys 1, 4 and 5 have been inserted: the entry array
    is used up to its end ([dk_usable] is 0) while two leading slots are
    still reserved. *)
Definition keys_full : PyDictKeysObject :=
  {| dk_addr := 4112; dk_refcnt := 1; dk_size := 16;
     dk_usable := 0; dk_nentries := 10;
     dk_indices :=
       [-1; 7; 2; -1; 8; 9; -1; -1; -1; -1; 3; -1; 5; -1; -1; -1];
     dk_entries :=
       [ entry_zero; entry_zero;
         {| me_hash := 18; me_key := 18; me_value := 101 |};
         {| me_hash := 10; me_key := 10; me_value := 100 |};
         entry_zero;
         {| me_hash := 12; me_key := 12; me_value := 102 |};
         entry_zero;
         {| me_hash := 1; me_key := 1; me_value := 201 |};
         {| me_hash := 4; me_key := 4; me_value := 204 |};
         {| me_hash := 5; me_key := 5; me_value := 205 |} ] |}.

Definition od_full : PyODictObject :=
  {| od_dict := {| ma_used := 6; ma_keys := keys_full; ma_offset := 2 |};
     od_state := 1 |}.

(** A runtime in which hashing a key raises. *)
Definition unhashable : Runtime :=
  {| PyObject_Hash := fun _ => -1;
     PyObject_RichCompareBool := fun a b => if a =? b then 1 else 0;
     USABLE_FRACTION := fun n => Z.shiftl n 1 / 3;
     new_keys_object := fun size => 4096 + size;
     new_iter_ok := true;
     result_tuple_ok := true |}.

(** An ordered dict without entries. *)
Definition od0 : PyODictObject :=
  {| od_dict :=
       {| ma_used := 0;
          ma_keys :=
            {| dk_addr := 64; dk_refcnt := 1; dk_size := 8;
               dk_usable := 5; dk_nentries := 0;
               dk_indices := replicate 8 DKIX_EMPTY;
               dk_entries := replicate 5 entry_zero |};
          ma_offset := 0 |};
     od_state := 0 |}.

End Sample.

(** ** The iterators the type hands out

    [tp_iter] and [__reversed__] of the ordered dict and of its three views.
    [self] is the address of the ordered dict and [od] its state. *)

(** [_PyDictViewObject]: [dv_dict] is the address of the dict the view is
    on, or [NULL]. *)
Record _PyDictViewObject : Type := mkView {
  dv_dict : Z
}.

(** What the [tp_iter] of a view hands back: [None] ([Py_RETURN_NONE]) or
    what [odictiter_new] returns. *)
Inductive view_result : Type :=
| ViewNone
| ViewIter (di : option odictiterobject).

Section Views.
Context {rt : Runtime}.

Definition odict_iter (self : Z) (od : PyODictObject) : option odictiterobject :=
  odictiter_new self od _odict_ITER_KEYS.

Definition odict_reversed (self : Z) (od : PyODictObject)
  : option odictiterobject :=
  odictiter_new self od (Z.lor _odict_ITER_KEYS _odict_ITER_REVERSED).

Definition odictkeys_iter (dv : _PyDictViewObject) (od : PyODictObject)
  : view_result :=
  if dv_dict dv =? NULL then ViewNone
  else ViewIter (odictiter_new (dv_dict dv) od _odict_ITER_KEYS).

Definition odictkeys_reversed (dv : _PyDictViewObject) (od : PyODictObject)
  : view_result :=
  if dv_dict dv =? NULL then ViewNone
  else ViewIter (odictiter_new (dv_dict dv) od
                   (Z.lor _odict_ITER_KEYS _odict_ITER_REVERSED)).

Definition odictitems_iter (dv : _PyDictViewObject) (od : PyODictObject)
  : view_result :=
  if dv_dict dv =? NULL then ViewNone
  else ViewIter (odictiter_new (dv_dict dv) od
                   (Z.lor _odict_ITER_KEYS _odict_ITER_VALUES)).

Definition odictitems_reversed (dv : _PyDictViewObject) (od : PyODictObject)
  : view_result :=
  if dv_dict dv =? NULL then ViewNone
  else ViewIter (odictiter_new (dv_dict dv) od
                   (Z.lor (Z.lor _odict_ITER_KEYS _odict_ITER_VALUES)
                      _odict_ITER_REVERSED)).

Definition odictvalues_iter (dv : _PyDictViewObject) (od : PyODictObject)
  : view_result :=
  if dv_dict dv =? NULL then ViewNone
  else ViewIter (odictiter_new (dv_dict dv) od _odict_ITER_VALUES).

Definition odictvalues_reversed (dv : _PyDictViewObject) (od : PyODictObject)
  : view_result :=
  if dv_dict dv =? NULL then ViewNone
  else ViewIter (odictiter_new (dv_dict dv) od
                   (Z.lor _odict_ITER_VALUES _odict_ITER_REVERSED)).

(** The results of advancing the iterator of a view once per element of
    [states]; [None] when the view handed back no iterator. *)
Definition run_view (r : view_result) (states : list PyODictObject)
  : option (list next_result) :=
  match r with
  | ViewIter (Some di) => Some (advance_all di states)
  | _ => None
  end.

End Views.

(** The element an iterator of kind [kind] builds from an entry: the key,
    the value, or the pair. *)
Definition element_of (kind : Z) (e : PyDictKeyEntry) : element :=
  if Z.land kind _odict_ITER_VALUES =? 0 then Key (me_key e)
  else if Z.land kind _odict_ITER_KEYS =? 0 then Value (me_value e)
  else Item (me_key e) (me_value e).

(** The pointers an iterator of kind [kind] passes to [Py_INCREF] when it
    builds its element from the entry are not [NULL]. *)
Definition incref_ok (kind : Z) (e : PyDictKeyEntry) : bool :=
  if Z.land kind _odict_ITER_VALUES =? 0 then negb (me_key e =? NULL)
  else if Z.land kind _odict_ITER_KEYS =? 0 then negb (me_value e =? NULL)
  else negb (me_key e =? NULL) && negb (me_value e =? NULL).

(** Every entry of the dict that has a value has a key. *)
Definition keys_present (mp : PyDictObject) : bool :=
  forallb (fun e => negb (me_key e =? NULL)) (live_entries mp).

(** The iterator holds its ordered dict, and what it recorded of it is what
    [od] shows: nothing has changed since the iterator was made. *)
Definition iter_valid (di : odictiterobject) (od : PyODictObject) : bool :=
  negb (di_odict di =? NULL) && (od_state od =? di_state di)
  && (dk_addr (ma_keys (od_dict od)) =? di_keys di)
  && (di_size di =? PyODict_SIZE od).

(** An iterator of kind [kind] can build its elements: it is not an items
    iterator, or the result tuple is there. *)
Definition can_build {rt : Runtime} (kind : Z) : bool :=
  (Z.land kind _odict_ITER_VALUES =? 0) || (Z.land kind _odict_ITER_KEYS =? 0)
  || result_tuple_ok.

(** The live entries a forward iterator at position [pos] has before it,
    and those a reversed iterator has, in the order it meets them. *)
Definition entries_ahead (mp : PyDictObject) (pos : Z) : list PyDictKeyEntry :=
  List.filter is_live
    (slots_between pos (dk_nentries (ma_keys mp)) (dk_entries (ma_keys mp))).

Definition entries_behind (mp : PyDictObject) (pos : Z) : list PyDictKeyEntry :=
  rev (List.filter is_live
         (slots_between (ma_offset mp) (pos + 1) (dk_entries (ma_keys mp)))).

(** *** [odictiter_reduce]

    What the function takes from the interpreter: whether [PyList_New(0)]
    succeeds, whether [PyList_Append] of an element to the list succeeds, the
    builtin [iter] ([NULL] when [_PyObject_GetBuiltin] fails) and whether
    [Py_BuildValue] succeeds. *)
Record reduce_env : Type := mkReduceEnv {
  list_new_ok : bool;
  list_append_ok : list element -> element -> bool;
  builtin_iter : PyObject;
  build_value_ok : bool
}.

(** How the loop [for(;;)] of [odictiter_reduce] is left: by the [break],
    with the list and the exception [odictiter_iternext] has set, if any, by
    the [return NULL] after a failed [PyList_Append], or in a call of
    [odictiter_iternext] that faults. *)
Inductive reduce_loop_end : Type :=
| LoopBreak (list : list element) (e : option exn)
| LoopNoMemory
| LoopFaulted.

(** What [odictiter_reduce] returns: the tuple [(iter, (list,))], or [NULL]
    with an exception of the iterator or [MemoryError] set, or [NULL] because
    the builtin [iter] was not found; or it does not return, for the fault of
    an advance. *)
Inductive reduce_result : Type :=
| Reduced (iter : PyObject) (list : list element)
| ReduceRaised (e : exn)
| ReduceNoBuiltin
| ReduceFaulted.

Section Reduce.
Context {rt : Runtime}.

(** "iterate the temporary into a list": the ordered dict is in state [od]
    all along, no other code runs between two advances. *)
Fixpoint odictiter_reduce_loop (env : reduce_env) (fuel : nat)
    (di : odictiterobject) (od : PyODictObject) (list : list element)
  : option (reduce_loop_end * odictiterobject) :=
  match fuel with
  | O => None
  | S fuel' =>
      match odictiter_iternext di od with
      | (Yield x, di') =>
          if list_append_ok env list x
          then odictiter_reduce_loop env fuel' di' od (list ++ [x])
          else Some (LoopNoMemory, di')
      | (Exhausted, di') => Some (LoopBreak list None, di')
      | (Raised e, di') => Some (LoopBreak list (Some e), di')
      | (Faulted, di') => Some (LoopFaulted, di')
      end
  end.

(** Advances after which the loop has been left: a forward iterator yields
    at most [dk_nentries - di_pos] elements, a reversed one at most
    [di_pos + 1]. *)
Definition reduce_fuel (di : odictiterobject) (od : PyODictObject) : nat :=
  S (S (Z.to_nat (Z.abs (di_pos di)
                  + Z.abs (dk_nentries (ma_keys (od_dict od)))))).

(** [odictiter_reduce(di)]; [None] stands for a loop that is not left. *)
Definition odictiter_reduce (env : reduce_env) (di : odictiterobject)
    (od : PyODictObject) : option (reduce_result * odictiterobject) :=
  if negb (list_new_ok env) then Some (ReduceRaised MemoryError, di)
  else
    match odictiter_reduce_loop env (reduce_fuel di od) di od [] with
    | None => None
    | Some (LoopNoMemory, di') => Some (ReduceRaised MemoryError, di')
    | Some (LoopFaulted, di') => Some (ReduceFaulted, di')
    | Some (LoopBreak list (Some e), di') => Some (ReduceRaised e, di')
    | Some (LoopBreak list None, di') =>
        if builtin_iter env =? NULL then Some (ReduceNoBuiltin, di')
        else if build_value_ok env
             then Some (Reduced (builtin_iter env) list, di')
             else Some (ReduceRaised MemoryError, di')
    end.

End Reduce.

(** The live entries an iterator has still to yield. *)
Definition entries_left (di : odictiterobject) (mp : PyDictObject)
  : list PyDictKeyEntry :=
  if Z.land (kind di) _odict_ITER_REVERSED =? 0
  then entries_ahead mp (di_pos di)
  else entries_behind mp (di_pos di).

(** ** Sample iterators

    The iterators [iter(od3)] and [reversed(od3)] as [odictiter_new] makes
    them for the ordered dict at address 512, [od3] with the key 14 added,
    and an interpreter in which [odictiter_reduce] finds memory and the
    builtin [iter]. *)

Module SampleIter.

Definition iter3 : odictiterobject :=
  {| kind := 2; di_odict := 512; di_keys := 64; di_size := 3; di_state := 0;
     di_pos := 0 |}.

Definition reversed3 : odictiterobject :=
  {| kind := 3; di_odict := 512; di_keys := 64; di_size := 3; di_state := 0;
     di_pos := 2 |}.

Definition keys4 : PyDictKeysObject :=
  {| dk_addr := 64; dk_refcnt := 1; dk_size := 8;
     dk_usable := 1; dk_nentries := 4;
     dk_indices := [-1; -1; 0; 1; 2; -1; 3; -1];
     dk_entries :=
       [ {| me_hash := 10; me_key := 10; me_value := 100 |};
         {| me_hash := 18; me_key := 18; me_value := 101 |};
         {| me_hash := 12; me_key := 12; me_value := 102 |};
         {| me_hash := 14; me_key := 14; me_value := 103 |};
         entry_zero ] |}.

Definition od4 : PyODictObject :=
  {| od_dict := {| ma_used := 4; ma_keys := keys4; ma_offset := 0 |};
     od_state := 0 |}.

Definition env : reduce_env :=
  {| list_new_ok := true; list_append_ok := fun _ _ => true;
     builtin_iter := 900; build_value_ok := true |}.

End SampleIter.

(** ** One cell per slot

    No two cells of the hash index refer to the same slot: as a test on the
    list of cells, and as the fact the proofs use. *)
Fixpoint distinct_slots (cells : list Z) : bool :=
  match cells with
  | [] => true
  | c :: cells' =>
      ((c <? 0) || negb (existsb (Z.eqb c) cells')) && distinct_slots cells'
  end.

Definition slots_distinct (keys : PyDictKeysObject) : Prop :=
  forall c1 c2, 0 <= dk_get_index keys c1 ->
    dk_get_index keys c1 = dk_get_index keys c2 -> c1 = c2.

(** A well-formed dict each slot of which is referred to by one cell at
    most. *)
Definition dict_inv (mp : PyDictObject) : bool :=
  dict_wf mp && distinct_slots (dk_indices (ma_keys mp)).

(** The slot of an entry once the entry of slot [ix] has been moved to slot
    [dst]. *)
Definition relabel (ix dst r : Z) : Z := if r =? ix then dst else r.

(** The slot [move_to_end] moves an entry to. *)
Definition move_target (mp : PyDictObject) (last : bool) : Z :=
  if last then dk_nentries (ma_keys mp) else ma_offset mp - 1.

(** The test that makes [move_to_end] return at once: the entry is at slot
    [dk_nentries - 1], resp. at the begin offset. *)
Definition already_there (mp : PyDictObject) (last : bool) (ix : Z) : bool :=
  if last then ix =? dk_nentries (ma_keys mp) - 1 else ix =? ma_offset mp.

(** A table all cells of which are DUMMY: every entry it held has been
    deleted. *)
Module SampleFull.

Definition keys_dummy : PyDictKeysObject :=
  {| dk_addr := 64; dk_refcnt := 1; dk_size := 8;
     dk_usable := 0; dk_nentries := 5;
     dk_indices := replicate 8 DKIX_DUMMY;
     dk_entries := replicate 5 entry_zero |}.

End SampleFull.

(** ** Comparing ordered dicts ([tp_richcompare])

    The comparison operators, and what a rich comparison hands back:
    [Py_NotImplemented], [Py_True], [Py_False], or [NULL] with an exception
    set. *)
Inductive compare_op : Type := Py_LT | Py_LE | Py_EQ | Py_NE | Py_GT | Py_GE.

Inductive compare_result : Type :=
| Py_NotImplemented
| Py_True
| Py_False
| CompareNULL.

(** What [odict_richcompare(v, w, op)] takes from the interpreter:
    - the type tests [PyODict_Check(v)], [PyDict_Check(w)], [PyODict_Check(w)];
    - [dict_richcompare op], what [PyDict_Type.tp_richcompare(v, w, op)]
      returns;
    - [keys_of_v] and [keys_of_w], what [PySequence_List] makes of the two
      ordered dicts ([None] when it fails);
    - [list_equal la lb], what [PyObject_RichCompareBool(la, lb, Py_EQ)]
      returns: 1, 0, or -1 when the comparison raises. *)
Record compare_env : Type := mkCompareEnv {
  v_is_odict : bool;
  w_is_dict : bool;
  w_is_odict : bool;
  dict_richcompare : compare_op -> compare_result;
  keys_of_v : option (list PyObject);
  keys_of_w : option (list PyObject);
  list_equal : list PyObject -> list PyObject -> Z
}.

Definition _odict_keys_equal (env : compare_env) : Z :=
  match keys_of_v env with
  | None => -1
  | Some la =>
      match keys_of_w env with
      | None => -1
      | Some lb => list_equal env la lb
      end
  end.

Definition is_eq (op : compare_op) : bool :=
  match op with Py_EQ => true | _ => false end.

Definition is_ne (op : compare_op) : bool :=
  match op with Py_NE => true | _ => false end.

Definition is_true (r : compare_result) : bool :=
  match r with Py_True => true | _ => false end.

Definition is_false (r : compare_result) : bool :=
  match r with Py_False => true | _ => false end.

Definition odict_richcompare (env : compare_env) (op : compare_op)
  : compare_result :=
  if negb (v_is_odict env) || negb (w_is_dict env) then Py_NotImplemented
  else if is_eq op || is_ne op then
    let cmp := dict_richcompare env op in
    match cmp with
    | CompareNULL => CompareNULL
    | _ =>
        if negb (w_is_odict env) then cmp
        else if is_eq op && is_false cmp then cmp
        else if is_ne op && is_true cmp then cmp
        else
          (* Try comparing odict keys. *)
          let eq := _odict_keys_equal env in
          if eq <? 0 then CompareNULL
          else if eq =? (if is_eq op then 1 else 0) then Py_True else Py_False
    end
  else Py_NotImplemented.

Definition odict_eq (env : compare_env) : compare_result :=
  odict_richcompare env Py_EQ.

Definition odict_ne (env : compare_env) : compare_result :=
  odict_richcompare env Py_NE.

(** ** The key table of Include/internal/pycore_dict.h

    This header lays the hash index out in groups of [GROUP_WIDTH] cells: a
    control word of [GROUP_WIDTH] bytes and [GROUP_WIDTH] indices of 1, 2, 4
    or 8 bytes.  The names of dict-common.h it defines again live in their
    own module. *)
Module PycoreDict.

Definition GROUP_WIDTH : Z := 8.
Definition SHARED_KEYS_MAX_SIZE : Z := 30.

(** [struct _dictkeysobject]; [dk_log2_size] and [dk_kind] are [uint8_t],
    [dk_version] is a [uint32_t]. *)
Record keysobject : Type := mkKeysObject {
  dk_refcnt : Z;
  dk_log2_size : Z;
  dk_kind : Z;
  dk_version : Z;
  dk_usable : Z;
  dk_nentries : Z
}.

(** [sizeof(group8)], ..., [sizeof(group64)]: the control word and
    [GROUP_WIDTH] indices of [w] bytes. *)
Definition sizeof_group (w : Z) : Z := GROUP_WIDTH + GROUP_WIDTH * w.

Definition DK_LOG_SIZE (dk : keysobject) : Z := dk_log2_size dk + 3.

Definition DK_SIZE (dk : keysobject) : Z := Z.shiftl 1 (DK_LOG_SIZE dk).

Definition DK_GROUPS (dk : keysobject) : Z := Z.shiftl 1 (dk_log2_size dk).

Definition DK_GROUP_SIZE (dk : keysobject) : Z :=
  if DK_LOG_SIZE dk <=? 8 then sizeof_group 1
  else if DK_LOG_SIZE dk <=? 16 then sizeof_group 2
  else if DK_LOG_SIZE dk <=? 32 then sizeof_group 4
  else sizeof_group 8.

(** [DK_ENTRIES(dk)] as an offset in bytes from [dk->dk_groups]:
    [DK_GROUP_SIZE(dk) << dk->dk_log2_size], a shift of a [size_t] (the
    [sizeof] of a group) that wraps around at [2^64]. *)
Definition DK_ENTRIES_offset (dk : keysobject) : Z :=
  Mach.size_t (Z.shiftl (DK_GROUP_SIZE dk) (dk_log2_size dk)).

(** The bytes an index of a group has. *)
Definition index_bytes (dk : keysobject) : Z :=
  (DK_GROUP_SIZE dk - GROUP_WIDTH) / GROUP_WIDTH.

(** The bytes that precede the values of a [PyDictValues]: position [j] of
    the list is the byte at [-1-j] from [values], taken as a pointer to
    [uint8_t].  "[-1] = prefix size. [-2] = used size. size[-2-n...] =
    insertion order." *)
Definition prefix_size (prefix : list Z) : Z := aget 0 prefix 0.

Definition used_size (prefix : list Z) : Z := aget 0 prefix 1.

(** The insertion order the prefix records, first insertion first. *)
Definition insertion_order (prefix : list Z) : list Z :=
  take (Z.to_nat (used_size prefix)) (drop 2 prefix).

(** [_PyDictValues_AddToInsertionOrder(values, ix)]: with [size_ptr] the
    address of the byte at [-2], [size = *size_ptr; size++;
    size_ptr[-size] = (uint8_t)ix; *size_ptr = size]. *)
Definition _PyDictValues_AddToInsertionOrder (prefix : list Z) (ix : Z) : list Z :=
  let size := aget 0 prefix 1 in
  let size := size + 1 in
  let prefix := aset prefix (1 + size) (ix mod 2 ^ 8) in
  aset prefix 1 (size mod 2 ^ 8).

End PycoreDict.

(** * Facts *)

(** ** Machine integers and arrays *)

Lemma size_t_range z : 0 <= Mach.size_t z < 2 ^ 64.
Proof. unfold Mach.size_t. apply Z.mod_pos_bound. lia. Qed.

Lemma size_t_small z : 0 <= z < 2 ^ 64 -> Mach.size_t z = z.
Proof. intros H. unfold Mach.size_t. apply Z.mod_small. exact H. Qed.

Lemma sint_small w z :
  0 < w -> - 2 ^ (w - 1) <= z < 2 ^ (w - 1) -> Mach.sint w z = z.
Proof.
  intros Hw Hz. unfold Mach.sint.
  assert (E : 2 ^ w = 2 * 2 ^ (w - 1)).
  { replace w with (Z.succ (w - 1)) at 1 by lia. apply Z.pow_succ_r. lia. }
  rewrite Z.mod_small; lia.
Qed.

Lemma aget_aset_same {A : Type} (d : A) (l : list A) (i : Z) (x : A) :
  0 <= i < Z.of_nat (length l) -> aget d (aset l i x) i = x.
Proof.
  intros Hi. unfold aget, aset.
  destruct (i <? 0) eqn:E; [lia|].
  rewrite list_lookup_insert_eq; [reflexivity | lia].
Qed.

Lemma aget_aset_other {A : Type} (d : A) (l : list A) (i j : Z) (x : A) :
  i <> j -> aget d (aset l i x) j = aget d l j.
Proof.
  intros Hne. unfold aget, aset.
  destruct (j <? 0) eqn:Ej; [reflexivity|].
  destruct (i <? 0) eqn:Ei; [reflexivity|].
  rewrite list_lookup_insert_ne; [reflexivity | lia].
Qed.

Lemma length_aset {A : Type} (l : list A) (i : Z) (x : A) :
  length (aset l i x) = length l.
Proof. unfold aset. destruct (i <? 0); [reflexivity | apply length_insert]. Qed.

(** ** The recurrence [i <- 5*i + 1] modulo a power of two has full period *)

Lemma geom5_closed n : 4 * geom5 n = 5 ^ Z.of_nat n - 1.
Proof.
  induction n as [|n IH].
  - reflexivity.
  - rewrite Nat2Z.inj_succ, Z.pow_succ_r by lia. simpl geom5. lia.
Qed.

Lemma geom5_add a b : geom5 (a + b) = 5 ^ Z.of_nat a * geom5 b + geom5 a.
Proof.
  assert (H := geom5_closed (a + b)).
  assert (Ha := geom5_closed a). assert (Hb := geom5_closed b).
  rewrite Nat2Z.inj_add, Z.pow_add_r in H by lia. nia.
Qed.

Lemma pow5_odd n : exists w, 5 ^ Z.of_nat n = 2 * w + 1.
Proof.
  induction n as [|n [w IH]].
  - exists 0. reflexivity.
  - exists (5 * w + 2). rewrite Nat2Z.inj_succ, Z.pow_succ_r by lia. lia.
Qed.

(** [5^(2^k) = 1 + 2^(k+2) * odd]. *)
Lemma pow5_pow2 (k : nat) :
  exists u, 5 ^ Z.of_nat (2 ^ k) = 1 + 4 * 2 ^ Z.of_nat k * (2 * u + 1).
Proof.
  induction k as [|k [u IH]].
  - exists 0. reflexivity.
  - exists (u + 2 ^ Z.of_nat k * (2 * u + 1) * (2 * u + 1)).
    replace (2 ^ S k)%nat with (2 ^ k + 2 ^ k)%nat by (simpl; lia).
    rewrite Nat2Z.inj_add, Z.pow_add_r, IH by lia.
    rewrite Nat2Z.inj_succ, Z.pow_succ_r by lia. ring.
Qed.

Lemma geom5_pow2 (k : nat) :
  exists u, geom5 (2 ^ k) = 2 ^ Z.of_nat k * (2 * u + 1).
Proof.
  destruct (pow5_pow2 k) as [u Hu]. exists u.
  assert (H := geom5_closed (2 ^ k)). lia.
Qed.

Lemma lcg_iter_closed (k : Z) (n : nat) (x : Z) :
  0 <= k -> 0 <= x < 2 ^ k ->
  Nat.iter n (lcg_step k) x = (5 ^ Z.of_nat n * x + geom5 n) mod 2 ^ k.
Proof.
  intros Hk Hx. induction n as [|n IH].
  - simpl. rewrite Z.mod_small; lia.
  - rewrite Nat2Z.inj_succ, Z.pow_succ_r by lia.
    simpl Nat.iter. rewrite IH. unfold lcg_step. simpl geom5.
    rewrite Z.add_mod, Z.mul_mod_idemp_r, <- Z.add_mod by lia.
    f_equal. ring.
Qed.

(** Every residue is reached from every start in fewer than [2^k] steps. *)
Lemma lcg_closed_full_cycle (k : nat) (x c : Z) :
  0 <= c < 2 ^ Z.of_nat k ->
  exists n : nat, (n < 2 ^ k)%nat /\
    (5 ^ Z.of_nat n * x + geom5 n) mod 2 ^ Z.of_nat k = c.
Proof.
  revert c. induction k as [|k IH]; intros c Hc.
  - exists 0%nat. split; [simpl; lia|]. simpl. rewrite Z.mod_1_r. simpl in Hc. lia.
  - rewrite Nat2Z.inj_succ, Z.pow_succ_r in * by lia.
    set (M := 2 ^ Z.of_nat k) in *.
    assert (HM : 0 < M) by (apply Z.pow_pos_nonneg; lia).
    destruct (IH (c mod M)) as (n & Hn & Hy); [apply Z.mod_pos_bound; lia|].
    set (y := 5 ^ Z.of_nat n * x + geom5 n) in *.
    assert (Hq : exists q, y = c + M * q).
    { exists (y / M - c / M).
      pose proof (Z.div_mod y M ltac:(lia)). pose proof (Z.div_mod c M ltac:(lia)).
      lia. }
    destruct Hq as [q Hq].
    destruct (Z.even q) eqn:Eq.
    + apply Z.even_spec in Eq as [t Ht].
      exists n. split; [simpl; lia|].
      fold y. symmetry. apply (Z.mod_unique_pos _ _ t); [lia|]. subst q. lia.
    + assert (Oq : Z.odd q = true) by (rewrite <- Z.negb_even, Eq; reflexivity).
      apply Z.odd_spec in Oq as [t Ht].
      exists (n + 2 ^ k)%nat. split; [simpl; lia|].
      destruct (geom5_pow2 k) as [u Hu]. destruct (pow5_pow2 k) as [u' Hu'].
      destruct (pow5_odd n) as [w Hw].
      assert (Hg := geom5_closed (2 ^ k)).
      assert (u' = u) by (fold M in Hu, Hu'; nia). subst u'.
      rewrite geom5_add, Nat2Z.inj_add, Z.pow_add_r by lia.
      fold M in Hu, Hu'. rewrite Hu, Hu'.
      symmetry.
      apply (Z.mod_unique_pos _ _
               (t + 1 + w + (2 * w + 1) * (u + 4 * u * x + 2 * x))); [lia|].
      replace (5 ^ Z.of_nat n * (1 + 4 * M * (2 * u + 1)) * x +
               (5 ^ Z.of_nat n * (M * (2 * u + 1)) + geom5 n))
        with (y + 5 ^ Z.of_nat n * (M * (2 * u + 1) * (4 * x + 1)))
        by (unfold y; ring).
      rewrite Hw, Hq, Ht. ring.
Qed.

Lemma lcg_full_cycle (k : nat) (x c : Z) :
  0 <= x < 2 ^ Z.of_nat k -> 0 <= c < 2 ^ Z.of_nat k ->
  exists n : nat, (n < 2 ^ k)%nat /\ Nat.iter n (lcg_step (Z.of_nat k)) x = c.
Proof.
  intros Hx Hc. destruct (lcg_closed_full_cycle k x c Hc) as (n & Hn & E).
  exists n. split; [exact Hn|]. rewrite lcg_iter_closed; [exact E | lia | exact Hx].
Qed.

(** ** The probe sequence *)

Lemma pow2_nat_Z (k : nat) : Z.of_nat (2 ^ k) = 2 ^ Z.of_nat k.
Proof. rewrite Nat2Z.inj_pow. reflexivity. Qed.

Lemma mask_of_size (k : nat) :
  (k <= 64)%nat -> Mach.size_t (2 ^ Z.of_nat k - 1) = 2 ^ Z.of_nat k - 1.
Proof.
  intros Hk. apply size_t_small.
  assert (0 < 2 ^ Z.of_nat k) by (apply Z.pow_pos_nonneg; lia).
  assert (2 ^ Z.of_nat k <= 2 ^ 64) by (apply Z.pow_le_mono_r; lia).
  lia.
Qed.

Lemma land_mask (k : nat) (x : Z) :
  (k <= 64)%nat -> Z.land (2 ^ Z.of_nat k - 1) (Mach.size_t x) = x mod 2 ^ Z.of_nat k.
Proof.
  intros Hk. rewrite Z.land_comm.
  replace (2 ^ Z.of_nat k - 1) with (Z.ones (Z.of_nat k))
    by (rewrite Z.ones_equiv; lia).
  rewrite Z.land_ones by lia. unfold Mach.size_t.
  apply Z.mod_mod_divide.
  exists (2 ^ (64 - Z.of_nat k)). rewrite <- Z.pow_add_r by lia. f_equal. lia.
Qed.

Lemma land_mask_l (k : nat) (x : Z) :
  (k <= 64)%nat -> Z.land (Mach.size_t x) (2 ^ Z.of_nat k - 1) = x mod 2 ^ Z.of_nat k.
Proof. intros Hk. rewrite Z.land_comm. apply land_mask. exact Hk. Qed.

Lemma probe_next_mod (k : nat) (perturb' i : Z) :
  (k <= 64)%nat ->
  probe_next (2 ^ Z.of_nat k - 1) perturb' i = (i * 5 + perturb' + 1) mod 2 ^ Z.of_nat k.
Proof. intros Hk. unfold probe_next. apply land_mask. exact Hk. Qed.

Lemma probe_next_range (k : nat) (perturb' i : Z) :
  (k <= 64)%nat ->
  0 <= probe_next (2 ^ Z.of_nat k - 1) perturb' i < 2 ^ Z.of_nat k.
Proof.
  intros Hk. rewrite probe_next_mod by exact Hk.
  apply Z.mod_pos_bound. apply Z.pow_pos_nonneg; lia.
Qed.

Lemma probe_cell_add (a b : nat) (mask perturb i : Z) :
  probe_cell (a + b) mask perturb i =
  probe_cell b mask (Z.shiftr perturb (5 * Z.of_nat a)) (probe_cell a mask perturb i).
Proof.
  revert perturb i. induction a as [|a IH]; intros perturb i.
  - simpl. rewrite Z.shiftr_0_r. reflexivity.
  - simpl probe_cell. rewrite IH. unfold probe_next_perturb, PERTURB_SHIFT.
    rewrite Z.shiftr_shiftr by lia. do 2 f_equal. lia.
Qed.

Lemma perturb_exhausted (perturb : Z) :
  0 <= perturb < 2 ^ 64 -> Z.shiftr perturb (5 * Z.of_nat 13) = 0.
Proof.
  intros H. rewrite Z.shiftr_div_pow2 by lia. apply Z.div_small.
  change (5 * Z.of_nat 13) with 65. change (2 ^ 65) with (2 * 2 ^ 64). lia.
Qed.

Lemma probe_cell_range (k n : nat) (perturb i : Z) :
  (k <= 64)%nat -> 0 <= i < 2 ^ Z.of_nat k ->
  0 <= probe_cell n (2 ^ Z.of_nat k - 1) perturb i < 2 ^ Z.of_nat k.
Proof.
  intros Hk. revert perturb i. induction n as [|n IH]; intros perturb i Hi.
  - exact Hi.
  - simpl. apply IH. apply probe_next_range. exact Hk.
Qed.

Lemma probe_cell_lcg (k n : nat) (i : Z) :
  (k <= 64)%nat ->
  probe_cell n (2 ^ Z.of_nat k - 1) 0 i = Nat.iter n (lcg_step (Z.of_nat k)) i.
Proof.
  intros Hk. revert i. induction n as [|n IH]; intros i.
  - reflexivity.
  - rewrite Nat.iter_succ_r. simpl probe_cell.
    replace (probe_next_perturb 0) with 0 by reflexivity.
    rewrite IH. f_equal. rewrite probe_next_mod by exact Hk.
    unfold lcg_step. f_equal. lia.
Qed.

(** Every cell of the table is on the probe sequence, at an iteration below
    [13 + 2^k]. *)
Lemma probe_reaches_every_cell (k : nat) (perturb i c : Z) :
  (k <= 64)%nat -> 0 <= perturb < 2 ^ 64 ->
  0 <= i < 2 ^ Z.of_nat k -> 0 <= c < 2 ^ Z.of_nat k ->
  exists n : nat, (n < 13 + 2 ^ k)%nat /\
    probe_cell n (2 ^ Z.of_nat k - 1) perturb i = c.
Proof.
  intros Hk Hp Hi Hc.
  set (j := probe_cell 13 (2 ^ Z.of_nat k - 1) perturb i).
  assert (Hj : 0 <= j < 2 ^ Z.of_nat k) by (apply probe_cell_range; assumption).
  destruct (lcg_full_cycle k j c Hj Hc) as (n & Hn & E).
  exists (13 + n)%nat. split; [lia|].
  rewrite probe_cell_add, perturb_exhausted by exact Hp.
  fold j. rewrite probe_cell_lcg by exact Hk. exact E.
Qed.

(** A probe loop returns the answer of the first cell of the probe sequence
    at which [visit] answers. *)
Lemma probe_search_first (visit : Z -> option Z) (fuel : nat) (mask perturb i r : Z) :
  probe_search visit fuel mask perturb i = Some r <->
  exists n : nat, (n < fuel)%nat /\
    visit (probe_cell n mask perturb i) = Some r /\
    forall m : nat, (m < n)%nat -> visit (probe_cell m mask perturb i) = None.
Proof.
  revert perturb i. induction fuel as [|fuel IH]; intros perturb i.
  - simpl. split; [discriminate | intros (n & Hn & _); lia].
  - simpl probe_search. destruct (visit i) as [r'|] eqn:V.
    + split.
      * intros E. exists 0%nat. split; [lia|]. split; [simpl; congruence|].
        intros m Hm. lia.
      * intros (n & Hn & Hv & Hfirst). destruct n as [|n].
        -- simpl in Hv. congruence.
        -- specialize (Hfirst 0%nat ltac:(lia)). simpl in Hfirst. congruence.
    + rewrite IH. split.
      * intros (n & Hn & Hv & Hfirst). exists (S n). split; [lia|].
        split; [exact Hv|]. intros [|m] Hm; [exact V|]. apply Hfirst. lia.
      * intros (n & Hn & Hv & Hfirst). destruct n as [|n].
        -- simpl in Hv. congruence.
        -- exists n. split; [lia|]. split; [exact Hv|].
           intros m Hm. apply (Hfirst (S m)). lia.
Qed.

Lemma probe_search_answers (visit : Z -> option Z) (n fuel : nat) (mask perturb i : Z) :
  is_Some (visit (probe_cell n mask perturb i)) -> (n < fuel)%nat ->
  is_Some (probe_search visit fuel mask perturb i).
Proof.
  revert fuel perturb i. induction n as [|n IH]; intros fuel perturb i Hv Hn.
  - destruct fuel as [|fuel]; [lia|]. simpl in *.
    destruct Hv as [r Hv]. rewrite Hv. eauto.
  - destruct fuel as [|fuel]; [lia|]. simpl in *.
    destruct (visit i); [eauto|]. apply IH; [exact Hv | lia].
Qed.

(** More fuel does not change the answer of a loop that has left. *)
Lemma probe_search_fuel_mono (visit : Z -> option Z) (fuel fuel' : nat)
    (mask perturb i r : Z) :
  probe_search visit fuel mask perturb i = Some r -> (fuel <= fuel')%nat ->
  probe_search visit fuel' mask perturb i = Some r.
Proof.
  rewrite !probe_search_first. intros (n & Hn & H) Hle. exists n. split; [lia | exact H].
Qed.

(** Termination: when some cell of a table of [2^k] cells makes [visit]
    answer, the loop leaves within [13 + 2^k] iterations. *)
Lemma probe_search_total (visit : Z -> option Z) (k fuel : nat) (perturb i c : Z) :
  (k <= 64)%nat -> 0 <= perturb < 2 ^ 64 ->
  0 <= i < 2 ^ Z.of_nat k -> 0 <= c < 2 ^ Z.of_nat k ->
  is_Some (visit c) -> (13 + 2 ^ k <= fuel)%nat ->
  is_Some (probe_search visit fuel (2 ^ Z.of_nat k - 1) perturb i).
Proof.
  intros Hk Hp Hi Hc Hv Hfuel.
  destruct (probe_reaches_every_cell k perturb i c Hk Hp Hi Hc) as (n & Hn & E).
  apply (probe_search_answers visit n); [rewrite E; exact Hv | lia].
Qed.

(** A loop that has not left within [13 + 2^k] iterations never leaves. *)
Lemma probe_search_diverges (visit : Z -> option Z) (k : nat) (perturb i : Z) :
  (k <= 64)%nat -> 0 <= perturb < 2 ^ 64 -> 0 <= i < 2 ^ Z.of_nat k ->
  probe_search visit (13 + 2 ^ k) (2 ^ Z.of_nat k - 1) perturb i = None ->
  forall fuel, probe_search visit fuel (2 ^ Z.of_nat k - 1) perturb i = None.
Proof.
  intros Hk Hp Hi Hnone fuel.
  destruct (probe_search visit fuel _ perturb i) as [r|] eqn:E; [|reflexivity].
  apply probe_search_first in E as (n & _ & Hv & _).
  assert (Hc : 0 <= probe_cell n (2 ^ Z.of_nat k - 1) perturb i < 2 ^ Z.of_nat k)
    by (apply probe_cell_range; assumption).
  destruct (probe_search_total visit k (13 + 2 ^ k) perturb i _ Hk Hp Hi Hc) as [r' Hr'];
    [rewrite Hv; eauto | lia | congruence].
Qed.

Lemma probe_cell_spec (mask hash : Z) (n : nat) :
  probe_cell n mask (Mach.size_t hash) (Z.land (Mach.size_t hash) mask) =
  spec_probe_cell mask hash n.
Proof.
  induction n as [|n IH].
  - reflexivity.
  - replace (S n) with (n + 1)%nat at 1 by lia.
    rewrite probe_cell_add. cbn [probe_cell spec_probe_cell]. rewrite IH.
    unfold probe_next, probe_next_perturb, PERTURB_SHIFT.
    rewrite Z.shiftr_shiftr by lia.
    replace (5 * Z.of_nat n + 5) with (5 * Z.of_nat (S n)) by lia.
    reflexivity.
Qed.

(** ** [lookdict_ident] *)

Lemma lookdict_ident_loop_search (fuel : nat) (keys : PyDictKeysObject)
    (key : PyObject) (mask perturb i : Z) :
  lookdict_ident_loop fuel keys key mask perturb i =
  probe_search (lookdict_ident_visit keys key) fuel mask perturb i.
Proof.
  revert perturb i. induction fuel as [|fuel IH]; intros perturb i.
  - reflexivity.
  - simpl. unfold lookdict_ident_visit.
    destruct (dk_get_index keys i =? DKIX_EMPTY); [reflexivity|].
    destruct ((0 <=? dk_get_index keys i) &&
              (me_key (DK_ENTRIES keys (dk_get_index keys i)) =? key));
      [reflexivity|].
    apply IH.
Qed.

Lemma lookdict_ident_visit_answer (keys : PyDictKeysObject) (key : PyObject)
    (i r : Z) :
  lookdict_ident_visit keys key i = Some r <->
  dk_get_index keys i = r /\
  (r = DKIX_EMPTY \/ 0 <= r /\ me_key (DK_ENTRIES keys r) = key).
Proof.
  unfold lookdict_ident_visit, DKIX_EMPTY.
  destruct (dk_get_index keys i =? -1) eqn:E1.
  - apply Z.eqb_eq in E1. split.
    + intros [= <-]. auto.
    + intros [<- _]. rewrite E1. reflexivity.
  - apply Z.eqb_neq in E1.
    destruct (0 <=? dk_get_index keys i) eqn:E2; simpl.
    + apply Z.leb_le in E2.
      destruct (me_key (DK_ENTRIES keys (dk_get_index keys i)) =? key) eqn:E3.
      * apply Z.eqb_eq in E3. split; [intros [= <-]; auto | intros [<- _]; reflexivity].
      * apply Z.eqb_neq in E3. split; [discriminate|].
        intros [<- [H | [_ H]]]; [lia | contradiction].
    + apply Z.leb_gt in E2. split; [discriminate|].
      intros [<- [H | [H _]]]; lia.
Qed.

Lemma lookdict_ident_visit_none (keys : PyDictKeysObject) (key : PyObject) (i : Z) :
  lookdict_ident_visit keys key i = None <->
  dk_get_index keys i <> DKIX_EMPTY /\
  ~ (0 <= dk_get_index keys i /\
     me_key (DK_ENTRIES keys (dk_get_index keys i)) = key).
Proof.
  split.
  - intros Hn. split.
    + intros E.
      assert (H : lookdict_ident_visit keys key i = Some DKIX_EMPTY)
        by (apply lookdict_ident_visit_answer; auto).
      congruence.
    + intros [H1 H2].
      assert (H : lookdict_ident_visit keys key i = Some (dk_get_index keys i))
        by (apply lookdict_ident_visit_answer; auto).
      congruence.
  - intros [H1 H2].
    destruct (lookdict_ident_visit keys key i) as [r|] eqn:E; [|reflexivity].
    apply lookdict_ident_visit_answer in E as [<- [E | E]]; contradiction.
Qed.

(** [lookdict_ident] never answers [DKIX_ERROR], whatever the table. *)
Lemma lookdict_ident_no_error (keys : PyDictKeysObject) (key : PyObject)
    (hash r : Z) :
  lookdict_ident keys key hash = Some r ->
  r = DKIX_EMPTY \/ 0 <= r /\ me_key (DK_ENTRIES keys r) = key.
Proof.
  unfold lookdict_ident. rewrite lookdict_ident_loop_search, probe_search_first.
  intros (n & _ & Hv & _). apply lookdict_ident_visit_answer in Hv. tauto.
Qed.

Lemma probe_fuel_pow2 (keys : PyDictKeysObject) (k : nat) :
  dk_size keys = 2 ^ Z.of_nat k -> probe_fuel keys = (13 + 2 ^ k)%nat.
Proof.
  intros E. unfold probe_fuel. rewrite E, <- pow2_nat_Z, Nat2Z.id. reflexivity.
Qed.

(** The bound [probe_fuel] loses nothing: on a table of [2^k] cells, when
    [lookdict_ident] has not left its loop within [probe_fuel keys]
    iterations, no number of iterations makes it leave. *)
Lemma lookdict_ident_fuel_exact (keys : PyDictKeysObject) (key : PyObject)
    (hash : Z) (k : nat) :
  (k <= 63)%nat -> dk_size keys = 2 ^ Z.of_nat k ->
  lookdict_ident keys key hash = None ->
  forall fuel,
    lookdict_ident_loop fuel keys key (Mach.size_t (DK_MASK keys))
      (Mach.size_t hash) (Z.land (Mach.size_t hash) (Mach.size_t (DK_MASK keys)))
    = None.
Proof.
  intros Hk Hsize Hnone fuel.
  assert (Hmask : Mach.size_t (DK_MASK keys) = 2 ^ Z.of_nat k - 1).
  { unfold DK_MASK. rewrite Hsize. apply mask_of_size. lia. }
  assert (Hpos : 0 < 2 ^ Z.of_nat k) by (apply Z.pow_pos_nonneg; lia).
  unfold lookdict_ident in Hnone.
  rewrite lookdict_ident_loop_search, Hmask, (probe_fuel_pow2 keys k Hsize) in Hnone.
  rewrite lookdict_ident_loop_search, Hmask.
  apply (probe_search_diverges _ k); try lia; try exact Hnone.
  - apply size_t_range.
  - rewrite land_mask_l by lia. apply Z.mod_pos_bound. lia.
Qed.

(** C6: on a table of [2^k] cells with an EMPTY cell, [lookdict_ident]
    returns.  It returns what it finds at the first cell of the probe
    sequence [hash & mask], [mask & (i*5 + perturb + 1)] with [perturb >>= 5]
    that is EMPTY or refers to an entry whose key is the very object [key]:
    [DKIX_EMPTY] in the first case, the index of that entry in the second,
    and so never [DKIX_ERROR].  No equality callback is involved: the
    function does not take the runtime. *)
Theorem lookdict_ident_correct (keys : PyDictKeysObject) (key : PyObject)
    (hash : Z) (k : nat) (c : Z) :
  (k <= 63)%nat -> dk_size keys = 2 ^ Z.of_nat k ->
  0 <= c < dk_size keys -> dk_get_index keys c = DKIX_EMPTY ->
  exists (r : Z) (n : nat),
    lookdict_ident keys key hash = Some r /\
    dk_get_index keys (spec_probe_cell (dk_size keys - 1) hash n) = r /\
    (r = DKIX_EMPTY \/ 0 <= r /\ me_key (DK_ENTRIES keys r) = key) /\
    r <> DKIX_ERROR /\
    forall m : nat, (m < n)%nat ->
      let ix := dk_get_index keys (spec_probe_cell (dk_size keys - 1) hash m) in
      ix <> DKIX_EMPTY /\ ~ (0 <= ix /\ me_key (DK_ENTRIES keys ix) = key).
Proof.
  intros Hk Hsize Hc Hempty.
  assert (Hfuel := probe_fuel_pow2 keys k Hsize).
  assert (Hmask : Mach.size_t (DK_MASK keys) = dk_size keys - 1).
  { unfold DK_MASK. rewrite Hsize. apply mask_of_size. lia. }
  assert (Hpos : 0 < 2 ^ Z.of_nat k) by (apply Z.pow_pos_nonneg; lia).
  assert (Hsome : is_Some (lookdict_ident keys key hash)).
  { unfold lookdict_ident. rewrite lookdict_ident_loop_search, Hmask, Hfuel, Hsize.
    apply (probe_search_total _ k _ _ _ c); try lia.
    - apply size_t_range.
    - rewrite land_mask_l by lia. apply Z.mod_pos_bound. lia.
    - assert (V : lookdict_ident_visit keys key c = Some DKIX_EMPTY)
        by (apply lookdict_ident_visit_answer; auto).
      rewrite V. eauto. }
  destruct Hsome as [r Hr]. generalize Hr. unfold lookdict_ident at 1.
  rewrite lookdict_ident_loop_search, probe_search_first, Hmask.
  intros (n & _ & Hv & Hfirst). rewrite probe_cell_spec in Hv.
  apply lookdict_ident_visit_answer in Hv as [Hcell Hans].
  exists r, n. split; [exact Hr|]. split; [exact Hcell|]. split; [exact Hans|].
  split.
  - unfold DKIX_ERROR, DKIX_EMPTY in *. lia.
  - intros m Hm. specialize (Hfirst m Hm). rewrite probe_cell_spec in Hfirst.
    apply lookdict_ident_visit_none in Hfirst. exact Hfirst.
Qed.

Lemma lookdict_ident_correct_witness :
  exists (r : Z) (n : nat),
    lookdict_ident Sample.keys3 18 18 = Some r /\
    dk_get_index Sample.keys3 (spec_probe_cell (dk_size Sample.keys3 - 1) 18 n) = r /\
    (r = DKIX_EMPTY \/ 0 <= r /\ me_key (DK_ENTRIES Sample.keys3 r) = 18) /\
    r <> DKIX_ERROR /\
    forall m : nat, (m < n)%nat ->
      let ix := dk_get_index Sample.keys3
                  (spec_probe_cell (dk_size Sample.keys3 - 1) 18 m) in
      ix <> DKIX_EMPTY /\ ~ (0 <= ix /\ me_key (DK_ENTRIES Sample.keys3 ix) = 18).
Proof.
  apply (lookdict_ident_correct Sample.keys3 18 18 3 0).
  - lia.
  - reflexivity.
  - simpl. lia.
  - reflexivity.
Defined.

(** ** Well-formed tables *)

Lemma is_pow2_log (s : Z) :
  is_pow2 s = true -> s = 2 ^ Z.of_nat (Z.to_nat (Z.log2 s)).
Proof.
  unfold is_pow2. intros H. apply andb_prop in H as [_ H].
  apply Z.eqb_eq in H. rewrite Z2Nat.id by apply Z.log2_nonneg. exact H.
Qed.

Lemma aget_in_range {A : Type} (d : A) (l : list A) (i : Z) :
  0 <= i < Z.of_nat (length l) -> In (aget d l i) l.
Proof.
  intros Hi. unfold aget. destruct (i <? 0) eqn:E; [lia|].
  destruct (l !! Z.to_nat i) as [x|] eqn:L.
  - simpl. apply list_elem_of_In. apply list_elem_of_lookup. eauto.
  - apply lookup_ge_None in L. lia.
Qed.

Lemma aget_out_of_range {A : Type} (d : A) (l : list A) (i : Z) :
  ~ (0 <= i < Z.of_nat (length l)) -> aget d l i = d.
Proof.
  intros Hi. unfold aget. destruct (i <? 0) eqn:E; [reflexivity|].
  rewrite (proj2 (lookup_ge_None l (Z.to_nat i))); [reflexivity | lia].
Qed.

Lemma keys_wf_ok (keys : PyDictKeysObject) : keys_wf keys = true -> keys_ok keys.
Proof.
  unfold keys_wf. rewrite !andb_true_iff.
  intros [[[[[[[[[H8 H62] Hp] Hi] Hc] Hn] Hroom] Hu] Hcells] Hempty].
  apply Z.leb_le in H8, H62, Hn, Hc, Hroom. apply Z.eqb_eq in Hi, Hu.
  split; try assumption.
  - apply is_pow2_log in Hp. exists (Z.to_nat (Z.log2 (dk_size keys))).
    split; [|exact Hp].
    assert (L3 : Z.log2 8 <= Z.log2 (dk_size keys)) by (apply Z.log2_le_mono; lia).
    assert (L62 : Z.log2 (dk_size keys) <= Z.log2 (2 ^ 60)) by (apply Z.log2_le_mono; lia).
    rewrite Z.log2_pow2 in L62 by lia. change (Z.log2 8) with 3 in L3. lia.
  - intros c. unfold dk_get_index.
    destruct (Z_lt_dec c 0) as [Hneg|Hnn];
      [rewrite aget_out_of_range by lia; unfold DKIX_DUMMY, DKIX_EMPTY; lia|].
    destruct (Z_lt_dec c (Z.of_nat (length (dk_indices keys)))) as [Hlt|Hge];
      [|rewrite aget_out_of_range by lia; unfold DKIX_DUMMY, DKIX_EMPTY; lia].
    rewrite forallb_forall in Hcells.
    specialize (Hcells _ (aget_in_range DKIX_EMPTY (dk_indices keys) c ltac:(lia))).
    apply andb_prop in Hcells as [H1 H2]. apply Z.leb_le in H1. apply Z.ltb_lt in H2.
    lia.
  - apply existsb_exists in Hempty as (x & Hin & Hx). apply Z.eqb_eq in Hx. subst x.
    apply list_elem_of_In, list_elem_of_lookup in Hin as [i Hi'].
    exists (Z.of_nat i). assert (Hlt := lookup_lt_Some _ _ _ Hi'). split; [lia|].
    unfold dk_get_index, aget. destruct (Z.of_nat i <? 0) eqn:E; [lia|].
    rewrite Nat2Z.id, Hi'. reflexivity.
Qed.

(** ** Two loops over one probe sequence *)

(** When a loop with [v1] leaves with [r1], a loop with [v2] over the same
    sequence leaves no later, provided [v2] answers wherever [v1] answers
    [r1]; its answer satisfies what the answers of [v2] satisfy at the cells
    [v1] passes and at the cells where [v1] answers [r1]. *)
Lemma probe_search_transfer (v1 v2 : Z -> option Z) (Q P : Z -> Prop)
    (fuel : nat) (mask perturb i r1 : Z) :
  probe_search v1 fuel mask perturb i = Some r1 ->
  Q i -> (forall p c, Q (probe_next mask p c)) ->
  (forall c, Q c -> v1 c = Some r1 -> exists r2, v2 c = Some r2 /\ P r2) ->
  (forall c r2, Q c -> v1 c = None -> v2 c = Some r2 -> P r2) ->
  exists r2, probe_search v2 fuel mask perturb i = Some r2 /\ P r2.
Proof.
  intros H1 Hi Hnext Hhit Hpass. revert perturb i H1 Hi.
  induction fuel as [|fuel IH]; intros perturb i H1 Hi; [discriminate|].
  simpl in *. destruct (v1 i) as [r|] eqn:V1.
  - injection H1 as ->. destruct (Hhit i Hi V1) as (r2 & V2 & HP).
    rewrite V2. eauto.
  - destruct (v2 i) as [r2|] eqn:V2.
    + exists r2. split; [reflexivity|]. exact (Hpass i r2 Hi V1 V2).
    + apply IH; [exact H1 | apply Hnext].
Qed.

Lemma probe_cell_nonneg (n : nat) (mask perturb i : Z) :
  0 <= mask -> 0 <= i -> 0 <= probe_cell n mask perturb i.
Proof.
  intros Hm. revert perturb i. induction n as [|n IH]; intros perturb i Hi.
  - exact Hi.
  - simpl. apply IH. unfold probe_next. apply Z.land_nonneg. left. exact Hm.
Qed.

Lemma probe_search_cell (visit : Z -> option Z) (fuel : nat) (mask perturb i r : Z)
    (P : Z -> Prop) :
  probe_search visit fuel mask perturb i = Some r ->
  P i -> (forall p c, P (probe_next mask p c)) ->
  exists c, P c /\ visit c = Some r.
Proof.
  intros H Hi Hnext. revert perturb i H Hi.
  induction fuel as [|fuel IH]; intros perturb i H Hi; [discriminate|].
  simpl in H. destruct (visit i) as [r'|] eqn:V.
  - injection H as ->. eauto.
  - apply IH in H; [exact H | apply Hnext].
Qed.

Section Lookups.
Context {rt : Runtime}.

Lemma lookdict_index_visit_answer (keys : PyDictKeysObject) (index c r : Z) :
  0 <= index -> 0 <= c ->
  lookdict_index_visit keys index c = Some r ->
  r = DKIX_EMPTY \/ 0 <= r /\ r = c /\ dk_get_index keys r = index.
Proof.
  intros Hidx Hc. unfold lookdict_index_visit.
  destruct (dk_get_index keys c =? index) eqn:E1.
  - apply Z.eqb_eq in E1. intros [= <-]. auto.
  - destruct (dk_get_index keys c =? DKIX_EMPTY); [|discriminate].
    intros [= <-]. auto.
Qed.

(** The cells of the probe sequence of a lookup are cells of the table. *)
Lemma probe_search_in_table (visit : Z -> option Z) (keys : PyDictKeysObject)
    (hash r : Z) :
  keys_ok keys ->
  probe_search visit (probe_fuel keys) (Mach.size_t (DK_MASK keys))
    (Mach.size_t hash) (Z.land (Mach.size_t hash) (Mach.size_t (DK_MASK keys)))
  = Some r ->
  exists c, 0 <= c < dk_size keys /\ visit c = Some r.
Proof.
  intros Hok H. destruct (ok_size _ Hok) as (k & Hk & Hsize).
  assert (Hmask : Mach.size_t (DK_MASK keys) = 2 ^ Z.of_nat k - 1).
  { unfold DK_MASK. rewrite Hsize. apply mask_of_size. lia. }
  rewrite Hmask in H. rewrite Hsize.
  apply (probe_search_cell _ _ _ _ _ _ (fun c => 0 <= c < 2 ^ Z.of_nat k)) in H.
  - exact H.
  - rewrite land_mask_l by lia. apply Z.mod_pos_bound. apply Z.pow_pos_nonneg; lia.
  - intros p c. apply probe_next_range. lia.
Qed.

(** What [lookdict] returns on a hit is the content of a cell, so the index
    of a slot below [dk_nentries]. *)
Lemma lookdict_hit_range (mp : PyDictObject) (key : PyObject) (hash ix : Z) :
  keys_ok (ma_keys mp) ->
  lookdict mp key hash = Some ix -> 0 <= ix ->
  ix < dk_nentries (ma_keys mp) /\
  0 < PyObject_RichCompareBool (me_key (DK_ENTRIES (ma_keys mp) ix)) key.
Proof.
  intros Hok H Hix. unfold lookdict in H.
  apply probe_search_in_table in H as (c & Hc & V); [|exact Hok].
  unfold lookdict_visit in V.
  destruct (dk_get_index (ma_keys mp) c =? DKIX_EMPTY);
    [injection V as <-; unfold DKIX_EMPTY in Hix; lia|].
  destruct (0 <=? dk_get_index (ma_keys mp) c); [|discriminate].
  destruct (PyObject_RichCompareBool _ key <? 0) eqn:E1;
    [injection V as <-; unfold DKIX_ERROR in Hix; lia|].
  destruct (0 <? PyObject_RichCompareBool _ key) eqn:E2; [|discriminate].
  injection V as <-. split.
  - apply (ok_cells _ Hok).
  - apply Z.ltb_lt. exact E2.
Qed.

(** The probe sequence of a lookup in a well-formed table: its mask, its
    first cell and its steps stay within the table. *)
Lemma probe_in_table (keys : PyDictKeysObject) (hash : Z) :
  keys_ok keys ->
  let mask := Mach.size_t (DK_MASK keys) in
  0 <= Z.land (Mach.size_t hash) mask < dk_size keys /\
  forall p c, 0 <= probe_next mask p c < dk_size keys.
Proof.
  intros Hok mask. destruct (ok_size _ Hok) as (k & Hk & Hsize).
  assert (Hmask : mask = 2 ^ Z.of_nat k - 1).
  { unfold mask, DK_MASK. rewrite Hsize. apply mask_of_size. lia. }
  rewrite Hmask, Hsize. split.
  - rewrite land_mask_l by lia. apply Z.mod_pos_bound. apply Z.pow_pos_nonneg; lia.
  - intros p c. apply probe_next_range. lia.
Qed.

(** After a hit of [lookdict] at slot [ix], [lookdict_index] finds the cell
    of the hash index that holds [ix]. *)
Lemma lookdict_index_after_lookdict (mp : PyDictObject) (key : PyObject)
    (hash ix : Z) :
  keys_ok (ma_keys mp) ->
  lookdict mp key hash = Some ix -> 0 <= ix ->
  exists hashpos,
    lookdict_index (ma_keys mp) hash ix = Some hashpos /\
    0 <= hashpos < dk_size (ma_keys mp) /\
    dk_get_index (ma_keys mp) hashpos = ix.
Proof.
  intros Hok H Hix. unfold lookdict in H. unfold lookdict_index.
  destruct (probe_in_table (ma_keys mp) hash Hok) as [Hfirst Hnext].
  apply (probe_search_transfer _ (lookdict_index_visit (ma_keys mp) ix)
           (fun c => 0 <= c < dk_size (ma_keys mp))
           (fun r => 0 <= r < dk_size (ma_keys mp) /\
                     dk_get_index (ma_keys mp) r = ix) _ _ _ _ _ H Hfirst Hnext).
  - intros c Hc V. exists c. unfold lookdict_index_visit, lookdict_visit in *.
    destruct (dk_get_index (ma_keys mp) c =? DKIX_EMPTY);
      [injection V as <-; unfold DKIX_EMPTY in Hix; lia|].
    destruct (0 <=? dk_get_index (ma_keys mp) c); [|discriminate].
    destruct (PyObject_RichCompareBool _ key <? 0);
      [injection V as <-; unfold DKIX_ERROR in Hix; lia|].
    destruct (0 <? PyObject_RichCompareBool _ key); [|discriminate].
    injection V as <-. rewrite Z.eqb_refl. auto.
  - intros c r2 Hc V1 V2. unfold lookdict_index_visit, lookdict_visit in *.
    destruct (dk_get_index (ma_keys mp) c =? ix) eqn:E.
    + apply Z.eqb_eq in E. injection V2 as <-. auto.
    + destruct (dk_get_index (ma_keys mp) c =? DKIX_EMPTY); discriminate.
Qed.

(** The same after a hit of [lookdict_ident]. *)
Lemma lookdict_index_after_ident (keys : PyDictKeysObject) (key : PyObject)
    (hash ix : Z) :
  keys_ok keys ->
  lookdict_ident keys key hash = Some ix -> 0 <= ix ->
  exists hashpos,
    lookdict_index keys hash ix = Some hashpos /\
    0 <= hashpos < dk_size keys /\
    dk_get_index keys hashpos = ix.
Proof.
  intros Hok H Hix. unfold lookdict_ident in H.
  rewrite lookdict_ident_loop_search in H. unfold lookdict_index.
  destruct (probe_in_table keys hash Hok) as [Hfirst Hnext].
  apply (probe_search_transfer _ (lookdict_index_visit keys ix)
           (fun c => 0 <= c < dk_size keys)
           (fun r => 0 <= r < dk_size keys /\ dk_get_index keys r = ix)
           _ _ _ _ _ H Hfirst Hnext).
  - intros c Hc V. exists c.
    apply lookdict_ident_visit_answer in V as [V _].
    unfold lookdict_index_visit. rewrite V, Z.eqb_refl. auto.
  - intros c r2 Hc V1 V2. apply lookdict_ident_visit_none in V1 as [V1 _].
    unfold lookdict_index_visit in V2.
    destruct (dk_get_index keys c =? ix) eqn:E.
    + apply Z.eqb_eq in E. injection V2 as <-. auto.
    + apply Z.eqb_neq in V1. rewrite V1 in V2. discriminate.
Qed.

End Lookups.

(** ** Moving an entry *)

Lemma pow2_below (k : nat) (b : nat) (bound : Z) :
  2 ^ Z.of_nat k <= bound -> bound < 2 ^ Z.of_nat b -> (k < b)%nat.
Proof.
  intros H1 H2. destruct (Nat.lt_ge_cases k b) as [Hlt|Hge]; [exact Hlt|].
  assert (2 ^ Z.of_nat b <= 2 ^ Z.of_nat k) by (apply Z.pow_le_mono_r; lia). lia.
Qed.

(** An index below [dk_size] fits the cells of the hash index. *)
Lemma dk_set_index_fits (keys : PyDictKeysObject) (i ix : Z) :
  keys_ok keys -> DKIX_DUMMY <= ix < dk_size keys ->
  dk_indices (dk_set_index keys i ix) = aset (dk_indices keys) i ix.
Proof.
  intros Hok Hix. destruct (ok_size _ Hok) as (k & Hk & Hsize).
  unfold dk_set_index, DK_SIZE, DKIX_DUMMY in *. simpl. f_equal.
  assert (P : forall a b : nat, (a <= b)%nat -> 2 ^ Z.of_nat a <= 2 ^ Z.of_nat b)
    by (intros; apply Z.pow_le_mono_r; lia).
  destruct (dk_size keys <=? 255) eqn:E1.
  { apply Z.leb_le in E1. apply sint_small; [lia|].
    assert (k < 8)%nat by (apply (pow2_below k 8 255); [lia | reflexivity]).
    specialize (P k 7%nat ltac:(lia)). change (2 ^ Z.of_nat 7) with 128 in P.
    change (2 ^ (8 - 1)) with 128. lia. }
  destruct (dk_size keys <=? 65535) eqn:E2.
  { apply Z.leb_le in E2. apply sint_small; [lia|].
    assert (k < 16)%nat by (apply (pow2_below k 16 65535); [lia | reflexivity]).
    specialize (P k 15%nat ltac:(lia)). change (2 ^ Z.of_nat 15) with 32768 in P.
    change (2 ^ (16 - 1)) with 32768. lia. }
  destruct (4294967295 <? dk_size keys) eqn:E3.
  { apply sint_small; [lia|].
    specialize (P k 62%nat ltac:(lia)).
    change (2 ^ Z.of_nat 62) with 4611686018427387904 in P.
    change (2 ^ (64 - 1)) with 9223372036854775808. lia. }
  apply Z.ltb_ge in E3. apply sint_small; [lia|].
  assert (k < 32)%nat by (apply (pow2_below k 32 4294967295); [lia | reflexivity]).
  specialize (P k 31%nat ltac:(lia)). change (2 ^ Z.of_nat 31) with 2147483648 in P.
  change (2 ^ (32 - 1)) with 2147483648. lia.
Qed.

Lemma relocate_entry_relocated (keys : PyDictKeysObject) (hashpos ix dst : Z) :
  keys_ok keys ->
  0 <= hashpos < dk_size keys ->
  0 <= ix < Z.of_nat (length (dk_entries keys)) ->
  0 <= dst < Z.of_nat (length (dk_entries keys)) ->
  ix <> dst ->
  relocated keys (relocate_entry keys hashpos ix dst) hashpos ix dst.
Proof.
  intros Hok Hh Hix Hdst Hne.
  assert (Hcap := ok_capacity _ Hok). assert (Hlen := ok_indices _ Hok).
  assert (Hidx : dk_indices (relocate_entry keys hashpos ix dst)
                 = aset (dk_indices keys) hashpos dst).
  { unfold relocate_entry. simpl. apply dk_set_index_fits; [exact Hok|].
    unfold DKIX_DUMMY. lia. }
  assert (Hent : dk_entries (relocate_entry keys hashpos ix dst)
                 = aset (aset (dk_entries keys) dst (DK_ENTRIES keys ix)) ix entry_zero)
    by reflexivity.
  split; unfold DK_ENTRIES, dk_get_index; rewrite ?Hent, ?Hidx; try reflexivity.
  - rewrite aget_aset_other by lia. apply aget_aset_same. lia.
  - apply aget_aset_same. rewrite length_aset. lia.
  - apply aget_aset_same. lia.
  - intros j Hj1 Hj2. rewrite !aget_aset_other by lia. reflexivity.
  - intros c Hc. rewrite aget_aset_other by lia. reflexivity.
  - rewrite !length_aset. reflexivity.
  - rewrite length_aset. reflexivity.
Qed.

(** ** [OrderedDict.move_to_end] *)

Section MoveToEnd.
Context {rt : Runtime}.

(** The calls that get past the lookup. *)
Lemma move_to_end_found (self : PyODictObject) (key : PyObject) (last : bool)
    (ix : Z) :
  ma_used (od_dict self) <> 0 -> PyObject_Hash key <> -1 ->
  lookdict (od_dict self) key (PyObject_Hash key) = Some ix -> 0 <= ix ->
  OrderedDict_move_to_end_impl self key last =
  let found := me_key (DK_ENTRIES (ma_keys (od_dict self)) ix) in
  if last then move_to_end_last self found (PyObject_Hash key) ix
  else move_to_end_first self found (PyObject_Hash key) ix.
Proof.
  intros Hused Hhash Hlook Hix. unfold OrderedDict_move_to_end_impl, _odict_EMPTY.
  rewrite (proj2 (Z.eqb_neq _ _) Hused), (proj2 (Z.eqb_neq _ _) Hhash), Hlook.
  unfold DKIX_EMPTY, DKIX_ERROR.
  rewrite (proj2 (Z.eqb_neq ix (-1))), (proj2 (Z.eqb_neq ix (-3))) by lia.
  reflexivity.
Qed.

Lemma move_to_end_last_in_place (self : PyODictObject) (found : PyObject)
    (hash ix hashpos : Z) :
  let mp := od_dict self in
  ix <> dk_nentries (ma_keys mp) - 1 -> dk_usable (ma_keys mp) <> 0 ->
  lookdict_index (ma_keys mp) hash ix = Some hashpos ->
  move_to_end_last self found hash ix =
  Ok {| od_dict :=
          {| ma_used := ma_used mp;
             ma_keys := relocate_entry (ma_keys mp) hashpos ix
                          (dk_nentries (ma_keys mp));
             ma_offset := if ix =? ma_offset mp then ma_offset mp + 1
                          else ma_offset mp |};
        od_state := Mach.size_t (od_state self + 1) |}.
Proof.
  intros mp Hix Husable Hpos. unfold move_to_end_last. fold mp.
  rewrite (proj2 (Z.eqb_neq _ _) Hix), (proj2 (Z.eqb_neq _ _) Husable), Hpos.
  reflexivity.
Qed.

Lemma move_to_end_first_in_place (self : PyODictObject) (found : PyObject)
    (hash ix hashpos : Z) :
  let mp := od_dict self in
  ix <> ma_offset mp -> ma_offset mp <> 0 ->
  lookdict_index (ma_keys mp) hash ix = Some hashpos ->
  move_to_end_first self found hash ix =
  Ok {| od_dict :=
          {| ma_used := ma_used mp;
             ma_keys := relocate_entry (ma_keys mp) hashpos ix (ma_offset mp - 1);
             ma_offset := ma_offset mp - 1 |};
        od_state := Mach.size_t (od_state self + 1) |}.
Proof.
  intros mp Hix Hoff Hpos. unfold move_to_end_first. fold mp.
  rewrite (proj2 (Z.eqb_neq _ _) Hix), (proj2 (Z.eqb_neq _ _) Hoff), Hpos.
  reflexivity.
Qed.

(** C3: [move_to_end(key, last=True)] on a present key whose entry is not at
    slot [dk_nentries - 1], with usable capacity left: the entry is copied to
    slot [n = dk_nentries], its old slot is zeroed, the cell of the hash index
    found on the probe sequence of the hash refers to slot [n], [dk_nentries]
    becomes [n + 1], and the begin offset advances by one exactly when the
    vacated slot was the begin offset. *)
Theorem move_to_end_last_relocates (self : PyODictObject) (key : PyObject) (ix : Z) :
  let mp := od_dict self in
  let keys := ma_keys mp in
  let n := dk_nentries keys in
  keys_wf keys = true ->
  ma_used mp <> 0 -> PyObject_Hash key <> -1 ->
  lookdict mp key (PyObject_Hash key) = Some ix -> 0 <= ix ->
  ix <> n - 1 -> 0 < dk_usable keys ->
  exists hashpos od',
    OrderedDict_move_to_end_impl self key true = Ok od' /\
    lookdict_index keys (PyObject_Hash key) ix = Some hashpos /\
    dk_get_index keys hashpos = ix /\
    relocated keys (ma_keys (od_dict od')) hashpos ix n /\
    ma_offset (od_dict od') =
      (if ix =? ma_offset mp then ma_offset mp + 1 else ma_offset mp).
Proof.
  cbv zeta. intros Hwf Hused Hhash Hlook Hix Hlast Husable.
  apply keys_wf_ok in Hwf.
  destruct (lookdict_index_after_lookdict _ key _ ix Hwf Hlook Hix)
    as (hashpos & Hpos & Hrange & Hcell).
  destruct (lookdict_hit_range _ key _ ix Hwf Hlook Hix) as [Hlt _].
  assert (Hu := ok_usable _ Hwf). assert (Hn := ok_nentries _ Hwf).
  eexists hashpos, _. split.
  - rewrite (move_to_end_found self key true ix Hused Hhash Hlook Hix).
    apply move_to_end_last_in_place; [exact Hlast | lia | exact Hpos].
  - split; [exact Hpos|]. split; [exact Hcell|]. split; [|reflexivity].
    simpl. apply relocate_entry_relocated; try assumption; lia.
Qed.

End MoveToEnd.

Lemma move_to_end_last_relocates_witness :
  exists hashpos od',
    OrderedDict_move_to_end_impl (rt := Sample.runtime) Sample.od3 10 true = Ok od' /\
    lookdict_index Sample.keys3 10 0 = Some hashpos /\
    dk_get_index Sample.keys3 hashpos = 0 /\
    relocated Sample.keys3 (ma_keys (od_dict od')) hashpos 0 3 /\
    ma_offset (od_dict od') = 1.
Proof.
  apply (move_to_end_last_relocates (rt := Sample.runtime) Sample.od3 10 0).
  - reflexivity.
  - simpl. lia.
  - simpl. lia.
  - reflexivity.
  - lia.
  - simpl. lia.
  - simpl. lia.
Defined.

(** ** Windows of the entry array *)

Lemma slots_between_split (b m n : Z) (ep : list PyDictKeyEntry) :
  0 <= b <= m -> m <= n ->
  slots_between b n ep = slots_between b m ep ++ slots_between m n ep.
Proof.
  intros Hb Hm. unfold slots_between.
  replace (Z.to_nat (n - b)) with (Z.to_nat (m - b) + Z.to_nat (n - m))%nat by lia.
  rewrite <- take_take_drop, drop_drop. do 3 f_equal. lia.
Qed.

Lemma slots_between_empty (b n : Z) (ep : list PyDictKeyEntry) :
  n <= b -> slots_between b n ep = [].
Proof.
  intros H. unfold slots_between.
  replace (Z.to_nat (n - b)) with 0%nat by lia. apply take_0.
Qed.

Lemma slots_between_one (i : Z) (ep : list PyDictKeyEntry) :
  0 <= i < Z.of_nat (length ep) ->
  slots_between i (i + 1) ep = [aget entry_zero ep i].
Proof.
  intros Hi. unfold slots_between, aget.
  destruct (i <? 0) eqn:E; [lia|].
  destruct (ep !! Z.to_nat i) as [x|] eqn:L.
  - rewrite (drop_S _ _ _ L). replace (Z.to_nat (i + 1 - i)) with 1%nat by lia.
    reflexivity.
  - apply lookup_ge_None in L. lia.
Qed.

Lemma slots_between_beyond (b n : Z) (ep : list PyDictKeyEntry) :
  Z.of_nat (length ep) <= b -> slots_between b n ep = [].
Proof.
  intros H. unfold slots_between. rewrite drop_ge by lia. apply take_nil.
Qed.

Lemma slots_between_aset_out (b n j : Z) (x : PyDictKeyEntry)
    (ep : list PyDictKeyEntry) :
  0 <= b -> j < b \/ n <= j ->
  slots_between b n (aset ep j x) = slots_between b n ep.
Proof.
  intros Hb Hj. unfold slots_between, aset.
  destruct (j <? 0) eqn:E; [reflexivity|]. apply Z.ltb_ge in E.
  destruct (Z_lt_dec j b) as [Hlt|Hge].
  - rewrite drop_insert_lt by lia. reflexivity.
  - rewrite drop_insert_ge by lia. apply take_insert_ge. lia.
Qed.

Lemma slots_between_length (b n : Z) (ep : list PyDictKeyEntry) :
  (length (slots_between b n ep) <= length ep)%nat.
Proof. unfold slots_between. rewrite length_take, length_drop. lia. Qed.

Lemma elem_of_slots_between (b n i : Z) (ep : list PyDictKeyEntry) :
  0 <= b <= i -> i < n -> i < Z.of_nat (length ep) ->
  In (aget entry_zero ep i) (slots_between b n ep).
Proof.
  intros Hb Hn Hlen.
  rewrite (slots_between_split b i n), (slots_between_split i (i + 1) n) by lia.
  rewrite slots_between_one by lia. apply in_or_app. right. left. reflexivity.
Qed.

(** The slots of a window are slots of the array. *)
Lemma slots_between_lookup (b n : Z) (ep : list PyDictKeyEntry) (j : nat)
    (e : PyDictKeyEntry) :
  0 <= b -> slots_between b n ep !! j = Some e ->
  aget entry_zero ep (b + Z.of_nat j) = e /\
  b + Z.of_nat j < n /\ b + Z.of_nat j < Z.of_nat (length ep).
Proof.
  intros Hb H. unfold slots_between in H.
  apply lookup_take_Some in H as [H Hj]. rewrite lookup_drop in H.
  assert (Hlt := lookup_lt_Some _ _ _ H).
  unfold aget. destruct (b + Z.of_nat j <? 0) eqn:E; [lia|].
  replace (Z.to_nat (b + Z.of_nat j)) with (Z.to_nat b + j)%nat by lia.
  rewrite H. simpl. split; [reflexivity | lia].
Qed.

Lemma forallb_take_aget {A : Type} (f : A -> bool) (d : A) (l : list A) (k j : Z) :
  forallb f (take (Z.to_nat k) l) = true -> f d = true -> j < k ->
  f (aget d l j) = true.
Proof.
  intros Hall Hd Hj. unfold aget. destruct (j <? 0) eqn:E; [exact Hd|].
  destruct (l !! Z.to_nat j) as [x|] eqn:L; [|exact Hd]. simpl.
  rewrite forallb_forall in Hall. apply Hall.
  apply list_elem_of_In, elem_of_take. exists (Z.to_nat j). split; [exact L | lia].
Qed.

Lemma forallb_drop_aget {A : Type} (f : A -> bool) (d : A) (l : list A) (k j : Z) :
  forallb f (drop (Z.to_nat k) l) = true -> f d = true -> 0 <= k <= j ->
  f (aget d l j) = true.
Proof.
  intros Hall Hd Hj. unfold aget. destruct (j <? 0) eqn:E; [exact Hd|].
  destruct (l !! Z.to_nat j) as [x|] eqn:L; [|exact Hd]. simpl.
  rewrite forallb_forall in Hall. apply Hall.
  apply list_elem_of_In, (list_elem_of_lookup_2 _ (Z.to_nat j - Z.to_nat k)).
  rewrite lookup_drop. rewrite <- L. f_equal. lia.
Qed.

Lemma dict_wf_ok (mp : PyDictObject) : dict_wf mp = true -> dict_ok mp.
Proof.
  unfold dict_wf. rewrite !andb_true_iff.
  intros [[[[[[Hk Ho1] Ho2] Hb] Ha] Hu] Hr].
  apply Z.leb_le in Ho1, Ho2. apply Z.eqb_eq in Hu.
  assert (Hok := keys_wf_ok _ Hk).
  split; try assumption.
  - lia.
  - intros j Hj. unfold DK_ENTRIES. apply (forallb_take_aget _ _ _ (ma_offset mp)); auto.
  - intros j Hj. unfold DK_ENTRIES.
    apply (forallb_drop_aget _ _ _ (dk_nentries (ma_keys mp))); auto.
    split; [apply (ok_nentries _ Hok) | exact Hj].
  - intros c Hc.
    destruct (Z_lt_dec c 0) as [Hneg|Hnn];
      [unfold dk_get_index in Hc; rewrite aget_out_of_range in Hc by lia;
       unfold DKIX_EMPTY in Hc; lia|].
    destruct (Z_lt_dec c (Z.of_nat (length (dk_indices (ma_keys mp))))) as [Hlt|Hge];
      [|unfold dk_get_index in Hc; rewrite aget_out_of_range in Hc by lia;
        unfold DKIX_EMPTY in Hc; lia].
    rewrite forallb_forall in Hr.
    specialize (Hr _ (aget_in_range DKIX_EMPTY (dk_indices (ma_keys mp)) c ltac:(lia))).
    fold (dk_get_index (ma_keys mp) c) in Hr.
    apply orb_prop in Hr as [Hr|Hr]; [apply Z.ltb_lt in Hr; lia|].
    apply andb_prop in Hr as [H1 H2]. apply Z.leb_le in H1. auto.
Qed.

(** ** The items of a dict *)

Lemma live_entries_window (mp : PyDictObject) :
  live_entries mp =
  List.filter is_live
    (slots_between (ma_offset mp) (dk_nentries (ma_keys mp)) (dk_entries (ma_keys mp))).
Proof. reflexivity. Qed.

Lemma is_free_not_live (e : PyDictKeyEntry) : is_free e = true -> is_live e = false.
Proof.
  unfold is_free, is_live. intros H. apply andb_prop in H as [_ H]. rewrite H.
  reflexivity.
Qed.

(** A slot at or after [dk_nentries] adds no live entry to a window. *)
Lemma filter_live_free_slot (ep : list PyDictKeyEntry) (i : Z) :
  0 <= i -> is_free (aget entry_zero ep i) = true ->
  List.filter is_live (slots_between i (i + 1) ep) = [].
Proof.
  intros Hi Hfree. destruct (Z_lt_dec i (Z.of_nat (length ep))) as [Hlt|Hge].
  - rewrite slots_between_one by lia. cbn [List.filter].
    rewrite (is_free_not_live _ Hfree). reflexivity.
  - rewrite slots_between_beyond by lia. reflexivity.
Qed.

(** Moving the live entry of slot [ix] to the free slot [n = dk_nentries]
    moves it to the end of the live entries. *)
Lemma live_entries_moved_last (ep : list PyDictKeyEntry) (b n ix : Z) :
  0 <= b <= ix -> ix < n -> n < Z.of_nat (length ep) ->
  is_live (aget entry_zero ep ix) = true ->
  let e := aget entry_zero ep ix in
  let ep' := aset (aset ep n e) ix entry_zero in
  let b' := if ix =? b then b + 1 else b in
  List.filter is_live (slots_between b n ep) =
    List.filter is_live (slots_between b ix ep) ++ [e] ++
    List.filter is_live (slots_between (ix + 1) n ep) /\
  List.filter is_live (slots_between b' (n + 1) ep') =
    List.filter is_live (slots_between b ix ep) ++
    List.filter is_live (slots_between (ix + 1) n ep) ++ [e].
Proof.
  intros Hb Hix Hn Hlive e ep' b'.
  assert (He : is_live e = true) by exact Hlive. split.
  - rewrite (slots_between_split b ix n), (slots_between_split ix (ix + 1) n) by lia.
    rewrite slots_between_one by lia. rewrite !List.filter_app. cbn [List.filter app].
    fold e; rewrite He. reflexivity.
  - assert (Hn' : slots_between n (n + 1) ep' = [e]).
    { rewrite slots_between_one by (unfold ep'; rewrite !length_aset; lia).
      unfold ep'. rewrite aget_aset_other by lia.
      rewrite aget_aset_same by lia. reflexivity. }
    assert (Hmid : slots_between (ix + 1) n ep' = slots_between (ix + 1) n ep).
    { unfold ep'. rewrite !slots_between_aset_out by lia. reflexivity. }
    assert (Hix' : slots_between ix (ix + 1) ep' = [entry_zero]).
    { rewrite slots_between_one by (unfold ep'; rewrite !length_aset; lia).
      unfold ep'. rewrite aget_aset_same by (rewrite length_aset; lia). reflexivity. }
    assert (Hpre : slots_between b ix ep' = slots_between b ix ep).
    { unfold ep'. rewrite !slots_between_aset_out by lia. reflexivity. }
    unfold b'. destruct (ix =? b) eqn:E.
    + apply Z.eqb_eq in E. subst ix.
      rewrite (slots_between_empty b b) by lia.
      rewrite (slots_between_split (b + 1) n (n + 1)) by lia.
      rewrite Hn', Hmid, List.filter_app. cbn [List.filter app]. fold e; rewrite He. reflexivity.
    + apply Z.eqb_neq in E.
      rewrite (slots_between_split b ix (n + 1)),
        (slots_between_split ix (ix + 1) (n + 1)),
        (slots_between_split (ix + 1) n (n + 1)) by lia.
      rewrite Hn', Hmid, Hix', Hpre, !List.filter_app. cbn [List.filter app].
      fold e; rewrite He. reflexivity.
Qed.

(** Moving the live entry of slot [ix] to the free slot [b - 1] before the
    begin offset moves it to the front of the live entries; the slot
    [dk_nentries] that the counter now covers holds nothing. *)
Lemma live_entries_moved_first (ep : list PyDictKeyEntry) (b n ix : Z) :
  0 < b -> b <= ix -> ix < n -> ix < Z.of_nat (length ep) ->
  is_live (aget entry_zero ep ix) = true ->
  is_free (aget entry_zero ep n) = true ->
  let e := aget entry_zero ep ix in
  let ep' := aset (aset ep (b - 1) e) ix entry_zero in
  List.filter is_live (slots_between b n ep) =
    List.filter is_live (slots_between b ix ep) ++ [e] ++
    List.filter is_live (slots_between (ix + 1) n ep) /\
  List.filter is_live (slots_between (b - 1) (n + 1) ep') =
    [e] ++ List.filter is_live (slots_between b ix ep) ++
    List.filter is_live (slots_between (ix + 1) n ep).
Proof.
  intros Hb Hbix Hix Hlen Hlive Hfree e ep'.
  assert (He : is_live e = true) by exact Hlive. split.
  - rewrite (slots_between_split b ix n), (slots_between_split ix (ix + 1) n) by lia.
    rewrite slots_between_one by lia. rewrite !List.filter_app. cbn [List.filter app].
    fold e; rewrite He. reflexivity.
  - assert (Hlen' : length ep' = length ep) by (unfold ep'; rewrite !length_aset; lia).
    assert (Hfirst : slots_between (b - 1) b ep' = [e]).
    { replace b with (b - 1 + 1) at 2 by lia.
      rewrite slots_between_one by lia.
      unfold ep'. rewrite aget_aset_other by lia.
      rewrite aget_aset_same by lia. reflexivity. }
    assert (Hpre : slots_between b ix ep' = slots_between b ix ep).
    { unfold ep'. rewrite !slots_between_aset_out by lia. reflexivity. }
    assert (Hix' : slots_between ix (ix + 1) ep' = [entry_zero]).
    { rewrite slots_between_one by lia.
      unfold ep'. rewrite aget_aset_same by (rewrite length_aset; lia). reflexivity. }
    assert (Hmid : slots_between (ix + 1) n ep' = slots_between (ix + 1) n ep).
    { unfold ep'. rewrite !slots_between_aset_out by lia. reflexivity. }
    assert (Hn' : List.filter is_live (slots_between n (n + 1) ep') = []).
    { apply filter_live_free_slot; [lia|].
      unfold ep'. rewrite !aget_aset_other by lia. exact Hfree. }
    rewrite (slots_between_split (b - 1) b (n + 1)),
      (slots_between_split b ix (n + 1)),
      (slots_between_split ix (ix + 1) (n + 1)),
      (slots_between_split (ix + 1) n (n + 1)) by lia.
    rewrite Hfirst, Hpre, Hix', Hmid, !List.filter_app, Hn'. cbn [List.filter app].
    fold e; rewrite He, app_nil_r. reflexivity.
Qed.

(** ** The capacity of a resized table *)

Lemma resize_capacity_pow2 (minused : Z) :
  exists k : nat, (3 <= k)%nat /\ resize_capacity minused = 2 ^ Z.of_nat k.
Proof.
  unfold resize_capacity.
  assert (H : Z.log2_up 8 <= Z.log2_up (Z.max 8 minused))
    by (apply Z.log2_up_le_mono; lia).
  change (Z.log2_up 8) with 3 in H.
  exists (Z.to_nat (Z.log2_up (Z.max 8 minused))). split; [lia|].
  rewrite Z2Nat.id by lia. reflexivity.
Qed.

Lemma resize_capacity_ge (minused : Z) :
  8 <= resize_capacity minused /\ minused <= resize_capacity minused.
Proof.
  unfold resize_capacity.
  destruct (Z.log2_up_spec (Z.max 8 minused) ltac:(lia)) as [_ H]. lia.
Qed.

(** It is the least power of two that is at least 8 and at least [minused]. *)
Lemma resize_capacity_least (minused : Z) (j : Z) :
  0 <= j -> 8 <= 2 ^ j -> minused <= 2 ^ j -> resize_capacity minused <= 2 ^ j.
Proof.
  intros Hj H8 Hm. unfold resize_capacity. apply Z.pow_le_mono_r; [lia|].
  apply Z.log2_up_le_pow2; lia.
Qed.

(** ** Counting the EMPTY cells *)

Lemma count_empty_replicate (n : nat) : count_empty (replicate n DKIX_EMPTY) = n.
Proof. induction n as [|n IH]; [reflexivity|]. unfold count_empty in *. simpl. lia. Qed.

Lemma count_empty_insert (cells : list Z) (i : nat) (v : Z) :
  cells !! i = Some DKIX_EMPTY -> v <> DKIX_EMPTY ->
  (count_empty (<[i := v]> cells) + 1 = count_empty cells)%nat.
Proof.
  revert i. induction cells as [|c cells IH]; intros i Hc Hv; [discriminate|].
  destruct i as [|i].
  - simpl in Hc. injection Hc as ->. unfold count_empty. simpl.
    rewrite (proj2 (Z.eqb_neq v DKIX_EMPTY) Hv). simpl. lia.
  - simpl in Hc. specialize (IH i Hc Hv). unfold count_empty in *. simpl.
    destruct (c =? DKIX_EMPTY); simpl; lia.
Qed.

Lemma count_empty_exists (cells : list Z) :
  (0 < count_empty cells)%nat -> exists i : nat, cells !! i = Some DKIX_EMPTY.
Proof.
  induction cells as [|c cells IH]; unfold count_empty in *; simpl; [lia|].
  destruct (c =? DKIX_EMPTY) eqn:E.
  - intros _. exists 0%nat. apply Z.eqb_eq in E. subst c. reflexivity.
  - intros H. destruct (IH H) as [i Hi]. exists (S i). exact Hi.
Qed.

Lemma count_empty_le (cells : list Z) : (count_empty cells <= length cells)%nat.
Proof. unfold count_empty. apply List.filter_length_le. Qed.

(** ** Rebuilding the hash index *)

Lemma aget_lookup {A : Type} (d : A) (l : list A) (i : Z) :
  0 <= i < Z.of_nat (length l) -> l !! Z.to_nat i = Some (aget d l i).
Proof.
  intros Hi. unfold aget. destruct (i <? 0) eqn:E; [lia|].
  destruct (l !! Z.to_nat i) as [x|] eqn:L; [reflexivity|].
  apply lookup_ge_None in L. lia.
Qed.

(** A probe loop over a well-formed table leaves when some cell of the table
    makes [visit] answer. *)
Lemma probe_search_total_table (visit : Z -> option Z) (keys : PyDictKeysObject)
    (hash c : Z) :
  keys_ok keys -> 0 <= c < dk_size keys -> is_Some (visit c) ->
  is_Some
    (probe_search visit (probe_fuel keys) (Mach.size_t (DK_MASK keys))
       (Mach.size_t hash)
       (Z.land (Mach.size_t hash) (Mach.size_t (DK_MASK keys)))).
Proof.
  intros Hok Hc Hv. destruct (ok_size _ Hok) as (k & Hk & Hsize).
  assert (Hmask : Mach.size_t (DK_MASK keys) = 2 ^ Z.of_nat k - 1).
  { unfold DK_MASK. rewrite Hsize. apply mask_of_size. lia. }
  rewrite Hmask, (probe_fuel_pow2 keys k Hsize).
  apply (probe_search_total visit k _ _ _ c); try lia.
  - apply size_t_range.
  - rewrite land_mask_l by lia. apply Z.mod_pos_bound. apply Z.pow_pos_nonneg; lia.
  - exact Hv.
Qed.

Lemma find_empty_slot_found (keys : PyDictKeysObject) (hash i : Z) :
  keys_ok keys ->
  find_empty_slot keys hash = Some i ->
  0 <= i < dk_size keys /\ dk_get_index keys i = DKIX_EMPTY /\
  forall ix, reachable (dk_set_index keys i ix) hash
               (dk_get_index (dk_set_index keys i ix) i).
Proof.
  intros Hok H. unfold find_empty_slot in H.
  destruct (probe_in_table keys hash Hok) as [Hfirst Hnext].
  generalize H. rewrite probe_search_first. intros (n & Hn & Hv & Hbefore).
  unfold find_empty_slot_visit in Hv.
  destruct (dk_get_index keys (probe_cell n _ _ _) =? DKIX_EMPTY) eqn:E; [|discriminate].
  injection Hv as Hi. apply Z.eqb_eq in E. rewrite Hi in E.
  assert (Hrange : 0 <= i < dk_size keys).
  { apply probe_search_in_table in H as (c & Hc & V); [|exact Hok].
    unfold find_empty_slot_visit in V.
    destruct (dk_get_index keys c =? DKIX_EMPTY); [|discriminate].
    injection V as <-. exact Hc. }
  split; [exact Hrange|]. split; [exact E|].
  intros ix. exists n. split; [exact Hn|]. split.
  - unfold DK_MASK. simpl. fold (DK_MASK keys). rewrite Hi. reflexivity.
  - intros m' Hm'. specialize (Hbefore m' Hm'). unfold find_empty_slot_visit in Hbefore.
    unfold DK_MASK. simpl. fold (DK_MASK keys).
    destruct (dk_get_index keys (probe_cell m' _ _ _) =? DKIX_EMPTY) eqn:E';
      [discriminate|].
    apply Z.eqb_neq in E'.
    unfold dk_get_index at 1. simpl.
    rewrite aget_aset_other; [exact E'|].
    intros Heq. rewrite <- Heq in E'. contradiction.
Qed.

Lemma find_empty_slot_total (keys : PyDictKeysObject) (hash : Z) :
  keys_ok keys -> is_Some (find_empty_slot keys hash).
Proof.
  intros Hok. destruct (ok_empty _ Hok) as (c & Hc & Hempty).
  apply (probe_search_total_table _ keys hash c Hok Hc).
  unfold find_empty_slot_visit. rewrite Hempty. simpl. eauto.
Qed.

(** Filling an EMPTY cell of a well-formed table that has another EMPTY cell
    leaves a well-formed table. *)
Lemma dk_set_index_ok (keys : PyDictKeysObject) (i ix : Z) :
  keys_ok keys -> 0 <= i < dk_size keys ->
  0 <= ix < dk_nentries keys -> dk_nentries keys <= dk_size keys ->
  dk_get_index keys i = DKIX_EMPTY ->
  (1 < count_empty (dk_indices keys))%nat ->
  keys_ok (dk_set_index keys i ix) /\
  dk_indices (dk_set_index keys i ix) = aset (dk_indices keys) i ix /\
  (count_empty (dk_indices (dk_set_index keys i ix)) + 1
   = count_empty (dk_indices keys))%nat.
Proof.
  intros Hok Hi Hix Hn Hempty Hcount.
  assert (Hfit : dk_indices (dk_set_index keys i ix) = aset (dk_indices keys) i ix).
  { apply dk_set_index_fits; [exact Hok | unfold DKIX_DUMMY; lia]. }
  assert (Hlen := ok_indices _ Hok).
  assert (Hcnt : (count_empty (dk_indices (dk_set_index keys i ix)) + 1
                  = count_empty (dk_indices keys))%nat).
  { rewrite Hfit. unfold aset. destruct (i <? 0) eqn:E; [lia|].
    apply count_empty_insert.
    - rewrite (aget_lookup DKIX_EMPTY) by lia. f_equal. exact Hempty.
    - unfold DKIX_EMPTY. lia. }
  split; [|split; [exact Hfit | exact Hcnt]].
  split.
  - exact (ok_size _ Hok).
  - rewrite Hfit, length_aset. exact Hlen.
  - exact (ok_capacity _ Hok).
  - exact (ok_nentries _ Hok).
  - exact (ok_room _ Hok).
  - exact (ok_usable _ Hok).
  - intros c. unfold dk_get_index. rewrite Hfit.
    destruct (Z.eq_dec i c) as [<-|Hne].
    + rewrite aget_aset_same by lia. unfold DKIX_DUMMY.
      change (dk_nentries (dk_set_index keys i ix)) with (dk_nentries keys). lia.
    + rewrite aget_aset_other by exact Hne. apply (ok_cells _ Hok).
  - destruct (count_empty_exists (dk_indices (dk_set_index keys i ix)) ltac:(lia))
      as [j Hj].
    assert (Hjlt := lookup_lt_Some _ _ _ Hj).
    rewrite Hfit, length_aset in Hjlt.
    exists (Z.of_nat j). split; [change (dk_size (dk_set_index keys i ix)) with (dk_size keys); lia|].
    unfold dk_get_index, aget. destruct (Z.of_nat j <? 0) eqn:E; [lia|].
    rewrite Nat2Z.id, Hj. reflexivity.
Qed.

Lemma reachable_preserved (keys keys' : PyDictKeysObject) (hash ix : Z) :
  dk_size keys' = dk_size keys -> ix <> DKIX_EMPTY ->
  (forall c, dk_get_index keys c <> DKIX_EMPTY ->
             dk_get_index keys' c = dk_get_index keys c) ->
  reachable keys hash ix -> reachable keys' hash ix.
Proof.
  intros Hsize Hix Hsame (m & Hm & Hcell & Hbefore).
  unfold reachable, probe_fuel, DK_MASK in *. rewrite Hsize.
  exists m. split; [exact Hm|]. split.
  - rewrite Hsame; [exact Hcell | rewrite Hcell; exact Hix].
  - intros m' Hm'. specialize (Hbefore m' Hm'). rewrite Hsame; exact Hbefore.
Qed.

(** [build_indices] on a well-formed table with more EMPTY cells than there
    are entries to insert: it returns, touches only the hash index, fills one
    EMPTY cell per entry with the slot of that entry, and every entry can be
    found from its hash afterwards. *)
Lemma build_indices_correct (ep : list PyDictKeyEntry) :
  forall (keys : PyDictKeysObject) (ix0 : Z),
  keys_ok keys -> 0 <= ix0 -> ix0 + Z.of_nat (length ep) <= dk_nentries keys ->
  dk_nentries keys <= dk_size keys ->
  (length ep < count_empty (dk_indices keys))%nat ->
  exists keys',
    build_indices keys ix0 ep = Some keys' /\
    keys_ok keys' /\
    dk_entries keys' = dk_entries keys /\ dk_size keys' = dk_size keys /\
    dk_nentries keys' = dk_nentries keys /\ dk_usable keys' = dk_usable keys /\
    dk_addr keys' = dk_addr keys /\ dk_refcnt keys' = dk_refcnt keys /\
    (forall c, dk_get_index keys c <> DKIX_EMPTY ->
               dk_get_index keys' c = dk_get_index keys c) /\
    (forall c, dk_get_index keys' c = dk_get_index keys c \/
               ix0 <= dk_get_index keys' c < ix0 + Z.of_nat (length ep)) /\
    (forall (j : nat) e, ep !! j = Some e ->
               reachable keys' (me_hash e) (ix0 + Z.of_nat j)).
Proof.
  induction ep as [|e ep IH]; intros keys ix0 Hok Hix0 Hroom Hn Hcount.
  - exists keys. split_and!; try done. intros c. by left.
  - simpl build_indices. simpl length in *.
    destruct (find_empty_slot_total keys (me_hash e) Hok) as [i Hi].
    rewrite Hi.
    destruct (find_empty_slot_found keys (me_hash e) i Hok Hi)
      as (Hrange & Hempty & Hreach).
    destruct (dk_set_index_ok keys i ix0 Hok Hrange ltac:(lia) Hn Hempty ltac:(lia))
      as (Hok1 & Hidx1 & Hcount1).
    set (keys1 := dk_set_index keys i ix0) in *.
    assert (Hget1 : forall c, dk_get_index keys1 c =
                              if Z.eq_dec i c then ix0 else dk_get_index keys c).
    { intros c. unfold dk_get_index. rewrite Hidx1.
      destruct (Z.eq_dec i c) as [<-|Hne].
      - apply aget_aset_same. rewrite (ok_indices _ Hok). lia.
      - apply aget_aset_other. exact Hne. }
    assert (Hroom1 : ix0 + 1 + Z.of_nat (length ep) <= dk_nentries keys1)
      by (change (dk_nentries keys1) with (dk_nentries keys); lia).
    assert (Hcnt1 : (length ep < count_empty (dk_indices keys1))%nat) by lia.
    assert (Hix1 : 0 <= ix0 + 1) by lia.
    destruct (IH keys1 (ix0 + 1) Hok1 Hix1 Hroom1 Hn Hcnt1)
      as (keys' & Hbuild & Hok' & He & Hs & Hne & Hu & Ha & Hr & Hsame & Hnew & Hreach').
    exists keys'. split; [exact Hbuild|]. split; [exact Hok'|].
    repeat (split; [assumption|]).
    split; [|split].
    + intros c Hc. rewrite Hsame.
      * rewrite Hget1. destruct (Z.eq_dec i c) as [<-|Hne']; [contradiction | reflexivity].
      * rewrite Hget1. destruct (Z.eq_dec i c) as [<-|Hne'];
          [unfold DKIX_EMPTY; lia | exact Hc].
    + intros c. destruct (Hnew c) as [Hc|Hc].
      * rewrite Hc, Hget1. destruct (Z.eq_dec i c); [right; lia | left; reflexivity].
      * right. lia.
    + intros [|j] e' Hj.
      * simpl in Hj. injection Hj as <-. rewrite Z.add_0_r.
        apply (reachable_preserved keys1); [exact Hs | unfold DKIX_EMPTY; lia | exact Hsame|].
        specialize (Hreach ix0). fold keys1 in Hreach.
        rewrite Hget1 in Hreach. destruct (Z.eq_dec i i); [exact Hreach | contradiction].
      * simpl in Hj. specialize (Hreach' j e' Hj).
        replace (ix0 + Z.of_nat (S j)) with (ix0 + 1 + Z.of_nat j) by lia.
        exact Hreach'.
Qed.

(** ** [dictresize] *)

(** The entry array of a resized table: [o] empty slots, the live entries,
    [r] empty slots. *)
Lemma resized_entries_live (o r : nat) (live : list PyDictKeyEntry) (j : Z) :
  Z.of_nat o <= j < Z.of_nat o + Z.of_nat (length live) ->
  live !! Z.to_nat (j - Z.of_nat o) =
  Some (aget entry_zero
          (replicate o entry_zero ++ live ++ replicate r entry_zero) j).
Proof.
  intros Hj. unfold aget. destruct (j <? 0) eqn:E; [lia|].
  rewrite lookup_app_r by (rewrite length_replicate; lia).
  rewrite length_replicate, lookup_app_l by lia.
  replace (Z.to_nat j - o)%nat with (Z.to_nat (j - Z.of_nat o)) by lia.
  destruct (live !! Z.to_nat (j - Z.of_nat o)) as [x|] eqn:L; [reflexivity|].
  apply lookup_ge_None in L. lia.
Qed.

Lemma resized_entries_free (o r : nat) (live : list PyDictKeyEntry) (j : Z) :
  j < Z.of_nat o \/ Z.of_nat o + Z.of_nat (length live) <= j ->
  aget entry_zero
    (replicate o entry_zero ++ live ++ replicate r entry_zero) j = entry_zero.
Proof.
  intros Hj. unfold aget. destruct (j <? 0) eqn:E; [reflexivity|].
  apply Z.ltb_ge in E.
  destruct (Z_lt_dec j (Z.of_nat o)) as [Hlt|Hge].
  - rewrite lookup_app_l by (rewrite length_replicate; lia).
    rewrite lookup_replicate_2 by lia. reflexivity.
  - rewrite lookup_app_r by (rewrite length_replicate; lia).
    rewrite lookup_app_r by (rewrite length_replicate; lia).
    rewrite length_replicate.
    destruct (replicate r entry_zero !! _) as [x|] eqn:L; [|reflexivity].
    apply lookup_replicate in L as [-> _]. reflexivity.
Qed.

Lemma resized_entries_window (o r : nat) (live : list PyDictKeyEntry) :
  slots_between (Z.of_nat o) (Z.of_nat o + Z.of_nat (length live))
    (replicate o entry_zero ++ live ++ replicate r entry_zero) = live.
Proof.
  unfold slots_between. rewrite Nat2Z.id.
  rewrite drop_app_length' by (rewrite length_replicate; reflexivity).
  apply take_app_length'. lia.
Qed.

Lemma usable_two_thirds (n : Z) : 0 <= n -> 3 * (Z.shiftl n 1 / 3) <= 2 * n.
Proof.
  intros Hn. rewrite Z.shiftl_mul_pow2 by lia. change (2 ^ 1) with 2.
  pose proof (Z.mul_div_le (n * 2) 3 ltac:(lia)). lia.
Qed.

Section Resize.
Context {rt : Runtime}.

Lemma dictresize_correct (mp : PyDictObject) (minused offset : Z) :
  dict_ok mp -> (forall n, USABLE_FRACTION n = Z.shiftl n 1 / 3) ->
  new_keys_object (resize_capacity minused) <> NULL ->
  0 <= offset -> resize_capacity minused <= 2 ^ 62 ->
  offset + Z.of_nat (length (live_entries mp))
    < USABLE_FRACTION (resize_capacity minused) ->
  exists keys',
    let mp' := {| ma_used := ma_used mp; ma_keys := keys'; ma_offset := offset |} in
    dictresize mp minused offset = Ok mp' /\
    dict_ok mp' /\
    dk_size keys' = resize_capacity minused /\
    dk_addr keys' = new_keys_object (resize_capacity minused) /\
    dk_nentries keys' = offset + Z.of_nat (length (live_entries mp)) /\
    0 < dk_usable keys' /\
    live_entries mp' = live_entries mp /\
    (forall (j : nat) e, live_entries mp !! j = Some e ->
       reachable keys' (me_hash e) (offset + Z.of_nat j) /\
       DK_ENTRIES keys' (offset + Z.of_nat j) = e) /\
    (forall c, 0 <= dk_get_index keys' c ->
       offset <= dk_get_index keys' c
       < offset + Z.of_nat (length (live_entries mp))).
Proof.
  intros Hok Husable Halloc Hoff Hmax Hroom.
  set (live := live_entries mp) in *.
  set (newsize := resize_capacity minused) in *.
  set (cap := USABLE_FRACTION newsize) in *.
  set (numentries := offset + Z.of_nat (length live)) in *.
  destruct (resize_capacity_pow2 minused) as (k & Hk3 & Hk). fold newsize in Hk.
  destruct (resize_capacity_ge minused) as [H8 _]. fold newsize in H8.
  assert (Hk62 : (k <= 62)%nat).
  { assert (Z.of_nat k <= 62); [|lia].
    apply (Z.pow_le_mono_r_iff 2); [lia | lia | rewrite <- Hk; exact Hmax]. }
  assert (Hcap : 3 * cap <= 2 * newsize).
  { unfold cap. rewrite Husable. apply usable_two_thirds. lia. }
  set (entries' := replicate (Z.to_nat offset) entry_zero ++ live ++
                   replicate (Z.to_nat (cap - numentries)) entry_zero).
  set (fresh :=
         {| dk_addr := new_keys_object newsize; dk_refcnt := 1; dk_size := newsize;
            dk_usable := cap - numentries; dk_nentries := numentries;
            dk_indices := replicate (Z.to_nat newsize) DKIX_EMPTY;
            dk_entries := entries' |}).
  assert (Hlen' : Z.of_nat (length entries') = cap).
  { unfold entries'. rewrite !length_app, !length_replicate. lia. }
  assert (Hfresh_get : forall c, dk_get_index fresh c = DKIX_EMPTY).
  { intros c. unfold dk_get_index, aget. simpl. destruct (c <? 0); [reflexivity|].
    destruct (replicate _ _ !! _) as [x|] eqn:L; [|reflexivity].
    apply lookup_replicate in L as [-> _]. reflexivity. }
  assert (Hfresh : keys_ok fresh).
  { split; simpl.
    - exists k. split; [lia | exact Hk].
    - rewrite length_replicate. lia.
    - lia.
    - lia.
    - lia.
    - lia.
    - intros c. rewrite Hfresh_get. unfold DKIX_DUMMY, DKIX_EMPTY. lia.
    - exists 0. split; [lia | apply Hfresh_get]. }
  assert (Hcount : (length live < count_empty (dk_indices fresh))%nat).
  { simpl. rewrite count_empty_replicate. lia. }
  destruct (build_indices_correct live fresh offset Hfresh Hoff
              ltac:(simpl; lia) ltac:(simpl; lia) Hcount)
    as (keys' & Hbuild & Hok' & He & Hs & Hn & Hu & Ha & Hr & Hsame & Hnew & Hreach).
  simpl in He, Hs, Hn, Hu, Ha, Hr.
  assert (Hcells : forall c, 0 <= dk_get_index keys' c ->
                     offset <= dk_get_index keys' c < numentries).
  { intros c Hc. destruct (Hnew c) as [H|H]; [|exact H].
    rewrite H, Hfresh_get in Hc. unfold DKIX_EMPTY in Hc. lia. }
  assert (Hentry : forall j, offset <= j < numentries ->
                     live !! Z.to_nat (j - offset) = Some (DK_ENTRIES keys' j)).
  { intros j Hj. unfold DK_ENTRIES. rewrite He. unfold entries'.
    pose proof (resized_entries_live (Z.to_nat offset)
                  (Z.to_nat (cap - numentries)) live j) as H.
    rewrite Z2Nat.id in H by lia. apply H. unfold numentries in Hj. lia. }
  assert (Hfree : forall j, j < offset \/ numentries <= j ->
                    DK_ENTRIES keys' j = entry_zero).
  { intros j Hj. unfold DK_ENTRIES. rewrite He. unfold entries'.
    apply resized_entries_free. unfold numentries in Hj. lia. }
  assert (Hlive' : live_entries {| ma_used := ma_used mp; ma_keys := keys';
                                   ma_offset := offset |} = live).
  { unfold live_entries. simpl. rewrite Hn, He. unfold entries', numentries.
    pose proof (resized_entries_window (Z.to_nat offset)
                  (Z.to_nat (cap - (offset + Z.of_nat (length live)))) live) as H.
    rewrite Z2Nat.id in H by lia. rewrite H.
    apply forallb_filter_id. apply forallb_filter. }
  exists keys'. cbv zeta. split.
  { unfold dictresize. fold newsize live cap numentries entries' fresh.
    rewrite (proj2 (Z.eqb_neq _ _) Halloc). rewrite Hbuild. reflexivity. }
  split.
  { split; simpl.
    - exact Hok'.
    - rewrite Hn. lia.
    - intros j Hj. rewrite Hfree by lia. reflexivity.
    - intros j Hj. rewrite Hn in Hj. rewrite Hfree by lia. reflexivity.
    - rewrite Hlive'. apply (ok_used _ Hok).
    - intros c Hc. destruct (Hcells c Hc) as [H1 H2]. split; [exact H1|].
      specialize (Hentry _ (conj H1 H2)).
      apply list_elem_of_lookup_2, list_elem_of_In in Hentry.
      apply filter_In in Hentry as [_ Hentry]. exact Hentry. }
  split; [exact Hs|]. split; [exact Ha|]. split; [exact Hn|].
  split; [rewrite Hu; lia|]. split; [exact Hlive'|]. split; [|exact Hcells].
  intros j e Hj. split; [apply Hreach; exact Hj|].
  assert (Hjlt := lookup_lt_Some _ _ _ Hj).
  specialize (Hentry (offset + Z.of_nat j) ltac:(lia)).
  replace (Z.to_nat (offset + Z.of_nat j - offset)) with j in Hentry by lia.
  congruence.
Qed.

End Resize.

(** ** Finding the key again after a resize *)

Lemma lookdict_ident_reachable (keys : PyDictKeysObject) (key : PyObject)
    (hash ix : Z) :
  reachable keys hash ix -> 0 <= ix -> me_key (DK_ENTRIES keys ix) = key ->
  exists r c,
    lookdict_ident keys key hash = Some r /\ 0 <= r /\
    me_key (DK_ENTRIES keys r) = key /\ dk_get_index keys c = r.
Proof.
  intros (m & Hm & Hcell & Hbefore) Hix Hkey.
  set (mask := Mach.size_t (DK_MASK keys)) in *.
  set (first := Z.land (Mach.size_t hash) mask) in *.
  assert (Hvisit : lookdict_ident_visit keys key
                     (probe_cell m mask (Mach.size_t hash) first) = Some ix).
  { apply lookdict_ident_visit_answer. split; [exact Hcell|]. right. auto. }
  assert (Hsome : is_Some (lookdict_ident keys key hash)).
  { unfold lookdict_ident. rewrite lookdict_ident_loop_search.
    apply (probe_search_answers _ m); [|exact Hm].
    fold mask first. rewrite Hvisit. eauto. }
  destruct Hsome as [r Hr]. generalize Hr. unfold lookdict_ident at 1.
  rewrite lookdict_ident_loop_search, probe_search_first. fold mask first.
  intros (n & _ & Hv & Hfirst).
  apply lookdict_ident_visit_answer in Hv as [Hc Hans].
  exists r, (probe_cell n mask (Mach.size_t hash) first).
  split; [exact Hr|].
  destruct Hans as [Hempty | [Hr0 Hrkey]]; [|auto].
  exfalso. destruct (Nat.lt_trichotomy n m) as [Hlt | [Heq | Hgt]].
  - apply (Hbefore n Hlt). rewrite Hc. exact Hempty.
  - subst n. rewrite Hcell in Hc. unfold DKIX_EMPTY in Hempty. lia.
  - specialize (Hfirst m Hgt). congruence.
Qed.

Section FindAgain.
Context {rt : Runtime}.

(** A hit of [lookdict] is the content of a cell of the hash index. *)
Lemma lookdict_hit_cell (mp : PyDictObject) (key : PyObject) (hash ix : Z) :
  keys_ok (ma_keys mp) ->
  lookdict mp key hash = Some ix -> 0 <= ix ->
  exists c, 0 <= c < dk_size (ma_keys mp) /\ dk_get_index (ma_keys mp) c = ix.
Proof.
  intros Hok H Hix. unfold lookdict in H.
  apply probe_search_in_table in H as (c & Hc & V); [|exact Hok].
  exists c. split; [exact Hc|]. unfold lookdict_visit in V.
  destruct (dk_get_index (ma_keys mp) c =? DKIX_EMPTY);
    [injection V as <-; unfold DKIX_EMPTY in Hix; lia|].
  destruct (0 <=? dk_get_index (ma_keys mp) c); [|discriminate].
  destruct (PyObject_RichCompareBool _ key <? 0);
    [injection V as <-; unfold DKIX_ERROR in Hix; lia|].
  destruct (0 <? PyObject_RichCompareBool _ key); [|discriminate].
  injection V as <-. reflexivity.
Qed.

(** The slot a cell of a well-formed dict refers to: within the window, in
    the array, live, and among the live entries. *)
Lemma referred_slot (mp : PyDictObject) (c : Z) :
  dict_ok mp -> 0 <= dk_get_index (ma_keys mp) c ->
  let ix := dk_get_index (ma_keys mp) c in
  ma_offset mp <= ix < dk_nentries (ma_keys mp) /\
  ix < Z.of_nat (length (dk_entries (ma_keys mp))) /\
  is_live (DK_ENTRIES (ma_keys mp) ix) = true /\
  exists j : nat, live_entries mp !! j = Some (DK_ENTRIES (ma_keys mp) ix).
Proof.
  intros Hok Hc ix. destruct (ok_refer _ Hok c Hc) as [Hoff Hlive]. fold ix in Hoff, Hlive.
  assert (Hcells := ok_cells _ (ok_keys _ Hok) c). fold ix in Hcells.
  assert (Hlen : ix < Z.of_nat (length (dk_entries (ma_keys mp)))).
  { destruct (Z_lt_dec ix (Z.of_nat (length (dk_entries (ma_keys mp)))));
      [assumption|].
    unfold DK_ENTRIES in Hlive. rewrite aget_out_of_range in Hlive by lia.
    discriminate. }
  split; [lia|]. split; [exact Hlen|]. split; [exact Hlive|].
  apply list_elem_of_lookup_1, list_elem_of_In. unfold live_entries.
  apply filter_In. split; [|exact Hlive].
  apply elem_of_slots_between; [|lia|exact Hlen].
  destruct (ok_offset _ Hok). lia.
Qed.

(** After a resize of a well-formed dict with room for one more entry, the
    key of a referred slot whose stored hash is [hash] is found again by
    identity, at a slot of the new window. *)
Lemma resize_then_find (mp : PyDictObject) (c hash minused offset : Z) :
  dict_ok mp -> (forall n, USABLE_FRACTION n = Z.shiftl n 1 / 3) ->
  new_keys_object (resize_capacity minused) <> NULL ->
  0 <= offset -> resize_capacity minused <= 2 ^ 62 ->
  offset + Z.of_nat (length (live_entries mp))
    < USABLE_FRACTION (resize_capacity minused) ->
  0 <= dk_get_index (ma_keys mp) c ->
  let ix := dk_get_index (ma_keys mp) c in
  let found := me_key (DK_ENTRIES (ma_keys mp) ix) in
  me_hash (DK_ENTRIES (ma_keys mp) ix) = hash ->
  exists keys' r hashpos,
    let mp' := {| ma_used := ma_used mp; ma_keys := keys'; ma_offset := offset |} in
    dictresize mp minused offset = Ok mp' /\
    find_again mp' found hash = Ok (mp', r) /\
    lookdict_index keys' hash r = Some hashpos /\
    dict_ok mp' /\
    dk_size keys' = resize_capacity minused /\
    dk_addr keys' = new_keys_object (resize_capacity minused) /\
    dk_nentries keys' = offset + Z.of_nat (length (live_entries mp)) /\
    0 < dk_usable keys' /\
    live_entries mp' = live_entries mp /\
    offset <= r < dk_nentries keys' /\
    me_key (DK_ENTRIES keys' r) = found /\
    is_live (DK_ENTRIES keys' r) = true /\
    0 <= hashpos < dk_size keys' /\ dk_get_index keys' hashpos = r.
Proof.
  intros Hok Husable Halloc Hoff Hmax Hroom Hc ix found Hhash.
  destruct (referred_slot mp c Hok Hc) as (_ & _ & _ & j & Hj). fold ix in Hj.
  destruct (dictresize_correct mp minused offset Hok Husable Halloc Hoff Hmax Hroom)
    as (keys' & Hres & Hok' & Hsize & Haddr & Hn & Hu & Hlive & Hreach & Hcells).
  cbv zeta in Hres, Hok', Hlive.
  destruct (Hreach j _ Hj) as [Hr He].
  rewrite Hhash in Hr.
  destruct (lookdict_ident_reachable keys' found hash (offset + Z.of_nat j) Hr
              ltac:(lia) ltac:(rewrite He; reflexivity))
    as (r & c' & Hident & Hr0 & Hrkey & Hrcell).
  destruct (lookdict_index_after_ident keys' found hash r (ok_keys _ Hok') Hident Hr0)
    as (hashpos & Hpos & Hposrange & Hposcell).
  exists keys', r, hashpos. cbv zeta.
  split; [exact Hres|]. split.
  { unfold find_again. simpl. rewrite Hident.
    rewrite (proj2 (Z.leb_le 0 r) Hr0). reflexivity. }
  split; [exact Hpos|]. split; [exact Hok'|].
  split; [exact Hsize|]. split; [exact Haddr|]. split; [exact Hn|].
  split; [exact Hu|]. split; [exact Hlive|].
  assert (Hrc : 0 <= dk_get_index keys' c') by lia.
  split; [rewrite Hn, <- Hrcell; apply Hcells; exact Hrc|].
  split; [exact Hrkey|]. split; [|auto].
  destruct (ok_refer _ Hok' c' Hrc) as [_ Hl]. simpl in Hl. rewrite Hrcell in Hl.
  exact Hl.
Qed.

End FindAgain.

(** ** Room in the resized table *)

Lemma half_size (keys : PyDictKeysObject) :
  keys_ok keys -> 8 <= dk_size keys /\ 2 * Z.shiftr (dk_size keys) 1 = dk_size keys.
Proof.
  intros Hok. destruct (ok_size _ Hok) as (k & Hk & Hsize). rewrite Hsize.
  assert (E : 2 ^ Z.of_nat k = 2 * 2 ^ (Z.of_nat k - 1)).
  { replace (Z.of_nat k) with (Z.succ (Z.of_nat k - 1)) at 1 by lia.
    apply Z.pow_succ_r. lia. }
  assert (H8 : 2 ^ 3 <= 2 ^ Z.of_nat k) by (apply Z.pow_le_mono_r; lia).
  change (2 ^ 3) with 8 in H8. split; [exact H8|].
  rewrite Z.shiftr_div_pow2 by lia. change (2 ^ 1) with 2.
  rewrite E. replace (2 * 2 ^ (Z.of_nat k - 1) / 2) with (2 ^ (Z.of_nat k - 1));
    [reflexivity|].
  symmetry. rewrite Z.mul_comm. apply Z.div_mul. lia.
Qed.

Lemma live_entries_length (mp : PyDictObject) :
  Z.of_nat (length (live_entries mp))
  <= Z.of_nat (length (dk_entries (ma_keys mp))).
Proof.
  unfold live_entries.
  pose proof (List.filter_length_le is_live
                (slots_between (ma_offset mp) (dk_nentries (ma_keys mp))
                   (dk_entries (ma_keys mp)))).
  pose proof (slots_between_length (ma_offset mp) (dk_nentries (ma_keys mp))
                (dk_entries (ma_keys mp))).
  lia.
Qed.

(** A request of at least twice the live entries plus half the cells plus
    the reserved offset leaves room for one more entry after the live ones,
    provided the offset and the live entries fit the old table. *)
Lemma resize_room (used size offset minused : Z) :
  0 < used -> 8 <= size -> 0 <= offset ->
  4 * used + size + 2 * offset <= 2 * minused ->
  offset + 3 <= used + size ->
  offset + used < Z.shiftl (resize_capacity minused) 1 / 3.
Proof.
  intros Hused Hsize Hoff Hreq Hfit.
  destruct (resize_capacity_ge minused) as [H8 Hge].
  rewrite Z.shiftl_mul_pow2 by lia. change (2 ^ 1) with 2.
  assert (offset + used + 1 <= resize_capacity minused * 2 / 3); [|lia].
  apply Z.div_le_lower_bound; lia.
Qed.

Lemma resize_bounded (minused : Z) :
  minused <= 2 ^ 62 -> resize_capacity minused <= 2 ^ 62.
Proof.
  intros H. apply (resize_capacity_least minused 62); [lia | | exact H].
  change (2 ^ 62) with 4611686018427387904. lia.
Qed.

Lemma lookdict_ident_found (keys : PyDictKeysObject) (key : PyObject) (hash r : Z) :
  lookdict_ident keys key hash = Some r -> 0 <= r ->
  me_key (DK_ENTRIES keys r) = key /\ exists c, dk_get_index keys c = r.
Proof.
  intros H Hr. generalize H. unfold lookdict_ident at 1.
  rewrite lookdict_ident_loop_search, probe_search_first.
  intros (n & _ & Hv & _). apply lookdict_ident_visit_answer in Hv as [Hc Hans].
  split; [|eauto]. destruct Hans as [E | [_ E]]; [|exact E].
  unfold DKIX_EMPTY in E. lia.
Qed.

(** ** The two branches of [move_to_end] *)

Section Branches.
Context {rt : Runtime}.

(** The resize of the [last] branch has room; so has that of the other
    branch. *)
Lemma resize_room_last (mp : PyDictObject) :
  dict_ok mp -> dk_size (ma_keys mp) <= 2 ^ 60 -> 0 < ma_used mp ->
  dk_usable (ma_keys mp) = 0 ->
  let minused := GROWTH_RATE mp + ma_offset mp in
  resize_capacity minused <= 2 ^ 62 /\
  ma_offset mp + Z.of_nat (length (live_entries mp))
    < Z.shiftl (resize_capacity minused) 1 / 3.
Proof.
  intros Hok Hsz Hused Husable minused.
  assert (Hk := ok_keys _ Hok). destruct (half_size _ Hk) as [H8 Hhalf].
  assert (Hcap := ok_capacity _ Hk). assert (Hu := ok_usable _ Hk).
  assert (Hoff := ok_offset _ Hok). assert (Hlen := live_entries_length mp).
  rewrite (ok_used _ Hok) in *.
  unfold minused, GROWTH_RATE. split.
  - apply resize_bounded. change (2 ^ 62) with (4 * 2 ^ 60). lia.
  - apply (resize_room _ (dk_size (ma_keys mp))); lia.
Qed.

Lemma resize_room_first (mp : PyDictObject) :
  dict_ok mp -> dk_size (ma_keys mp) <= 2 ^ 60 -> 0 < ma_used mp ->
  let offset := Z.quot (ma_used mp) 2 + 2 in
  let minused := GROWTH_RATE mp + offset in
  0 <= offset /\
  resize_capacity minused <= 2 ^ 62 /\
  offset + Z.of_nat (length (live_entries mp))
    < Z.shiftl (resize_capacity minused) 1 / 3.
Proof.
  intros Hok Hsz Hused offset minused.
  assert (Hk := ok_keys _ Hok). destruct (half_size _ Hk) as [H8 Hhalf].
  assert (Hcap := ok_capacity _ Hk). assert (Hlen := live_entries_length mp).
  rewrite (ok_used _ Hok) in *.
  assert (Hq : Z.quot (ma_used mp) 2 = ma_used mp / 2)
    by (apply Z.quot_div_nonneg; lia).
  assert (Hdiv : 0 <= ma_used mp / 2 <= ma_used mp).
  { split; [apply Z.div_pos; lia|]. apply Z.div_le_upper_bound; lia. }
  unfold minused, offset, GROWTH_RATE. rewrite Hq. split; [lia|]. split.
  - apply resize_bounded. change (2 ^ 62) with (4 * 2 ^ 60). lia.
  - apply (resize_room _ (dk_size (ma_keys mp))); lia.
Qed.

(** What [prepared] gives for a hit of [lookdict] in the dict itself. *)
Lemma prepared_in_place (mp : PyDictObject) (key : PyObject) (hash ix : Z) :
  dict_ok mp -> lookdict mp key hash = Some ix -> 0 <= ix ->
  exists hashpos,
    lookdict_index (ma_keys mp) hash ix = Some hashpos /\
    prepared mp mp (me_key (DK_ENTRIES (ma_keys mp) ix)) ix hashpos.
Proof.
  intros Hok Hlook Hix.
  destruct (lookdict_index_after_lookdict mp key hash ix (ok_keys _ Hok) Hlook Hix)
    as (hashpos & Hpos & Hrange & Hcell).
  destruct (lookdict_hit_cell mp key hash ix (ok_keys _ Hok) Hlook Hix)
    as (c & _ & Hc).
  destruct (referred_slot mp c Hok ltac:(lia)) as (Hwin & _ & Hlive & _).
  rewrite Hc in Hwin, Hlive.
  exists hashpos. split; [exact Hpos|]. split; auto.
Qed.

(** What [prepared] gives for a hit of [lookdict_ident] in a resized dict. *)
Lemma prepared_resized (mp mp' : PyDictObject) (found : PyObject) (hash r : Z) :
  dict_ok mp' -> ma_used mp' = ma_used mp -> live_entries mp' = live_entries mp ->
  lookdict_ident (ma_keys mp') found hash = Some r -> 0 <= r ->
  exists hashpos,
    lookdict_index (ma_keys mp') hash r = Some hashpos /\
    prepared mp mp' found r hashpos.
Proof.
  intros Hok Hused Hlive Hident Hr.
  destruct (lookdict_index_after_ident _ found hash r (ok_keys _ Hok) Hident Hr)
    as (hashpos & Hpos & Hrange & Hcell).
  destruct (lookdict_ident_found _ found hash r Hident Hr) as (Hkey & c & Hc).
  destruct (referred_slot mp' c Hok ltac:(lia)) as (Hwin & _ & Hl & _).
  rewrite Hc in Hwin, Hl.
  exists hashpos. split; [exact Hpos|]. split; auto.
Qed.

Lemma move_to_end_last_resized (self : PyODictObject) (found : PyObject)
    (hash ix : Z) (od' : PyODictObject) :
  let mp := od_dict self in
  let minused := GROWTH_RATE mp + ma_offset mp in
  dict_ok mp -> dk_size (ma_keys mp) <= 2 ^ 60 ->
  (forall n, USABLE_FRACTION n = Z.shiftl n 1 / 3) -> 0 < ma_used mp ->
  ix <> dk_nentries (ma_keys mp) - 1 -> dk_usable (ma_keys mp) = 0 ->
  move_to_end_last self found hash ix = Ok od' ->
  exists keys' r hashpos,
    let mp' := {| ma_used := ma_used mp; ma_keys := keys';
                  ma_offset := ma_offset mp |} in
    dictresize mp minused (ma_offset mp) = Ok mp' /\
    dk_size keys' = resize_capacity minused /\
    dk_addr keys' = new_keys_object (resize_capacity minused) /\
    0 < dk_usable keys' /\
    lookdict_ident keys' found hash = Some r /\
    prepared mp mp' found r hashpos /\
    od' = moved_last self mp' hashpos r.
Proof.
  intros mp minused Hok Hsz Hlaw Hused Hix Husable Hmove.
  destruct (resize_room_last mp Hok Hsz Hused Husable) as [Hmax Hroom].
  fold minused in Hmax, Hroom. rewrite <- Hlaw in Hroom.
  unfold move_to_end_last in Hmove. fold mp in Hmove.
  rewrite (proj2 (Z.eqb_neq _ _) Hix), (proj2 (Z.eqb_eq _ _) Husable) in Hmove.
  fold minused in Hmove.
  destruct (Z.eq_dec (new_keys_object (resize_capacity minused)) NULL) as [Hnull|Halloc].
  { unfold dictresize in Hmove. rewrite (proj2 (Z.eqb_eq _ _) Hnull) in Hmove.
    discriminate. }
  destruct (dictresize_correct mp minused (ma_offset mp) Hok Hlaw Halloc
              (proj1 (ok_offset _ Hok)) Hmax Hroom)
    as (keys' & Hres & Hok' & Hsize & Haddr & Hn & Hu & Hlive & _ & _).
  cbv zeta in Hres, Hok', Hlive. rewrite Hres in Hmove.
  unfold find_again in Hmove. simpl ma_keys in Hmove.
  destruct (lookdict_ident keys' found hash) as [r|] eqn:Hident; [|discriminate].
  destruct (0 <=? r) eqn:Hr; [|discriminate]. apply Z.leb_le in Hr.
  destruct (prepared_resized mp _ found hash r Hok' eq_refl Hlive Hident Hr)
    as (hashpos & Hpos & Hprep).
  cbv beta iota zeta delta [ma_keys ma_used ma_offset] in Hmove, Hpos.
  rewrite Hpos in Hmove. injection Hmove as <-.
  exists keys', r, hashpos. cbv zeta. split; [exact Hres|].
  split; [exact Hsize|]. split; [exact Haddr|]. split; [exact Hu|].
  split; [exact Hident|]. split; [exact Hprep | reflexivity].
Qed.

Lemma move_to_end_first_resized (self : PyODictObject) (found : PyObject)
    (hash ix : Z) (od' : PyODictObject) :
  let mp := od_dict self in
  let offset := Z.quot (ma_used mp) 2 + 2 in
  let minused := GROWTH_RATE mp + offset in
  dict_ok mp -> dk_size (ma_keys mp) <= 2 ^ 60 ->
  (forall n, USABLE_FRACTION n = Z.shiftl n 1 / 3) -> 0 < ma_used mp ->
  ix <> ma_offset mp -> ma_offset mp = 0 ->
  move_to_end_first self found hash ix = Ok od' ->
  exists keys' r hashpos,
    let mp' := {| ma_used := ma_used mp; ma_keys := keys'; ma_offset := offset |} in
    dictresize mp minused offset = Ok mp' /\
    dk_size keys' = resize_capacity minused /\
    dk_addr keys' = new_keys_object (resize_capacity minused) /\
    0 < dk_usable keys' /\
    lookdict_ident keys' found hash = Some r /\
    prepared mp mp' found r hashpos /\
    od' = moved_first self mp' hashpos r offset.
Proof.
  intros mp offset minused Hok Hsz Hlaw Hused Hix Hoff0 Hmove.
  destruct (resize_room_first mp Hok Hsz Hused) as (Hoff & Hmax & Hroom).
  fold offset in Hoff, Hmax, Hroom. fold minused in Hmax, Hroom.
  rewrite <- Hlaw in Hroom.
  unfold move_to_end_first in Hmove. fold mp in Hmove.
  rewrite (proj2 (Z.eqb_neq _ _) Hix), (proj2 (Z.eqb_eq _ _) Hoff0) in Hmove.
  fold offset in Hmove. fold minused in Hmove.
  destruct (Z.eq_dec (new_keys_object (resize_capacity minused)) NULL) as [Hnull|Halloc].
  { unfold dictresize in Hmove. rewrite (proj2 (Z.eqb_eq _ _) Hnull) in Hmove.
    discriminate. }
  destruct (dictresize_correct mp minused offset Hok Hlaw Halloc Hoff Hmax Hroom)
    as (keys' & Hres & Hok' & Hsize & Haddr & Hn & Hu & Hlive & _ & _).
  cbv zeta in Hres, Hok', Hlive. rewrite Hres in Hmove.
  unfold find_again in Hmove. simpl ma_keys in Hmove.
  destruct (lookdict_ident keys' found hash) as [r|] eqn:Hident; [|discriminate].
  destruct (0 <=? r) eqn:Hr; [|discriminate]. apply Z.leb_le in Hr.
  destruct (prepared_resized mp _ found hash r Hok' eq_refl Hlive Hident Hr)
    as (hashpos & Hpos & Hprep).
  cbv beta iota zeta delta [ma_keys ma_used ma_offset] in Hmove, Hpos.
  rewrite Hpos in Hmove. injection Hmove as <-.
  exists keys', r, hashpos. cbv zeta. split; [exact Hres|].
  split; [exact Hsize|]. split; [exact Haddr|]. split; [exact Hu|].
  split; [exact Hident|]. split; [exact Hprep | reflexivity].
Qed.

End Branches.

(** ** The state counter *)

Lemma size_t_succ_neq (s : Z) : 0 <= s < 2 ^ 64 -> Mach.size_t (s + 1) <> s.
Proof.
  intros Hs. unfold Mach.size_t.
  destruct (Z.eq_dec (s + 1) (2 ^ 64)) as [E|E].
  - rewrite E, Z.mod_same by lia. lia.
  - rewrite Z.mod_small by lia. lia.
Qed.

Section StateCounter.
Context {rt : Runtime}.

Lemma dictresize_result (mp : PyDictObject) (minused offset : Z) :
  match dictresize mp minused offset with
  | Ok mp' => ma_used mp' = ma_used mp /\ ma_offset mp' = offset /\
              new_keys_object (resize_capacity minused) <> NULL
  | Error e mp' => e = MemoryError /\ mp' = mp /\
                   new_keys_object (resize_capacity minused) = NULL
  | Aborted => False
  | Diverges => new_keys_object (resize_capacity minused) <> NULL
  end.
Proof.
  unfold dictresize.
  destruct (new_keys_object (resize_capacity minused) =? NULL) eqn:E.
  - apply Z.eqb_eq in E. auto.
  - apply Z.eqb_neq in E. destruct (build_indices _ _ _); simpl; auto.
Qed.

Lemma find_again_result (mp : PyDictObject) (found : PyObject) (hash : Z) :
  match find_again mp found hash with
  | Ok (mp', r) => mp' = mp /\ 0 <= r
  | Error _ _ => False
  | _ => True
  end.
Proof.
  unfold find_again. destruct (lookdict_ident _ _ _) as [r|]; [|exact I].
  destruct (0 <=? r) eqn:E; [|exact I]. apply Z.leb_le in E. auto.
Qed.

(** A call of the [last] block that is not a no-op and succeeds has counted
    one change; a call that fails has left the ordered dict as it was, with
    [MemoryError] set. *)
Lemma move_to_end_last_result (self : PyODictObject) (found : PyObject)
    (hash ix : Z) :
  ix <> dk_nentries (ma_keys (od_dict self)) - 1 ->
  match move_to_end_last self found hash ix with
  | Ok od' => od_state od' = Mach.size_t (od_state self + 1) /\
              ma_used (od_dict od') = ma_used (od_dict self)
  | Error e od' => e = MemoryError /\ od' = self /\
                   dk_usable (ma_keys (od_dict self)) = 0
  | _ => True
  end.
Proof.
  intros Hix. unfold move_to_end_last. rewrite (proj2 (Z.eqb_neq _ _) Hix).
  destruct (dk_usable (ma_keys (od_dict self)) =? 0) eqn:Eu.
  - apply Z.eqb_eq in Eu.
    pose proof (dictresize_result (od_dict self)
                  (GROWTH_RATE (od_dict self) + ma_offset (od_dict self))
                  (ma_offset (od_dict self))) as Hres.
    destruct (dictresize _ _ _) as [mp'|e mp'| |]; try exact I.
    + pose proof (find_again_result mp' found hash) as Hfind.
      destruct (find_again mp' found hash) as [[mp'' r]|e [mp'' r]| |];
        try exact I; [|contradiction].
      destruct Hfind as [-> _].
      destruct (lookdict_index _ _ _); [|exact I]. simpl. tauto.
    + destruct Hres as (-> & -> & _). destruct self; auto.
  - destruct (lookdict_index _ _ _); [|exact I]. simpl. auto.
Qed.

Lemma move_to_end_first_result (self : PyODictObject) (found : PyObject)
    (hash ix : Z) :
  ix <> ma_offset (od_dict self) ->
  match move_to_end_first self found hash ix with
  | Ok od' => od_state od' = Mach.size_t (od_state self + 1) /\
              ma_used (od_dict od') = ma_used (od_dict self)
  | Error e od' => e = MemoryError /\ od' = self /\ ma_offset (od_dict self) = 0
  | _ => True
  end.
Proof.
  intros Hix. unfold move_to_end_first. rewrite (proj2 (Z.eqb_neq _ _) Hix).
  destruct (ma_offset (od_dict self) =? 0) eqn:Eo.
  - apply Z.eqb_eq in Eo.
    pose proof (dictresize_result (od_dict self)
                  (GROWTH_RATE (od_dict self) + (Z.quot (ma_used (od_dict self)) 2 + 2))
                  (Z.quot (ma_used (od_dict self)) 2 + 2)) as Hres.
    destruct (dictresize _ _ _) as [mp'|e mp'| |]; try exact I.
    + pose proof (find_again_result mp' found hash) as Hfind.
      destruct (find_again mp' found hash) as [[mp'' r]|e [mp'' r]| |];
        try exact I; [|contradiction].
      destruct Hfind as [-> _].
      destruct (lookdict_index _ _ _); [|exact I]. simpl. tauto.
    + destruct Hres as (-> & -> & _). destruct self; auto.
  - destruct (lookdict_index _ _ _); [|exact I]. simpl. auto.
Qed.

End StateCounter.

(** ** Examples on the sample objects *)

Example od3_well_formed : dict_wf (od_dict Sample.od3) = true.
Proof. reflexivity. Qed.

Example od_front_reached :
  OrderedDict_move_to_end_impl (rt := Sample.runtime) Sample.od3 18 false
  = Ok Sample.od_front.
Proof. vm_compute. reflexivity. Qed.

Example od_front_well_formed : dict_wf (od_dict Sample.od_front) = true.
Proof. reflexivity. Qed.

Example od_front_items :
  items (od_dict Sample.od_front) = [(18, 101); (10, 100); (12, 102)].
Proof. reflexivity. Qed.

(** ** C4: when [move_to_end(key, last=True)] does nothing *)

(** The claim fails on [od_front]: the entry of key 12 (slot 5) is the last
    live entry, but slot 6 is within [dk_nentries], so the call moves the
    entry to slot 7 and counts a change. *)
Lemma move_to_end_last_live_counterexample :
  lookdict (rt := Sample.runtime) (od_dict Sample.od_front) 12 12 = Some 5 /\
  last_live_slot (od_dict Sample.od_front) 5 = true /\
  OrderedDict_move_to_end_impl (rt := Sample.runtime) Sample.od_front 12 true
  <> Ok Sample.od_front.
Proof.
  split; [reflexivity|]. split; [reflexivity|].
  vm_compute. intros H. discriminate H.
Qed.

Section NoOp.
Context {rt : Runtime}.

(** C4, amended: for a present key, [move_to_end(key, last=True)] succeeds
    and leaves the ordered dict as it was if and only if the entry of the
    key is at slot [dk_nentries - 1]. *)
Theorem move_to_end_last_noop_iff (self : PyODictObject) (key : PyObject) (ix : Z) :
  ma_used (od_dict self) <> 0 -> PyObject_Hash key <> -1 ->
  lookdict (od_dict self) key (PyObject_Hash key) = Some ix -> 0 <= ix ->
  0 <= od_state self < 2 ^ 64 ->
  OrderedDict_move_to_end_impl self key true = Ok self <->
  ix = dk_nentries (ma_keys (od_dict self)) - 1.
Proof.
  intros Hused Hhash Hlook Hix Hstate.
  rewrite (move_to_end_found self key true ix Hused Hhash Hlook Hix). cbv zeta.
  split.
  - intros Hmove.
    destruct (Z.eq_dec ix (dk_nentries (ma_keys (od_dict self)) - 1)) as [E|E];
      [exact E|].
    pose proof (move_to_end_last_result self
                  (me_key (DK_ENTRIES (ma_keys (od_dict self)) ix))
                  (PyObject_Hash key) ix E) as H.
    rewrite Hmove in H. destruct H as [H _].
    exfalso. apply (size_t_succ_neq (od_state self) Hstate). symmetry. exact H.
  - intros E. unfold move_to_end_last. rewrite (proj2 (Z.eqb_eq _ _) E). reflexivity.
Qed.

End NoOp.

Lemma move_to_end_last_noop_iff_witness :
  OrderedDict_move_to_end_impl (rt := Sample.runtime) Sample.od3 12 true
    = Ok Sample.od3 <->
  2 = dk_nentries (ma_keys (od_dict Sample.od3)) - 1.
Proof.
  apply (move_to_end_last_noop_iff (rt := Sample.runtime) Sample.od3 12 2).
  - simpl. lia.
  - simpl. lia.
  - reflexivity.
  - lia.
  - simpl. lia.
Defined.

(** ** C1: what the state counter counts *)

Section Counting.
Context {rt : Runtime}.

(** The dict functions behind [PyODict_SetItem] and [PyODict_DelItem] see the
    dict only: whatever they do, the state counter stays. *)
Lemma on_dict_state (od : PyODictObject) (r : result PyDictObject) :
  match on_dict od r with
  | Ok od' | Error _ od' => od_state od' = od_state od
  | _ => True
  end.
Proof. destruct r; simpl; auto. Qed.

Lemma insert_new_used (mp : PyDictObject) (key : PyObject) (hash : Z)
    (value : PyObject) (mp' : PyDictObject) :
  insert_new mp key hash value = Ok mp' -> ma_used mp' = ma_used mp + 1.
Proof.
  unfold insert_new. destruct (find_empty_slot _ _); [|discriminate].
  intros [= <-]. reflexivity.
Qed.

Lemma PyDict_SetItem_new_key (mp : PyDictObject) (key value : PyObject)
    (mp' : PyDictObject) :
  lookdict mp key (PyObject_Hash key) = Some DKIX_EMPTY ->
  PyDict_SetItem mp key value = Ok mp' ->
  ma_used mp' = ma_used mp + 1.
Proof.
  intros Hlook. unfold PyDict_SetItem.
  destruct (PyObject_Hash key =? -1); [discriminate|]. rewrite Hlook.
  change (DKIX_EMPTY =? DKIX_ERROR) with false.
  change (DKIX_EMPTY =? DKIX_EMPTY) with true. cbv iota.
  destruct (dk_usable (ma_keys mp) =? 0).
  - pose proof (dictresize_result mp (GROWTH_RATE mp) 0) as Hres.
    destruct (dictresize mp (GROWTH_RATE mp) 0) as [mp1|e mp1| |]; try discriminate.
    destruct Hres as (Hused & _). intros H. apply insert_new_used in H. lia.
  - apply insert_new_used.
Qed.

Lemma PyDict_DelItem_used (mp : PyDictObject) (key : PyObject) (mp' : PyDictObject) :
  PyDict_DelItem mp key = Ok mp' -> ma_used mp' = ma_used mp - 1.
Proof.
  unfold PyDict_DelItem. destruct (PyObject_Hash key =? -1); [discriminate|].
  destruct (lookdict mp key (PyObject_Hash key)) as [ix|]; [|discriminate].
  destruct (ix =? DKIX_ERROR); [discriminate|].
  destruct (ix =? DKIX_EMPTY); [discriminate|].
  destruct (lookdict_index _ _ _); [|discriminate].
  intros [= <-]. reflexivity.
Qed.

(** C1, amended: three statements about an ordered dict [self], none of
    which needs the others.  A [move_to_end] that succeeds and is not a no-op
    (the entry is not at slot [dk_nentries - 1], resp. not at the begin
    offset) adds one to [od_state], modulo [2^64], whether or not it resizes;
    a no-op leaves it.  Inserting a new key with [PyODict_SetItem] adds one to
    the live-entry count and leaves [od_state] as it is.  Deleting a key
    with [PyODict_DelItem] takes one from the live-entry count and leaves
    [od_state] as it is. *)
Theorem od_state_counts_reorders (self : PyODictObject) :
  (forall (key : PyObject) (last : bool) (moved : PyODictObject),
     OrderedDict_move_to_end_impl self key last = Ok moved ->
     exists ix,
       lookdict (od_dict self) key (PyObject_Hash key) = Some ix /\
       od_state moved =
         (if (if last then ix =? dk_nentries (ma_keys (od_dict self)) - 1
              else ix =? ma_offset (od_dict self))
          then od_state self else (od_state self + 1) mod 2 ^ 64)) /\
  (forall (newkey value : PyObject) (inserted : PyODictObject),
     lookdict (od_dict self) newkey (PyObject_Hash newkey) = Some DKIX_EMPTY ->
     PyODict_SetItem self newkey value = Ok inserted ->
     od_state inserted = od_state self /\
     ma_used (od_dict inserted) = ma_used (od_dict self) + 1) /\
  (forall (key : PyObject) (deleted : PyODictObject),
     PyODict_DelItem self key = Ok deleted ->
     od_state deleted = od_state self /\
     ma_used (od_dict deleted) = ma_used (od_dict self) - 1).
Proof.
  split; [|split].
  - intros key last moved Hmove.
    unfold OrderedDict_move_to_end_impl in Hmove. cbv zeta in Hmove.
    destruct (_odict_EMPTY self); [discriminate|].
    destruct (PyObject_Hash key =? -1); [discriminate|].
    destruct (lookdict (od_dict self) key (PyObject_Hash key)) as [ix|];
      [|discriminate].
    destruct (ix =? DKIX_EMPTY); [discriminate|].
    destruct (ix =? DKIX_ERROR); [discriminate|].
    exists ix. split; [reflexivity|]. destruct last.
    + destruct (ix =? dk_nentries (ma_keys (od_dict self)) - 1) eqn:E.
      * unfold move_to_end_last in Hmove. rewrite E in Hmove.
        injection Hmove as <-. reflexivity.
      * apply Z.eqb_neq in E.
        pose proof (move_to_end_last_result self
                      (me_key (DK_ENTRIES (ma_keys (od_dict self)) ix))
                      (PyObject_Hash key) ix E) as H.
        rewrite Hmove in H. apply H.
    + destruct (ix =? ma_offset (od_dict self)) eqn:E.
      * unfold move_to_end_first in Hmove. rewrite E in Hmove.
        injection Hmove as <-. reflexivity.
      * apply Z.eqb_neq in E.
        pose proof (move_to_end_first_result self
                      (me_key (DK_ENTRIES (ma_keys (od_dict self)) ix))
                      (PyObject_Hash key) ix E) as H.
        rewrite Hmove in H. apply H.
  - intros newkey value inserted Hnew Hins. unfold PyODict_SetItem in Hins.
    pose proof (on_dict_state self (PyDict_SetItem (od_dict self) newkey value)) as H.
    rewrite Hins in H. split; [exact H|].
    destruct (PyDict_SetItem (od_dict self) newkey value) as [mp'|e mp'| |] eqn:E;
      try discriminate.
    injection Hins as <-. simpl. apply (PyDict_SetItem_new_key _ newkey value); assumption.
  - intros key deleted Hdel. unfold PyODict_DelItem in Hdel.
    pose proof (on_dict_state self (PyDict_DelItem (od_dict self) key)) as H.
    rewrite Hdel in H. split; [exact H|].
    destruct (PyDict_DelItem (od_dict self) key) as [mp'|e mp'| |] eqn:E;
      try discriminate.
    injection Hdel as <-. simpl. apply (PyDict_DelItem_used _ key); assumption.
Qed.

End Counting.

(** The claim fails for the insert of a new key: key 14 is added to [od3],
    the live-entry count grows, the state counter is what it was. *)
Lemma insert_keeps_od_state_counterexample :
  exists od',
    lookdict (rt := Sample.runtime) (od_dict Sample.od3) 14 14 = Some DKIX_EMPTY /\
    PyODict_SetItem (rt := Sample.runtime) Sample.od3 14 103 = Ok od' /\
    items (od_dict od') = [(10, 100); (18, 101); (12, 102); (14, 103)] /\
    od_state od' = od_state Sample.od3.
Proof.
  eexists. split; [reflexivity|]. split; [vm_compute; reflexivity|].
  split; reflexivity.
Qed.

(** The three statements, each on a dict of its own: a move in [od3], the
    insert of a first key into the empty [od0], a delete from [od_front]. *)
Lemma od_state_counts_reorders_witness :
  (exists moved,
     OrderedDict_move_to_end_impl (rt := Sample.runtime) Sample.od3 18 true = Ok moved /\
     od_state moved = (od_state Sample.od3 + 1) mod 2 ^ 64) /\
  (exists inserted,
     PyODict_SetItem (rt := Sample.runtime) Sample.od0 14 103 = Ok inserted /\
     od_state inserted = od_state Sample.od0 /\
     ma_used (od_dict inserted) = ma_used (od_dict Sample.od0) + 1) /\
  (exists deleted,
     PyODict_DelItem (rt := Sample.runtime) Sample.od_front 18 = Ok deleted /\
     od_state deleted = od_state Sample.od_front /\
     ma_used (od_dict deleted) = ma_used (od_dict Sample.od_front) - 1).
Proof.
  split; [|split].
  - eexists. split; [vm_compute; reflexivity|].
    destruct (proj1 (od_state_counts_reorders (rt := Sample.runtime) Sample.od3)
                18 true _ eq_refl) as (ix & Hlook & Hstate).
    injection Hlook as <-. exact Hstate.
  - eexists. split; [vm_compute; reflexivity|].
    apply (proj1 (proj2 (od_state_counts_reorders (rt := Sample.runtime) Sample.od0))
             14 103); reflexivity.
  - eexists. split; [vm_compute; reflexivity|].
    apply (proj2 (proj2 (od_state_counts_reorders (rt := Sample.runtime)
                           Sample.od_front)) 18); reflexivity.
Defined.

(** ** C10 and C2: iterators *)

Section Iterators.
Context {rt : Runtime}.

Lemma iternext_without_dict (di : odictiterobject) (od : PyODictObject) :
  di_odict di = NULL -> odictiter_iternext di od = (Exhausted, di).
Proof.
  intros H. unfold odictiter_iternext. rewrite H. reflexivity.
Qed.

Lemma advance_all_without_dict (di : odictiterobject) (states : list PyODictObject) :
  di_odict di = NULL ->
  advance_all di states = List.map (fun _ => Exhausted) states.
Proof.
  intros H. induction states as [|od states IH]; [reflexivity|].
  simpl. rewrite (iternext_without_dict di od H). rewrite IH. reflexivity.
Qed.

(** C10: an iterator made on an ordered dict without live entries holds no
    reference to it, and each of its advances reports exhaustion, whatever
    the states the ordered dict is in when they are made. *)
Theorem iterator_of_empty_dict (self : Z) (od : PyODictObject) (kind : Z)
    (di : odictiterobject) (states : list PyODictObject) :
  PyODict_SIZE od = 0 -> odictiter_new self od kind = Some di ->
  di_odict di = NULL /\
  advance_all di states = List.map (fun _ => Exhausted) states.
Proof.
  intros Hsize Hnew. unfold odictiter_new in Hnew. rewrite Hsize in Hnew.
  destruct new_iter_ok; [|discriminate]. simpl in Hnew. injection Hnew as <-.
  split; [reflexivity|]. apply advance_all_without_dict. reflexivity.
Qed.

(** What an advance does when the ordered dict has changed under a live
    iterator. *)
Lemma iternext_revalidates (di : odictiterobject) (od : PyODictObject) :
  di_odict di <> NULL ->
  (od_state od <> di_state di \/ dk_addr (ma_keys (od_dict od)) <> di_keys di ->
   fst (odictiter_iternext di od)
   = Raised (RuntimeError "OrderedDict mutated during iteration")) /\
  (od_state od = di_state di -> dk_addr (ma_keys (od_dict od)) = di_keys di ->
   di_size di <> PyODict_SIZE od ->
   fst (odictiter_iternext di od)
   = Raised (RuntimeError "OrderedDict changed size during iteration")).
Proof.
  intros H. unfold odictiter_iternext. rewrite (proj2 (Z.eqb_neq _ _) H). split.
  - intros [E|E]; apply Z.eqb_neq in E; rewrite E; simpl;
      [reflexivity | rewrite orb_true_r; reflexivity].
  - intros E1 E2 E3. apply Z.eqb_eq in E1, E2. apply Z.eqb_neq in E3.
    rewrite E1, E2, E3. reflexivity.
Qed.

(** C2, amended: an iterator made on an ordered dict with live entries
    records the state counter, the live-entry count and the key table.  After
    a new key has been inserted, its next advance fails: with "mutated during
    iteration" when the insert has put the dict on another key table, with
    "changed size during iteration" when it has not. *)
Theorem iterator_after_insert (self : Z) (od : PyODictObject) (kind : Z)
    (di : odictiterobject) (key value : PyObject) (od' : PyODictObject) :
  self <> NULL -> 0 < PyODict_SIZE od ->
  odictiter_new self od kind = Some di ->
  lookdict (od_dict od) key (PyObject_Hash key) = Some DKIX_EMPTY ->
  PyODict_SetItem od key value = Ok od' ->
  (di_state di = od_state od /\ di_size di = PyODict_SIZE od /\
   di_keys di = dk_addr (ma_keys (od_dict od))) /\
  fst (odictiter_iternext di od') =
    Raised (RuntimeError
              (if dk_addr (ma_keys (od_dict od')) =? dk_addr (ma_keys (od_dict od))
               then "OrderedDict changed size during iteration"
               else "OrderedDict mutated during iteration")).
Proof.
  intros Hself Hsize Hnew Hlook Hins.
  unfold odictiter_new in Hnew. destruct new_iter_ok; [|discriminate].
  simpl in Hnew. rewrite (proj2 (Z.ltb_lt _ _) Hsize) in Hnew.
  injection Hnew as <-. split; [auto|].
  unfold PyODict_SetItem in Hins.
  pose proof (on_dict_state od (PyDict_SetItem (od_dict od) key value)) as Hstate.
  rewrite Hins in Hstate.
  destruct (PyDict_SetItem (od_dict od) key value) as [mp'|e mp'| |] eqn:E;
    try discriminate.
  pose proof (PyDict_SetItem_new_key _ key value mp' Hlook E) as Hused.
  injection Hins as <-. simpl in Hstate. simpl od_dict.
  match goal with |- fst (odictiter_iternext ?d ?o) = _ =>
    destruct (iternext_revalidates d o Hself) as [Hmut Hsz] end.
  simpl in Hmut, Hsz.
  destruct (dk_addr (ma_keys mp') =? dk_addr (ma_keys (od_dict od))) eqn:Ea.
  - apply Z.eqb_eq in Ea. apply Hsz; [exact Hstate | exact Ea|].
    unfold PyODict_SIZE. cbn [od_dict]. rewrite Hused. lia.
  - apply Z.eqb_neq in Ea. apply Hmut. right. exact Ea.
Qed.

End Iterators.

Lemma iterator_of_empty_dict_witness :
  exists di,
    odictiter_new (rt := Sample.runtime) 512 Sample.od0 _odict_ITER_KEYS = Some di /\
    di_odict di = NULL /\
    advance_all (rt := Sample.runtime) di [Sample.od3; Sample.od_front]
    = [Exhausted; Exhausted].
Proof.
  eexists. split; [reflexivity|].
  apply (iterator_of_empty_dict (rt := Sample.runtime) 512 Sample.od0
           _odict_ITER_KEYS _ [Sample.od3; Sample.od_front]); reflexivity.
Defined.

(** The claim fails when the insert does not resize: the iterator over
    [od3] reports that the size changed, not that the dict was mutated. *)
Lemma iterator_after_insert_counterexample :
  exists di od',
    odictiter_new (rt := Sample.runtime) 512 Sample.od3 _odict_ITER_KEYS = Some di /\
    PyODict_SetItem (rt := Sample.runtime) Sample.od3 14 103 = Ok od' /\
    fst (odictiter_iternext (rt := Sample.runtime) di od') =
      Raised (RuntimeError "OrderedDict changed size during iteration").
Proof.
  eexists _, _. split; [reflexivity|]. split; [vm_compute; reflexivity|].
  reflexivity.
Qed.

Lemma iterator_after_insert_witness :
  exists di od',
    odictiter_new (rt := Sample.runtime) 512 Sample.od3 _odict_ITER_KEYS = Some di /\
    PyODict_SetItem (rt := Sample.runtime) Sample.od3 14 103 = Ok od' /\
    (di_state di = od_state Sample.od3 /\ di_size di = PyODict_SIZE Sample.od3 /\
     di_keys di = dk_addr (ma_keys (od_dict Sample.od3))) /\
    fst (odictiter_iternext (rt := Sample.runtime) di od') =
      Raised (RuntimeError
                (if dk_addr (ma_keys (od_dict od'))
                    =? dk_addr (ma_keys (od_dict Sample.od3))
                 then "OrderedDict changed size during iteration"
                 else "OrderedDict mutated during iteration")).
Proof.
  eexists _, _. split; [reflexivity|]. split; [vm_compute; reflexivity|].
  apply (iterator_after_insert (rt := Sample.runtime) 512 Sample.od3
           _odict_ITER_KEYS _ 14 103).
  - unfold NULL. lia.
  - reflexivity.
  - reflexivity.
  - reflexivity.
  - vm_compute. reflexivity.
Defined.

(** ** What a move does to the items *)

Lemma dict_wf_size (mp : PyDictObject) :
  dict_wf mp = true -> dk_size (ma_keys mp) <= 2 ^ 60.
Proof.
  unfold dict_wf, keys_wf. rewrite !andb_true_iff.
  intros H. decompose [and] H. apply Z.leb_le. assumption.
Qed.

Lemma dict_ok_used_pos (mp : PyDictObject) :
  dict_ok mp -> ma_used mp <> 0 -> 0 < ma_used mp.
Proof. intros Hok H. pose proof (ok_used _ Hok). lia. Qed.

Lemma prepared_in_array (mp mp1 : PyDictObject) (found : PyObject) (r hashpos : Z) :
  prepared mp mp1 found r hashpos ->
  0 <= r < Z.of_nat (length (dk_entries (ma_keys mp1))).
Proof.
  intros Hp. assert (Hoff := ok_offset _ (prep_ok _ _ _ _ _ Hp)).
  assert (Hslot := prep_slot _ _ _ _ _ Hp). split; [lia|].
  destruct (Z_lt_dec r (Z.of_nat (length (dk_entries (ma_keys mp1)))));
    [assumption|].
  assert (Hl := prep_is_live _ _ _ _ _ Hp).
  unfold DK_ENTRIES in Hl. rewrite aget_out_of_range in Hl by lia. discriminate.
Qed.

Lemma moved_last_facts (self : PyODictObject) (mp1 : PyDictObject)
    (found : PyObject) (r hashpos : Z) :
  prepared (od_dict self) mp1 found r hashpos ->
  ma_offset mp1 = ma_offset (od_dict self) -> 0 < dk_usable (ma_keys mp1) ->
  let od' := moved_last self mp1 hashpos r in
  let e := DK_ENTRIES (ma_keys mp1) r in
  relocated (ma_keys mp1) (ma_keys (od_dict od')) hashpos r
    (dk_nentries (ma_keys mp1)) /\
  ma_offset (od_dict od') =
    (if r =? ma_offset mp1 then ma_offset mp1 + 1 else ma_offset mp1) /\
  ma_used (od_dict od') = ma_used (od_dict self) /\
  exists l1 l2,
    live_entries (od_dict self) = l1 ++ [e] ++ l2 /\
    live_entries (od_dict od') = l1 ++ l2 ++ [e].
Proof.
  intros Hp Hoff Husable od' e.
  assert (Hok := prep_ok _ _ _ _ _ Hp). assert (Hk := ok_keys _ Hok).
  assert (Hslot := prep_slot _ _ _ _ _ Hp).
  assert (Hr := prepared_in_array _ _ _ _ _ Hp).
  assert (Hu := ok_usable _ Hk). assert (Hb := ok_offset _ Hok).
  split; [|split; [|split]].
  - apply relocate_entry_relocated; try lia; [exact Hk|].
    exact (prep_cell _ _ _ _ _ Hp).
  - simpl. rewrite Hoff. reflexivity.
  - simpl. exact (prep_used _ _ _ _ _ Hp).
  - destruct (live_entries_moved_last (dk_entries (ma_keys mp1)) (ma_offset mp1)
                (dk_nentries (ma_keys mp1)) r ltac:(lia) ltac:(lia) ltac:(lia)
                (prep_is_live _ _ _ _ _ Hp)) as [H1 H2].
    eexists _, _. split.
    + rewrite <- (prep_live _ _ _ _ _ Hp). exact H1.
    + unfold od', moved_last, live_entries. simpl. rewrite <- Hoff. exact H2.
Qed.

Lemma moved_first_facts (self : PyODictObject) (mp1 : PyDictObject)
    (found : PyObject) (r hashpos : Z) :
  prepared (od_dict self) mp1 found r hashpos ->
  0 < ma_offset mp1 ->
  let od' := moved_first self mp1 hashpos r (ma_offset mp1) in
  let e := DK_ENTRIES (ma_keys mp1) r in
  relocated (ma_keys mp1) (ma_keys (od_dict od')) hashpos r (ma_offset mp1 - 1) /\
  ma_offset (od_dict od') = ma_offset mp1 - 1 /\
  ma_used (od_dict od') = ma_used (od_dict self) /\
  exists l1 l2,
    live_entries (od_dict self) = l1 ++ [e] ++ l2 /\
    live_entries (od_dict od') = [e] ++ l1 ++ l2.
Proof.
  intros Hp Hoff od' e.
  assert (Hok := prep_ok _ _ _ _ _ Hp). assert (Hk := ok_keys _ Hok).
  assert (Hslot := prep_slot _ _ _ _ _ Hp).
  assert (Hr := prepared_in_array _ _ _ _ _ Hp).
  split; [|split; [|split]].
  - apply relocate_entry_relocated; try lia; [exact Hk|].
    exact (prep_cell _ _ _ _ _ Hp).
  - reflexivity.
  - simpl. exact (prep_used _ _ _ _ _ Hp).
  - destruct (live_entries_moved_first (dk_entries (ma_keys mp1)) (ma_offset mp1)
                (dk_nentries (ma_keys mp1)) r ltac:(lia) ltac:(lia) ltac:(lia)
                ltac:(lia) (prep_is_live _ _ _ _ _ Hp)
                (ok_after _ Hok (dk_nentries (ma_keys mp1)) ltac:(lia)))
      as [H1 H2].
    eexists _, _. split.
    + rewrite <- (prep_live _ _ _ _ _ Hp). exact H1.
    + unfold od', moved_first, live_entries. simpl. exact H2.
Qed.

Lemma items_moved (l1 l2 : list PyDictKeyEntry) (e : PyDictKeyEntry)
    (live live' : list PyDictKeyEntry) :
  live = l1 ++ [e] ++ l2 -> live' = l1 ++ l2 ++ [e] \/ live' = [e] ++ l1 ++ l2 ->
  Permutation (List.map (fun e => (me_key e, me_value e)) live')
              (List.map (fun e => (me_key e, me_value e)) live).
Proof.
  intros -> H. apply Permutation_map. destruct H as [-> | ->].
  - apply Permutation_app_head. apply Permutation_app_comm.
  - apply (Permutation_middle l1 l2 e).
Qed.

(** ** The branches return *)

Section Progress.
Context {rt : Runtime}.

Lemma move_to_end_last_stays (self : PyODictObject) (key : PyObject) (hash ix : Z) :
  let mp := od_dict self in
  dict_ok mp -> lookdict mp key hash = Some ix -> 0 <= ix ->
  ix <> dk_nentries (ma_keys mp) - 1 -> dk_usable (ma_keys mp) <> 0 ->
  exists hashpos,
    prepared mp mp (me_key (DK_ENTRIES (ma_keys mp) ix)) ix hashpos /\
    move_to_end_last self (me_key (DK_ENTRIES (ma_keys mp) ix)) hash ix
    = Ok (moved_last self mp hashpos ix).
Proof.
  intros mp Hok Hlook Hix Hlast Husable.
  destruct (prepared_in_place mp key hash ix Hok Hlook Hix) as (hashpos & Hpos & Hprep).
  exists hashpos. split; [exact Hprep|].
  apply move_to_end_last_in_place; assumption.
Qed.

Lemma move_to_end_first_stays (self : PyODictObject) (key : PyObject) (hash ix : Z) :
  let mp := od_dict self in
  dict_ok mp -> lookdict mp key hash = Some ix -> 0 <= ix ->
  ix <> ma_offset mp -> ma_offset mp <> 0 ->
  exists hashpos,
    prepared mp mp (me_key (DK_ENTRIES (ma_keys mp) ix)) ix hashpos /\
    move_to_end_first self (me_key (DK_ENTRIES (ma_keys mp) ix)) hash ix
    = Ok (moved_first self mp hashpos ix (ma_offset mp)).
Proof.
  intros mp Hok Hlook Hix Hfirst Hoff.
  destruct (prepared_in_place mp key hash ix Hok Hlook Hix) as (hashpos & Hpos & Hprep).
  exists hashpos. split; [exact Hprep|].
  apply move_to_end_first_in_place; assumption.
Qed.

Lemma move_to_end_last_no_memory (self : PyODictObject) (found : PyObject)
    (hash ix : Z) :
  let mp := od_dict self in
  ix <> dk_nentries (ma_keys mp) - 1 -> dk_usable (ma_keys mp) = 0 ->
  new_keys_object (resize_capacity (GROWTH_RATE mp + ma_offset mp)) = NULL ->
  move_to_end_last self found hash ix = Error MemoryError self.
Proof.
  intros mp Hix Husable Hnull. unfold move_to_end_last. fold mp.
  rewrite (proj2 (Z.eqb_neq _ _) Hix), (proj2 (Z.eqb_eq _ _) Husable).
  unfold dictresize. rewrite (proj2 (Z.eqb_eq _ _) Hnull).
  unfold mp. destruct self. reflexivity.
Qed.

Lemma move_to_end_first_no_memory (self : PyODictObject) (found : PyObject)
    (hash ix : Z) :
  let mp := od_dict self in
  ix <> ma_offset mp -> ma_offset mp = 0 ->
  new_keys_object
    (resize_capacity (GROWTH_RATE mp + (Z.quot (ma_used mp) 2 + 2))) = NULL ->
  move_to_end_first self found hash ix = Error MemoryError self.
Proof.
  intros mp Hix Hoff Hnull. unfold move_to_end_first. fold mp.
  rewrite (proj2 (Z.eqb_neq _ _) Hix), (proj2 (Z.eqb_eq _ _) Hoff).
  unfold dictresize. rewrite (proj2 (Z.eqb_eq _ _) Hnull).
  unfold mp. destruct self. reflexivity.
Qed.

Lemma move_to_end_last_resizes (self : PyODictObject) (key : PyObject) (hash ix : Z) :
  let mp := od_dict self in
  dict_ok mp -> dk_size (ma_keys mp) <= 2 ^ 60 ->
  (forall n, USABLE_FRACTION n = Z.shiftl n 1 / 3) -> 0 < ma_used mp ->
  lookdict mp key hash = Some ix -> 0 <= ix ->
  me_hash (DK_ENTRIES (ma_keys mp) ix) = hash ->
  ix <> dk_nentries (ma_keys mp) - 1 -> dk_usable (ma_keys mp) = 0 ->
  new_keys_object (resize_capacity (GROWTH_RATE mp + ma_offset mp)) <> NULL ->
  exists od',
    move_to_end_last self (me_key (DK_ENTRIES (ma_keys mp) ix)) hash ix = Ok od'.
Proof.
  intros mp Hok Hsz Hlaw Hused Hlook Hix Hhash Hlast Husable Halloc.
  destruct (resize_room_last mp Hok Hsz Hused Husable) as [Hmax Hroom].
  rewrite <- Hlaw in Hroom.
  destruct (lookdict_hit_cell mp key hash ix (ok_keys _ Hok) Hlook Hix) as (c & _ & Hc).
  destruct (resize_then_find mp c hash _ (ma_offset mp) Hok Hlaw Halloc
              (proj1 (ok_offset _ Hok)) Hmax Hroom ltac:(lia)
              ltac:(rewrite Hc; exact Hhash))
    as (keys' & r & hashpos & Hres & Hfind & Hpos & _).
  cbv zeta in Hres, Hfind. rewrite Hc in Hfind.
  unfold move_to_end_last. fold mp.
  rewrite (proj2 (Z.eqb_neq _ _) Hlast), (proj2 (Z.eqb_eq _ _) Husable).
  rewrite Hres, Hfind. cbv beta iota zeta delta [ma_keys]. rewrite Hpos. eauto.
Qed.

Lemma move_to_end_first_resizes (self : PyODictObject) (key : PyObject) (hash ix : Z) :
  let mp := od_dict self in
  dict_ok mp -> dk_size (ma_keys mp) <= 2 ^ 60 ->
  (forall n, USABLE_FRACTION n = Z.shiftl n 1 / 3) -> 0 < ma_used mp ->
  lookdict mp key hash = Some ix -> 0 <= ix ->
  me_hash (DK_ENTRIES (ma_keys mp) ix) = hash ->
  ix <> ma_offset mp -> ma_offset mp = 0 ->
  new_keys_object
    (resize_capacity (GROWTH_RATE mp + (Z.quot (ma_used mp) 2 + 2))) <> NULL ->
  exists od',
    move_to_end_first self (me_key (DK_ENTRIES (ma_keys mp) ix)) hash ix = Ok od'.
Proof.
  intros mp Hok Hsz Hlaw Hused Hlook Hix Hhash Hfirst Hoff0 Halloc.
  destruct (resize_room_first mp Hok Hsz Hused) as (Hoff & Hmax & Hroom).
  rewrite <- Hlaw in Hroom.
  destruct (lookdict_hit_cell mp key hash ix (ok_keys _ Hok) Hlook Hix) as (c & _ & Hc).
  destruct (resize_then_find mp c hash _ _ Hok Hlaw Halloc Hoff Hmax Hroom
              ltac:(lia) ltac:(rewrite Hc; exact Hhash))
    as (keys' & r & hashpos & Hres & Hfind & Hpos & _).
  cbv zeta in Hres, Hfind. rewrite Hc in Hfind.
  unfold move_to_end_first. fold mp.
  rewrite (proj2 (Z.eqb_neq _ _) Hfirst), (proj2 (Z.eqb_eq _ _) Hoff0).
  rewrite Hres, Hfind. cbv beta iota zeta delta [ma_keys]. rewrite Hpos. eauto.
Qed.

End Progress.

(** ** C5: [move_to_end(key, last=False)] with the begin offset at 0 *)

Lemma front_reserve_ge (mp : PyDictObject) : 0 <= ma_used mp -> 2 <= front_reserve mp.
Proof.
  intros H. unfold front_reserve. rewrite Z.quot_div_nonneg by lia.
  pose proof (Z.div_pos (ma_used mp) 2 H ltac:(lia)). lia.
Qed.

Section MoveToFront.
Context {rt : Runtime}.

(** C5: [move_to_end(key, last=False)] on a present key is a no-op when the
    entry is at the begin offset.  Otherwise, with the begin offset at 0 and
    when the allocation succeeds, it first resizes: [dictresize] returns a dict with
    [used/2 + 2] leading empty slots and the live entries of the dict; the
    key is found again by identity, at slot [r]; then the begin offset
    becomes [used/2 + 1], the entry of slot [r] is copied to that slot, slot
    [r] is zeroed, the cell of the hash index that referred to [r] refers to
    the new slot, and the entry is the first of the live entries. *)
Theorem move_to_front_reserves (self : PyODictObject) (key : PyObject) (ix : Z) :
  dict_wf (od_dict self) = true ->
  (forall n, USABLE_FRACTION n = Z.shiftl n 1 / 3) ->
  ma_used (od_dict self) <> 0 -> PyObject_Hash key <> -1 ->
  lookdict (od_dict self) key (PyObject_Hash key) = Some ix -> 0 <= ix ->
  (ix = ma_offset (od_dict self) ->
   OrderedDict_move_to_end_impl self key false = Ok self) /\
  (ix <> ma_offset (od_dict self) -> ma_offset (od_dict self) = 0 ->
   me_hash (DK_ENTRIES (ma_keys (od_dict self)) ix) = PyObject_Hash key ->
   new_keys_object
     (resize_capacity (GROWTH_RATE (od_dict self) + front_reserve (od_dict self)))
   <> NULL ->
   exists keys' r hashpos od' l1 l2,
     dictresize (od_dict self)
       (GROWTH_RATE (od_dict self) + front_reserve (od_dict self))
       (front_reserve (od_dict self))
     = Ok {| ma_used := ma_used (od_dict self); ma_keys := keys';
             ma_offset := front_reserve (od_dict self) |} /\
     (forall j, j < front_reserve (od_dict self) ->
        is_free (DK_ENTRIES keys' j) = true) /\
     live_entries {| ma_used := ma_used (od_dict self); ma_keys := keys';
                     ma_offset := front_reserve (od_dict self) |}
     = live_entries (od_dict self) /\
     lookdict_ident keys' (me_key (DK_ENTRIES (ma_keys (od_dict self)) ix))
       (PyObject_Hash key) = Some r /\
     me_key (DK_ENTRIES keys' r) = me_key (DK_ENTRIES (ma_keys (od_dict self)) ix) /\
     dk_get_index keys' hashpos = r /\
     OrderedDict_move_to_end_impl self key false = Ok od' /\
     ma_offset (od_dict od') = front_reserve (od_dict self) - 1 /\
     relocated keys' (ma_keys (od_dict od')) hashpos r
       (front_reserve (od_dict self) - 1) /\
     live_entries (od_dict self) = l1 ++ [DK_ENTRIES keys' r] ++ l2 /\
     live_entries (od_dict od') = [DK_ENTRIES keys' r] ++ l1 ++ l2).
Proof.
  intros Hwf Hlaw Hused Hhash Hlook Hix.
  assert (Hsz := dict_wf_size _ Hwf). apply dict_wf_ok in Hwf.
  assert (Hpos := dict_ok_used_pos _ Hwf Hused).
  rewrite (move_to_end_found self key false ix Hused Hhash Hlook Hix). cbv zeta.
  split.
  - intros E. unfold move_to_end_first. rewrite (proj2 (Z.eqb_eq _ _) E).
    reflexivity.
  - intros Hne' Hoff0 Hstored Halloc. unfold front_reserve in *.
    destruct (move_to_end_first_resizes self key _ ix Hwf Hsz Hlaw Hpos Hlook Hix
                Hstored Hne' Hoff0 Halloc) as [od' Hmove].
    destruct (move_to_end_first_resized self _ _ ix od' Hwf Hsz Hlaw Hpos Hne' Hoff0
                Hmove)
      as (keys' & r & hashpos & Hres & Hsize & Haddr & Hu & Hident & Hprep & ->).
    cbv zeta in Hres, Hprep.
    destruct (resize_room_first _ Hwf Hsz Hpos) as (Hreserve & _ & _).
    assert (Hfacts := moved_first_facts self _ _ r hashpos Hprep).
    cbv zeta in Hfacts. cbn [ma_offset ma_keys] in Hfacts.
    assert (Hge := front_reserve_ge (od_dict self) ltac:(lia)).
    unfold front_reserve in Hge.
    destruct (Hfacts ltac:(lia)) as (Hrel & Hoff' & _ & l1 & l2 & Hl & Hl').
    assert (Hok' := prep_ok _ _ _ _ _ Hprep).
    exists keys', r, hashpos. eexists. exists l1, l2.
    split; [exact Hres|].
    split; [intros j Hj; apply (ok_before _ Hok' j Hj)|].
    split; [exact (prep_live _ _ _ _ _ Hprep)|].
    split; [exact Hident|].
    split; [exact (prep_key _ _ _ _ _ Hprep)|].
    split; [exact (prep_refers _ _ _ _ _ Hprep)|].
    split; [exact Hmove|].
    split; [exact Hoff'|]. split; [exact Hrel|]. split; [exact Hl | exact Hl'].
Qed.

End MoveToFront.

Lemma move_to_front_reserves_witness :
  exists keys' r hashpos od' l1 l2,
    dictresize (rt := Sample.runtime) (od_dict Sample.od3)
      (GROWTH_RATE (od_dict Sample.od3) + front_reserve (od_dict Sample.od3))
      (front_reserve (od_dict Sample.od3))
    = Ok {| ma_used := ma_used (od_dict Sample.od3); ma_keys := keys';
            ma_offset := front_reserve (od_dict Sample.od3) |} /\
    (forall j, j < front_reserve (od_dict Sample.od3) ->
       is_free (DK_ENTRIES keys' j) = true) /\
    live_entries {| ma_used := ma_used (od_dict Sample.od3); ma_keys := keys';
                    ma_offset := front_reserve (od_dict Sample.od3) |}
    = live_entries (od_dict Sample.od3) /\
    lookdict_ident keys' (me_key (DK_ENTRIES (ma_keys (od_dict Sample.od3)) 1))
      (PyObject_Hash (Runtime := Sample.runtime) 18) = Some r /\
    me_key (DK_ENTRIES keys' r)
    = me_key (DK_ENTRIES (ma_keys (od_dict Sample.od3)) 1) /\
    dk_get_index keys' hashpos = r /\
    OrderedDict_move_to_end_impl (rt := Sample.runtime) Sample.od3 18 false = Ok od' /\
    ma_offset (od_dict od') = front_reserve (od_dict Sample.od3) - 1 /\
    relocated keys' (ma_keys (od_dict od')) hashpos r
      (front_reserve (od_dict Sample.od3) - 1) /\
    live_entries (od_dict Sample.od3) = l1 ++ [DK_ENTRIES keys' r] ++ l2 /\
    live_entries (od_dict od') = [DK_ENTRIES keys' r] ++ l1 ++ l2.
Proof.
  apply (move_to_front_reserves (rt := Sample.runtime) Sample.od3 18 1).
  - reflexivity.
  - intros n. reflexivity.
  - simpl. lia.
  - simpl. lia.
  - reflexivity.
  - lia.
  - simpl. lia.
  - reflexivity.
  - reflexivity.
  - vm_compute. lia.
Defined.

(** ** C7: the capacity a reorder asks for *)

Section Capacity.
Context {rt : Runtime}.

Lemma growth_rate_request (mp : PyDictObject) (last : bool) :
  GROWTH_RATE mp + (if last then ma_offset mp else Z.quot (ma_used mp) 2 + 2)
  = resize_request mp last.
Proof. unfold GROWTH_RATE, resize_request, front_reserve. lia. Qed.

(** C7: when [move_to_end] resizes (the entry is not in place and, for
    [last], no usable slot is left, resp., for the front, the begin offset is
    0) and the allocation succeeds, the call returns and the dict is on a
    table of [resize_capacity (2*used + (dk_size >> 1) + offset)] cells, with
    [offset] the current begin offset, resp. [used/2 + 2]: the least power of
    two that is at least 8 and at least the request. *)
Theorem reorder_resize_capacity (self : PyODictObject) (key : PyObject)
    (last : bool) (ix : Z) :
  dict_wf (od_dict self) = true ->
  (forall n, USABLE_FRACTION n = Z.shiftl n 1 / 3) ->
  ma_used (od_dict self) <> 0 -> PyObject_Hash key <> -1 ->
  lookdict (od_dict self) key (PyObject_Hash key) = Some ix -> 0 <= ix ->
  me_hash (DK_ENTRIES (ma_keys (od_dict self)) ix) = PyObject_Hash key ->
  (if last
   then ix <> dk_nentries (ma_keys (od_dict self)) - 1 /\
        dk_usable (ma_keys (od_dict self)) = 0
   else ix <> ma_offset (od_dict self) /\ ma_offset (od_dict self) = 0) ->
  new_keys_object (resize_capacity (resize_request (od_dict self) last)) <> NULL ->
  exists od',
    OrderedDict_move_to_end_impl self key last = Ok od' /\
    dk_size (ma_keys (od_dict od'))
    = resize_capacity (resize_request (od_dict self) last) /\
    (exists k : nat,
       resize_capacity (resize_request (od_dict self) last) = 2 ^ Z.of_nat k) /\
    8 <= resize_capacity (resize_request (od_dict self) last) /\
    resize_request (od_dict self) last
    <= resize_capacity (resize_request (od_dict self) last) /\
    forall j, 0 <= j -> 8 <= 2 ^ j -> resize_request (od_dict self) last <= 2 ^ j ->
      resize_capacity (resize_request (od_dict self) last) <= 2 ^ j.
Proof.
  intros Hwf Hlaw Hused Hhash Hlook Hix Hstored Hcase Halloc.
  assert (Hsz := dict_wf_size _ Hwf). apply dict_wf_ok in Hwf.
  assert (Hpos := dict_ok_used_pos _ Hwf Hused).
  rewrite (move_to_end_found self key last ix Hused Hhash Hlook Hix). cbv zeta.
  rewrite <- (growth_rate_request (od_dict self) last) in *.
  assert (Hsize : exists od',
            (if last
             then move_to_end_last self
                    (me_key (DK_ENTRIES (ma_keys (od_dict self)) ix))
                    (PyObject_Hash key) ix
             else move_to_end_first self
                    (me_key (DK_ENTRIES (ma_keys (od_dict self)) ix))
                    (PyObject_Hash key) ix) = Ok od' /\
            dk_size (ma_keys (od_dict od'))
            = resize_capacity
                (GROWTH_RATE (od_dict self)
                 + (if last then ma_offset (od_dict self)
                    else Z.quot (ma_used (od_dict self)) 2 + 2))).
  { destruct last; destruct Hcase as [Hne Hzero].
    - destruct (move_to_end_last_resizes self key _ ix Hwf Hsz Hlaw Hpos Hlook Hix
                  Hstored Hne Hzero Halloc) as [od' Hmove].
      exists od'. split; [exact Hmove|].
      destruct (move_to_end_last_resized self _ _ ix od' Hwf Hsz Hlaw Hpos Hne Hzero
                  Hmove) as (keys' & r & hashpos & _ & Hsize & _ & _ & _ & _ & ->).
      exact Hsize.
    - destruct (move_to_end_first_resizes self key _ ix Hwf Hsz Hlaw Hpos Hlook Hix
                  Hstored Hne Hzero Halloc) as [od' Hmove].
      exists od'. split; [exact Hmove|].
      destruct (move_to_end_first_resized self _ _ ix od' Hwf Hsz Hlaw Hpos Hne Hzero
                  Hmove) as (keys' & r & hashpos & _ & Hsize & _ & _ & _ & _ & ->).
      exact Hsize. }
  destruct Hsize as (od' & Hmove & Hsize).
  exists od'. split; [exact Hmove|]. split; [exact Hsize|].
  split; [destruct (resize_capacity_pow2
                      (GROWTH_RATE (od_dict self)
                       + (if last then ma_offset (od_dict self)
                          else Z.quot (ma_used (od_dict self)) 2 + 2)))
            as (k & _ & Hk); eauto|].
  split; [apply resize_capacity_ge|]. split; [apply resize_capacity_ge|].
  intros j. apply resize_capacity_least.
Qed.

End Capacity.

Lemma reorder_resize_capacity_witness :
  exists od',
    OrderedDict_move_to_end_impl (rt := Sample.runtime) Sample.od3 18 false = Ok od' /\
    dk_size (ma_keys (od_dict od'))
    = resize_capacity (resize_request (od_dict Sample.od3) false) /\
    (exists k : nat,
       resize_capacity (resize_request (od_dict Sample.od3) false) = 2 ^ Z.of_nat k) /\
    8 <= resize_capacity (resize_request (od_dict Sample.od3) false) /\
    resize_request (od_dict Sample.od3) false
    <= resize_capacity (resize_request (od_dict Sample.od3) false) /\
    forall j, 0 <= j -> 8 <= 2 ^ j ->
      resize_request (od_dict Sample.od3) false <= 2 ^ j ->
      resize_capacity (resize_request (od_dict Sample.od3) false) <= 2 ^ j.
Proof.
  apply (reorder_resize_capacity (rt := Sample.runtime) Sample.od3 18 false 1).
  - reflexivity.
  - intros n. reflexivity.
  - simpl. lia.
  - simpl. lia.
  - reflexivity.
  - lia.
  - reflexivity.
  - split; [simpl; lia | reflexivity].
  - vm_compute. lia.
Defined.

Example resize_request_od3 :
  resize_request (od_dict Sample.od3) false = 13 /\
  resize_capacity 13 = 16 /\ resize_capacity 3 = 8 /\ resize_capacity 16 = 16.
Proof. repeat split; reflexivity. Qed.

(** ** C8: the outcomes of [move_to_end] *)

Section Outcomes.
Context {rt : Runtime}.

Lemma lookdict_visit_answer (keys : PyDictKeysObject) (key : PyObject) (c r : Z) :
  lookdict_visit keys key c = Some r ->
  r = DKIX_EMPTY \/ r = DKIX_ERROR \/ 0 <= r.
Proof.
  unfold lookdict_visit.
  destruct (dk_get_index keys c =? DKIX_EMPTY); [intros [= <-]; auto|].
  destruct (0 <=? dk_get_index keys c) eqn:E; [|discriminate].
  apply Z.leb_le in E.
  destruct (PyObject_RichCompareBool _ key <? 0); [intros [= <-]; auto|].
  destruct (0 <? PyObject_RichCompareBool _ key); [|discriminate].
  intros [= <-]. auto.
Qed.

Lemma lookdict_answer (mp : PyDictObject) (key : PyObject) (hash ix : Z) :
  lookdict mp key hash = Some ix ->
  ix = DKIX_EMPTY \/ ix = DKIX_ERROR \/ 0 <= ix.
Proof.
  unfold lookdict. rewrite probe_search_first. intros (n & _ & Hv & _).
  exact (lookdict_visit_answer _ _ _ _ Hv).
Qed.

(** [lookdict] returns on a well-formed table. *)
Lemma lookdict_total (mp : PyDictObject) (key : PyObject) (hash : Z) :
  keys_ok (ma_keys mp) -> is_Some (lookdict mp key hash).
Proof.
  intros Hok. destruct (ok_empty _ Hok) as (c & Hc & Hempty).
  unfold lookdict. apply (probe_search_total_table _ _ hash c Hok Hc).
  unfold lookdict_visit. rewrite Hempty. simpl. eauto.
Qed.

(** How a call of [move_to_end] on a well-formed dict ends, case by case. *)
Lemma move_to_end_table (self : PyODictObject) (key : PyObject) (last : bool) :
  dict_wf (od_dict self) = true ->
  (forall n, USABLE_FRACTION n = Z.shiftl n 1 / 3) ->
  (forall ix, lookdict (od_dict self) key (PyObject_Hash key) = Some ix -> 0 <= ix ->
     me_hash (DK_ENTRIES (ma_keys (od_dict self)) ix) = PyObject_Hash key) ->
  let r := OrderedDict_move_to_end_impl self key last in
  (ma_used (od_dict self) = 0 /\ r = Error (KeyError key) self) \/
  (ma_used (od_dict self) <> 0 /\ PyObject_Hash key = -1 /\
   r = Error HashFailed self) \/
  (ma_used (od_dict self) <> 0 /\ PyObject_Hash key <> -1 /\
   exists ix, lookdict (od_dict self) key (PyObject_Hash key) = Some ix /\
     (ix = DKIX_EMPTY /\ r = Error (KeyError key) self \/
      ix = DKIX_ERROR /\ r = Error CompareFailed self \/
      0 <= ix /\ ((exists od', r = Ok od') \/ r = Error MemoryError self))).
Proof.
  intros Hwf Hlaw Hstored r.
  assert (Hsz := dict_wf_size _ Hwf). apply dict_wf_ok in Hwf.
  destruct (Z.eq_dec (ma_used (od_dict self)) 0) as [Hused|Hused].
  { left. split; [exact Hused|]. unfold r, OrderedDict_move_to_end_impl, _odict_EMPTY.
    rewrite Hused. reflexivity. }
  right. destruct (Z.eq_dec (PyObject_Hash key) (-1)) as [Hhash|Hhash].
  { left. split; [exact Hused|]. split; [exact Hhash|].
    unfold r, OrderedDict_move_to_end_impl, _odict_EMPTY.
    rewrite (proj2 (Z.eqb_neq _ _) Hused), Hhash. reflexivity. }
  right. split; [exact Hused|]. split; [exact Hhash|].
  destruct (lookdict_total (od_dict self) key (PyObject_Hash key) (ok_keys _ Hwf))
    as [ix Hlook].
  exists ix. split; [exact Hlook|].
  destruct (lookdict_answer _ _ _ _ Hlook) as [E | [E | Hix]].
  { left. split; [exact E|]. unfold r, OrderedDict_move_to_end_impl, _odict_EMPTY.
    rewrite (proj2 (Z.eqb_neq _ _) Hused), (proj2 (Z.eqb_neq _ _) Hhash), Hlook, E.
    reflexivity. }
  { right. left. split; [exact E|].
    unfold r, OrderedDict_move_to_end_impl, _odict_EMPTY.
    rewrite (proj2 (Z.eqb_neq _ _) Hused), (proj2 (Z.eqb_neq _ _) Hhash), Hlook, E.
    reflexivity. }
  right. right. split; [exact Hix|].
  assert (Hpos := dict_ok_used_pos _ Hwf Hused).
  specialize (Hstored ix Hlook Hix).
  unfold r. rewrite (move_to_end_found self key last ix Hused Hhash Hlook Hix).
  cbv zeta. destruct last.
  - destruct (Z.eq_dec ix (dk_nentries (ma_keys (od_dict self)) - 1)) as [E|E].
    { left. exists self. unfold move_to_end_last.
      rewrite (proj2 (Z.eqb_eq _ _) E). reflexivity. }
    destruct (Z.eq_dec (dk_usable (ma_keys (od_dict self))) 0) as [Hu|Hu].
    + destruct (Z.eq_dec
                  (new_keys_object
                     (resize_capacity
                        (GROWTH_RATE (od_dict self) + ma_offset (od_dict self))))
                  NULL) as [Hnull|Halloc].
      * right. apply move_to_end_last_no_memory; assumption.
      * left. apply (move_to_end_last_resizes self key); assumption.
    + left. destruct (move_to_end_last_stays self key _ ix Hwf Hlook Hix E Hu)
        as (hashpos & _ & Hmove).
      eauto.
  - destruct (Z.eq_dec ix (ma_offset (od_dict self))) as [E|E].
    { left. exists self. unfold move_to_end_first.
      rewrite (proj2 (Z.eqb_eq _ _) E). reflexivity. }
    destruct (Z.eq_dec (ma_offset (od_dict self)) 0) as [Ho|Ho].
    + destruct (Z.eq_dec
                  (new_keys_object
                     (resize_capacity
                        (GROWTH_RATE (od_dict self)
                         + (Z.quot (ma_used (od_dict self)) 2 + 2))))
                  NULL) as [Hnull|Halloc].
      * right. apply move_to_end_first_no_memory; assumption.
      * left. apply (move_to_end_first_resizes self key); assumption.
    + left. destruct (move_to_end_first_stays self key _ ix Hwf Hlook Hix E Ho)
        as (hashpos & _ & Hmove).
      eauto.
Qed.


End Outcomes.



(** ** C9: what a successful [move_to_end] leaves alone *)

Section Frame.
Context {rt : Runtime}.


End Frame.


Example od3_after_touch :
  exists od',
    OrderedDict_move_to_end_impl (rt := Sample.runtime) Sample.od3 10 true = Ok od' /\
    items (od_dict od') = [(18, 101); (12, 102); (10, 100)].
Proof. eexists. split; [vm_compute; reflexivity | reflexivity]. Qed.

(** ** A state the move to the front leaves that is not well formed

    The [last=False] block decrements [dk_usable] without the test the
    [last=True] block makes ([keys->dk_usable == 0]).  On [od_full], reached
    from [od_front] by three insertions, the entry array is used up to its
    end and two leading slots are reserved: moving 12 to the front succeeds
    and keeps the items, but leaves [dk_usable] at [-1] and [dk_nentries]
    beyond the length of the entry array.  The theorems above assume
    [dict_wf], which this state does not satisfy: a later
    [move_to_end(key, last=True)] sees [dk_usable <> 0], does not resize, and
    addresses slot [dk_nentries] of an array that has no such slot. *)

Example od_full_reached :
  exists od1 od2,
    PyODict_SetItem (rt := Sample.runtime) Sample.od_front 1 201 = Ok od1 /\
    PyODict_SetItem (rt := Sample.runtime) od1 4 204 = Ok od2 /\
    PyODict_SetItem (rt := Sample.runtime) od2 5 205 = Ok Sample.od_full.
Proof.
  do 2 eexists.
  split; [vm_compute; reflexivity|].
  split; [vm_compute; reflexivity|].
  vm_compute. reflexivity.
Qed.

Example od_full_well_formed : dict_wf (od_dict Sample.od_full) = true.
Proof. reflexivity. Qed.

Example move_to_front_overdraws_usable :
  exists od',
    OrderedDict_move_to_end_impl (rt := Sample.runtime) Sample.od_full 12 false
    = Ok od' /\
    items (od_dict od')
    = [(12, 102); (18, 101); (10, 100); (1, 201); (4, 204); (5, 205)] /\
    dk_usable (ma_keys (od_dict od')) = -1 /\
    Z.of_nat (length (dk_entries (ma_keys (od_dict od'))))
    < dk_nentries (ma_keys (od_dict od')) /\
    dict_wf (od_dict od') = false.
Proof.
  eexists. split; [vm_compute; reflexivity|].
  split_and!; vm_compute; reflexivity.
Qed.

(** ** Walking the entry array *)

Lemma slots_between_cons (b n : Z) (ep : list PyDictKeyEntry) :
  0 <= b < n -> b < Z.of_nat (length ep) ->
  slots_between b n ep = aget entry_zero ep b :: slots_between (b + 1) n ep.
Proof.
  intros Hb Hlen. rewrite (slots_between_split b (b + 1) n) by lia.
  rewrite slots_between_one by lia. reflexivity.
Qed.

Lemma slots_between_snoc (b n : Z) (ep : list PyDictKeyEntry) :
  0 <= b <= n -> n < Z.of_nat (length ep) ->
  slots_between b (n + 1) ep = slots_between b n ep ++ [aget entry_zero ep n].
Proof.
  intros Hb Hlen. rewrite (slots_between_split b n (n + 1)) by lia.
  rewrite slots_between_one by lia. reflexivity.
Qed.

Lemma is_live_in_array (ep : list PyDictKeyEntry) (i : Z) :
  is_live (aget entry_zero ep i) = true -> 0 <= i < Z.of_nat (length ep).
Proof.
  intros H. destruct (Z_lt_dec i 0) as [Hneg|Hnn];
    [rewrite aget_out_of_range in H by lia; discriminate|].
  destruct (Z_lt_dec i (Z.of_nat (length ep))) as [Hlt|Hge]; [lia|].
  rewrite aget_out_of_range in H by lia. discriminate.
Qed.

(** A slot without a value adds nothing to the live entries of a window. *)
Lemma filter_live_hole (ep : list PyDictKeyEntry) (i : Z) :
  0 <= i -> is_live (aget entry_zero ep i) = false ->
  List.filter is_live (slots_between i (i + 1) ep) = [].
Proof.
  intros Hi Hdead. destruct (Z_lt_dec i (Z.of_nat (length ep))) as [Hlt|Hge].
  - rewrite slots_between_one by lia. cbn [List.filter]. rewrite Hdead. reflexivity.
  - rewrite slots_between_beyond by lia. reflexivity.
Qed.

Lemma is_live_value (e : PyDictKeyEntry) :
  is_live e = negb (me_value e =? NULL).
Proof. reflexivity. Qed.

(** The loop of the forward iterator stops at the first slot at or after
    [pos] that is live, or at [n]. *)
Lemma skip_holes_up_spec (keys : PyDictKeysObject) (n : Z) :
  forall (m : nat) (pos : Z),
  0 <= pos -> m = Z.to_nat (n - pos) ->
  let q := skip_holes_up m keys n pos in
  pos <= q /\
  List.filter is_live (slots_between pos n (dk_entries keys)) =
    if q <? n
    then DK_ENTRIES keys q ::
         List.filter is_live (slots_between (q + 1) n (dk_entries keys))
    else [].
Proof.
  induction m as [|m IH]; intros pos Hpos Hm; cbn [skip_holes_up].
  - split; [lia|]. rewrite slots_between_empty by lia.
    rewrite (proj2 (Z.ltb_ge pos n)) by lia. reflexivity.
  - assert (Hlt : pos < n) by lia. rewrite (proj2 (Z.ltb_lt pos n) Hlt).
    cbn [andb].
    destruct (me_value (DK_ENTRIES keys pos) =? NULL) eqn:E.
    + destruct (IH (pos + 1) ltac:(lia) ltac:(lia)) as [Hq Hf].
      split; [lia|]. rewrite <- Hf.
      rewrite (slots_between_split pos (pos + 1) n), List.filter_app by lia.
      rewrite filter_live_hole; [reflexivity | lia|].
      unfold DK_ENTRIES in E. rewrite is_live_value, E. reflexivity.
    + split; [lia|]. rewrite (proj2 (Z.ltb_lt pos n) Hlt).
      assert (Hlive : is_live (aget entry_zero (dk_entries keys) pos) = true).
      { unfold DK_ENTRIES in E. rewrite is_live_value, E. reflexivity. }
      assert (Hin := is_live_in_array _ _ Hlive).
      rewrite slots_between_cons by lia. cbn [List.filter]. rewrite Hlive.
      reflexivity.
Qed.

(** The loop of the reversed iterator stops at the last slot at or before
    [pos] that is live, or at [offset - 1]. *)
Lemma skip_holes_down_spec (keys : PyDictKeysObject) (offset : Z) :
  forall (m : nat) (pos : Z),
  0 <= offset -> offset - 1 <= pos -> m = Z.to_nat (pos - offset + 1) ->
  let q := skip_holes_down m keys offset pos in
  offset - 1 <= q <= pos /\
  List.filter is_live (slots_between offset (pos + 1) (dk_entries keys)) =
    if offset <=? q
    then List.filter is_live (slots_between offset q (dk_entries keys))
         ++ [DK_ENTRIES keys q]
    else [].
Proof.
  induction m as [|m IH]; intros pos Hoff Hpos Hm; cbn [skip_holes_down].
  - split; [lia|]. rewrite slots_between_empty by lia.
    rewrite (proj2 (Z.leb_gt offset pos)) by lia. reflexivity.
  - assert (Hle : offset <= pos) by lia. rewrite (proj2 (Z.leb_le offset pos) Hle).
    cbn [andb].
    destruct (me_value (DK_ENTRIES keys pos) =? NULL) eqn:E.
    + destruct (IH (pos - 1) Hoff ltac:(lia) ltac:(lia)) as [Hq Hf].
      split; [lia|]. replace (pos - 1 + 1) with pos in Hf by lia. rewrite <- Hf.
      rewrite (slots_between_split offset pos (pos + 1)), List.filter_app by lia.
      rewrite filter_live_hole; [apply app_nil_r | lia|].
      unfold DK_ENTRIES in E. rewrite is_live_value, E. reflexivity.
    + split; [lia|]. rewrite (proj2 (Z.leb_le offset pos) Hle).
      assert (Hlive : is_live (aget entry_zero (dk_entries keys) pos) = true).
      { unfold DK_ENTRIES in E. rewrite is_live_value, E. reflexivity. }
      assert (Hin := is_live_in_array _ _ Hlive).
      rewrite slots_between_snoc by lia. rewrite List.filter_app.
      cbn [List.filter]. rewrite Hlive. reflexivity.
Qed.

(** ** One advance of a live iterator *)

Section Advance.
Context {rt : Runtime}.

Lemma iter_valid_facts (di : odictiterobject) (od : PyODictObject) :
  iter_valid di od = true ->
  di_odict di <> NULL /\ od_state od = di_state di /\
  dk_addr (ma_keys (od_dict od)) = di_keys di /\ di_size di = PyODict_SIZE od.
Proof.
  unfold iter_valid. rewrite !andb_true_iff, negb_true_iff.
  intros [[[H1 H2] H3] H4]. apply Z.eqb_neq in H1. apply Z.eqb_eq in H2, H3, H4.
  auto.
Qed.

Lemma iter_valid_set_pos (di : odictiterobject) (od : PyODictObject) (pos : Z) :
  iter_valid (set_pos di pos) od = iter_valid di od.
Proof. reflexivity. Qed.

(** An advance of an iterator whose snapshot is current gets past the
    checks, to the loop that skips the holes. *)
Lemma iternext_valid (di : odictiterobject) (od : PyODictObject) :
  iter_valid di od = true ->
  odictiter_iternext di od =
    let dk := ma_keys (od_dict od) in
    if negb (Z.land (kind di) _odict_ITER_REVERSED =? 0) then
      let offset := ma_offset (od_dict od) in
      let pos :=
        skip_holes_down (Z.to_nat (di_pos di - offset + 1)) dk offset (di_pos di) in
      if pos <? 0 then (Exhausted, clear_odict di)
      else iter_element (set_pos di (pos - 1)) (DK_ENTRIES dk pos)
    else
      let n := dk_nentries dk in
      let pos := skip_holes_up (Z.to_nat (n - di_pos di)) dk n (di_pos di) in
      if n <=? pos then (Exhausted, clear_odict di)
      else iter_element (set_pos di (pos + 1)) (DK_ENTRIES dk pos).
Proof.
  intros Hv. apply iter_valid_facts in Hv as (H1 & H2 & H3 & H4).
  unfold odictiter_iternext.
  rewrite (proj2 (Z.eqb_neq _ _) H1), H2, H3, H4, !Z.eqb_refl. reflexivity.
Qed.

Lemma iter_element_built (di : odictiterobject) (e : PyDictKeyEntry) :
  can_build (kind di) = true -> incref_ok (kind di) e = true ->
  iter_element di e = (Yield (element_of (kind di) e), di).
Proof.
  unfold can_build, incref_ok, iter_element, element_of.
  destruct (Z.land (kind di) _odict_ITER_VALUES =? 0).
  { intros _ H. apply negb_true_iff in H. rewrite H. reflexivity. }
  destruct (Z.land (kind di) _odict_ITER_KEYS =? 0).
  { intros _ H. apply negb_true_iff in H. rewrite H. reflexivity. }
  simpl. intros -> H. apply andb_prop in H as [H1 H2].
  apply negb_true_iff in H1, H2. rewrite H1, H2. reflexivity.
Qed.

(** [Py_INCREF] of a [NULL] pointer: the advance faults. *)
Lemma iter_element_faults (di : odictiterobject) (e : PyDictKeyEntry) :
  incref_ok (kind di) e = false -> iter_element di e = (Faulted, di).
Proof.
  unfold incref_ok, iter_element.
  destruct (Z.land (kind di) _odict_ITER_VALUES =? 0).
  { intros H. apply negb_false_iff in H. rewrite H. reflexivity. }
  destruct (Z.land (kind di) _odict_ITER_KEYS =? 0).
  { intros H. apply negb_false_iff in H. rewrite H. reflexivity. }
  intros H. rewrite <- negb_orb in H. apply negb_false_iff in H. rewrite H.
  reflexivity.
Qed.

Lemma incref_ok_free (kind0 : Z) (e : PyDictKeyEntry) :
  is_free e = true -> incref_ok kind0 e = false.
Proof.
  unfold is_free, incref_ok. intros H. apply andb_prop in H as [-> ->].
  destruct (Z.land kind0 _odict_ITER_VALUES =? 0); [reflexivity|].
  destruct (Z.land kind0 _odict_ITER_KEYS =? 0); reflexivity.
Qed.

(** A live entry has its value; an iterator that returns keys needs its
    key as well. *)
Lemma incref_ok_live (kind0 : Z) (e : PyDictKeyEntry) :
  is_live e = true ->
  negb (me_key e =? NULL) = true \/
  (Z.land kind0 _odict_ITER_VALUES <> 0 /\ Z.land kind0 _odict_ITER_KEYS = 0) ->
  incref_ok kind0 e = true.
Proof.
  unfold is_live, incref_ok. intros Hv [Hk | [H1 H2]].
  - rewrite Hk, Hv.
    destruct (Z.land kind0 _odict_ITER_VALUES =? 0); [reflexivity|].
    destruct (Z.land kind0 _odict_ITER_KEYS =? 0); reflexivity.
  - rewrite (proj2 (Z.eqb_neq _ _) H1), H2. exact Hv.
Qed.

Lemma live_incref_ok (kind0 : Z) (mp : PyDictObject) :
  keys_present mp = true \/
  (Z.land kind0 _odict_ITER_VALUES <> 0 /\ Z.land kind0 _odict_ITER_KEYS = 0) ->
  Forall (fun e => incref_ok kind0 e = true) (live_entries mp).
Proof.
  intros H. apply List.Forall_forall. intros e He.
  apply incref_ok_live.
  - unfold live_entries in He. apply filter_In in He. apply He.
  - destruct H as [H|H]; [left | right; exact H].
    unfold keys_present in H. rewrite forallb_forall in H. apply H, He.
Qed.

(** One advance of a forward iterator: exhaustion when no live entry is
    ahead, else the first of them, and the position after it. *)
Lemma forward_step (di : odictiterobject) (od : PyODictObject) :
  iter_valid di od = true -> Z.land (kind di) _odict_ITER_REVERSED = 0 ->
  can_build (kind di) = true -> 0 <= di_pos di ->
  match entries_ahead (od_dict od) (di_pos di) with
  | [] => odictiter_iternext di od = (Exhausted, clear_odict di)
  | e :: rest =>
      incref_ok (kind di) e = true ->
      exists q, di_pos di <= q < dk_nentries (ma_keys (od_dict od)) /\
        odictiter_iternext di od
        = (Yield (element_of (kind di) e), set_pos di (q + 1)) /\
        rest = entries_ahead (od_dict od) (q + 1)
  end.
Proof.
  intros Hv Hfwd Hbuild Hpos. rewrite (iternext_valid di od Hv). cbv zeta.
  rewrite Hfwd. cbn [Z.eqb negb].
  destruct (skip_holes_up_spec (ma_keys (od_dict od))
              (dk_nentries (ma_keys (od_dict od))) _ (di_pos di) Hpos eq_refl)
    as [Hq Hf].
  unfold entries_ahead. rewrite Hf.
  set (q := skip_holes_up _ _ _ _) in *.
  destruct (q <? dk_nentries (ma_keys (od_dict od))) eqn:E.
  - apply Z.ltb_lt in E. rewrite (proj2 (Z.leb_gt _ _) E). intros Hinc.
    exists q. split; [split; [exact Hq | exact E]|]. split; [|reflexivity].
    apply (iter_element_built (set_pos di (q + 1))); [exact Hbuild | exact Hinc].
  - apply Z.ltb_ge in E. rewrite (proj2 (Z.leb_le _ _) E). reflexivity.
Qed.

(** One advance of a reversed iterator: the last live entry at or before its
    position when there is one.  When there is none, the loop has stopped at
    slot [ma_offset - 1]: the test [pos < 0] sees the end when the begin
    offset is 0; with a begin offset above 0 the advance goes on to build an
    element from the entry of slot [ma_offset - 1]. *)
Lemma reverse_step (di : odictiterobject) (od : PyODictObject) :
  iter_valid di od = true -> Z.land (kind di) _odict_ITER_REVERSED <> 0 ->
  can_build (kind di) = true ->
  0 <= ma_offset (od_dict od) -> ma_offset (od_dict od) - 1 <= di_pos di ->
  match entries_behind (od_dict od) (di_pos di) with
  | [] =>
      odictiter_iternext di od =
        if ma_offset (od_dict od) =? 0 then (Exhausted, clear_odict di)
        else iter_element (set_pos di (ma_offset (od_dict od) - 2))
               (DK_ENTRIES (ma_keys (od_dict od)) (ma_offset (od_dict od) - 1))
  | e :: rest =>
      incref_ok (kind di) e = true ->
      exists q, ma_offset (od_dict od) <= q <= di_pos di /\
        odictiter_iternext di od
        = (Yield (element_of (kind di) e), set_pos di (q - 1)) /\
        rest = entries_behind (od_dict od) (q - 1)
  end.
Proof.
  intros Hv Hrev Hbuild Hoff Hpos. rewrite (iternext_valid di od Hv). cbv zeta.
  rewrite (proj2 (Z.eqb_neq _ _) Hrev). cbn [negb].
  destruct (skip_holes_down_spec (ma_keys (od_dict od)) (ma_offset (od_dict od))
              _ (di_pos di) Hoff Hpos eq_refl) as [Hq Hf].
  unfold entries_behind. rewrite Hf.
  set (q := skip_holes_down _ _ _ _) in *.
  destruct (ma_offset (od_dict od) <=? q) eqn:E.
  - apply Z.leb_le in E. rewrite rev_unit.
    rewrite (proj2 (Z.ltb_ge q 0)) by lia. intros Hinc.
    exists q. split; [split; [exact E | apply Hq]|]. split.
    + apply (iter_element_built (set_pos di (q - 1))); [exact Hbuild | exact Hinc].
    + replace (q - 1 + 1) with q by lia. reflexivity.
  - apply Z.leb_gt in E. cbn [rev].
    assert (Eq : q = ma_offset (od_dict od) - 1) by lia.
    rewrite Eq. destruct (ma_offset (od_dict od) =? 0) eqn:E0.
    + apply Z.eqb_eq in E0. rewrite (proj2 (Z.ltb_lt _ 0)) by lia. reflexivity.
    + apply Z.eqb_neq in E0. rewrite (proj2 (Z.ltb_ge _ 0)) by lia.
      replace (ma_offset (od_dict od) - 1 - 1) with (ma_offset (od_dict od) - 2) by lia.
      reflexivity.
Qed.

(** ** Iterating an ordered dict that does not change *)

Lemma advance_all_cons (di : odictiterobject) (od : PyODictObject)
    (rest : list PyODictObject) :
  fst (odictiter_iternext di od) <> Faulted ->
  advance_all di (od :: rest) =
  fst (odictiter_iternext di od) :: advance_all (snd (odictiter_iternext di od)) rest.
Proof.
  simpl. destruct (odictiter_iternext di od) as [[x| |e|] di']; cbn [fst snd];
    [reflexivity.. | intros H; contradiction].
Qed.

Lemma advance_all_fault (di : odictiterobject) (od : PyODictObject)
    (rest : list PyODictObject) :
  fst (odictiter_iternext di od) = Faulted -> advance_all di (od :: rest) = [Faulted].
Proof.
  simpl. destruct (odictiter_iternext di od) as [[x| |e|] di']; cbn [fst];
    [discriminate.. | reflexivity].
Qed.

Lemma advance_forward (od : PyODictObject) (later : list PyODictObject) :
  forall (l : list PyDictKeyEntry) (di : odictiterobject),
  iter_valid di od = true -> Z.land (kind di) _odict_ITER_REVERSED = 0 ->
  can_build (kind di) = true -> 0 <= di_pos di ->
  entries_ahead (od_dict od) (di_pos di) = l ->
  Forall (fun e => incref_ok (kind di) e = true) l ->
  advance_all di (replicate (length l) od ++ od :: later) =
  List.map (fun e => Yield (element_of (kind di) e)) l
  ++ Exhausted :: List.map (fun _ => Exhausted) later.
Proof.
  induction l as [|e l IH]; intros di Hv Hfwd Hbuild Hpos Hl Hinc;
    pose proof (forward_step di od Hv Hfwd Hbuild Hpos) as Hstep;
    rewrite Hl in Hstep.
  - cbn [length replicate app List.map].
    rewrite advance_all_cons by (rewrite Hstep; discriminate). rewrite Hstep.
    cbn [fst snd]. f_equal. apply advance_all_without_dict. reflexivity.
  - inversion Hinc as [|? ? He Hrest']; subst.
    destruct (Hstep He) as (q & Hq & Hnext & Hrest).
    cbn [length replicate app List.map].
    rewrite advance_all_cons by (rewrite Hnext; discriminate). rewrite Hnext.
    cbn [fst snd]. f_equal.
    apply (IH (set_pos di (q + 1))); try assumption.
    + simpl. lia.
    + simpl. symmetry. exact Hrest.
Qed.

Lemma advance_reverse (od : PyODictObject) (rest : list PyODictObject) :
  forall (l : list PyDictKeyEntry) (di : odictiterobject),
  iter_valid di od = true -> Z.land (kind di) _odict_ITER_REVERSED <> 0 ->
  can_build (kind di) = true ->
  0 <= ma_offset (od_dict od) -> ma_offset (od_dict od) - 1 <= di_pos di ->
  entries_behind (od_dict od) (di_pos di) = l ->
  Forall (fun e => incref_ok (kind di) e = true) l ->
  exists pos,
    ma_offset (od_dict od) - 1 <= pos /\
    entries_behind (od_dict od) pos = [] /\
    advance_all di (replicate (length l) od ++ rest) =
    List.map (fun e => Yield (element_of (kind di) e)) l
    ++ advance_all (set_pos di pos) rest.
Proof.
  induction l as [|e l IH]; intros di Hv Hrev Hbuild Hoff Hpos Hl Hinc.
  - exists (di_pos di). split; [exact Hpos|]. split; [exact Hl|].
    destruct di; reflexivity.
  - pose proof (reverse_step di od Hv Hrev Hbuild Hoff Hpos) as Hstep.
    rewrite Hl in Hstep. inversion Hinc as [|? ? He Hrest']; subst.
    destruct (Hstep He) as (q & Hq & Hnext & Hrest).
    destruct (IH (set_pos di (q - 1)) Hv Hrev Hbuild Hoff ltac:(simpl; lia)
                ltac:(simpl; symmetry; exact Hrest) Hrest')
      as (pos & Hp & Hnone & Hrun).
    exists pos. split; [exact Hp|]. split; [exact Hnone|].
    cbn [length replicate app List.map].
    rewrite advance_all_cons by (rewrite Hnext; discriminate). rewrite Hnext.
    cbn [fst snd]. f_equal. exact Hrun.
Qed.

End Advance.

(** ** What the iterators of the type yield *)

Section Iteration.
Context {rt : Runtime}.

Lemma odictiter_new_valid (self : Z) (od : PyODictObject) (kind0 : Z) :
  new_iter_ok = true -> self <> NULL -> 0 < PyODict_SIZE od ->
  exists di,
    odictiter_new self od kind0 = Some di /\ iter_valid di od = true /\
    kind di = kind0 /\
    di_pos di =
      (if negb (Z.land kind0 _odict_ITER_REVERSED =? 0)
       then dk_nentries (ma_keys (od_dict od)) - 1
       else ma_offset (od_dict od)).
Proof.
  intros Hnew Hself Hsize. unfold odictiter_new. rewrite Hnew. cbn [negb].
  rewrite (proj2 (Z.ltb_lt _ _) Hsize). eexists. split; [reflexivity|].
  split; [|split; reflexivity].
  unfold iter_valid. cbn [di_odict di_state di_keys di_size].
  rewrite (proj2 (Z.eqb_neq _ _) Hself), !Z.eqb_refl. reflexivity.
Qed.

Lemma odictiter_new_empty (self : Z) (od : PyODictObject) (kind0 : Z) :
  new_iter_ok = true -> PyODict_SIZE od <= 0 ->
  exists di, odictiter_new self od kind0 = Some di /\ di_odict di = NULL.
Proof.
  intros Hnew Hsize. unfold odictiter_new. rewrite Hnew. cbn [negb].
  rewrite (proj2 (Z.ltb_ge _ _) Hsize). eexists. split; reflexivity.
Qed.

Lemma live_entries_none (mp : PyDictObject) :
  dict_wf mp = true -> ma_used mp <= 0 -> live_entries mp = [].
Proof.
  intros Hwf Hused. apply dict_wf_ok in Hwf. pose proof (ok_used _ Hwf) as H.
  destruct (live_entries mp); [reflexivity | simpl in H; lia].
Qed.

(** A fresh forward iterator of any kind over a well-formed ordered dict
    that does not change. *)
Lemma fresh_forward (self : Z) (od : PyODictObject) (kind0 : Z)
    (later : list PyODictObject) :
  dict_wf (od_dict od) = true -> self <> NULL -> new_iter_ok = true ->
  Z.land kind0 _odict_ITER_REVERSED = 0 -> can_build kind0 = true ->
  Forall (fun e => incref_ok kind0 e = true) (live_entries (od_dict od)) ->
  option_map
    (fun di =>
       advance_all di
         (replicate (length (live_entries (od_dict od))) od ++ od :: later))
    (odictiter_new self od kind0)
  = Some (List.map (fun e => Yield (element_of kind0 e)) (live_entries (od_dict od))
          ++ Exhausted :: List.map (fun _ => Exhausted) later).
Proof.
  intros Hwf Hself Hnew Hfwd Hbuild Hinc.
  destruct (Z_lt_dec 0 (PyODict_SIZE od)) as [Hsize|Hsize].
  - destruct (odictiter_new_valid self od kind0 Hnew Hself Hsize)
      as (di & -> & Hv & Hk & Hp).
    rewrite Hfwd in Hp. cbn [Z.eqb negb] in Hp. cbn [option_map]. f_equal.
    rewrite <- Hk in Hfwd, Hbuild, Hinc |- *.
    apply dict_wf_ok in Hwf.
    apply advance_forward; try assumption.
    + rewrite Hp. apply (ok_offset _ Hwf).
    + rewrite Hp. reflexivity.
  - destruct (odictiter_new_empty self od kind0 Hnew ltac:(lia)) as (di & -> & Hd).
    rewrite (live_entries_none _ Hwf) by (unfold PyODict_SIZE in Hsize; lia).
    cbn [option_map length replicate app List.map]. f_equal.
    apply (advance_all_without_dict di (od :: later) Hd).
Qed.

(** A fresh reversed iterator of any kind: the live entries from the last
    to the first, and then what an iterator does that stands before the
    begin offset. *)
Lemma fresh_reverse (self : Z) (od : PyODictObject) (kind0 : Z)
    (rest : list PyODictObject) :
  dict_wf (od_dict od) = true -> self <> NULL -> new_iter_ok = true ->
  0 < PyODict_SIZE od ->
  Z.land kind0 _odict_ITER_REVERSED <> 0 -> can_build kind0 = true ->
  Forall (fun e => incref_ok kind0 e = true) (live_entries (od_dict od)) ->
  exists di pos,
    odictiter_new self od kind0 = Some di /\
    iter_valid di od = true /\ kind di = kind0 /\
    ma_offset (od_dict od) - 1 <= pos /\
    entries_behind (od_dict od) pos = [] /\
    advance_all di (replicate (length (live_entries (od_dict od))) od ++ rest)
    = List.map (fun e => Yield (element_of kind0 e)) (rev (live_entries (od_dict od)))
      ++ advance_all (set_pos di pos) rest.
Proof.
  intros Hwf Hself Hnew Hsize Hrev Hbuild Hinc.
  destruct (odictiter_new_valid self od kind0 Hnew Hself Hsize)
    as (di & Hdi & Hv & Hk & Hp).
  rewrite (proj2 (Z.eqb_neq _ _) Hrev) in Hp. cbn [negb] in Hp.
  apply dict_wf_ok in Hwf. pose proof (ok_offset _ Hwf) as Hoff.
  assert (Hl : entries_behind (od_dict od) (di_pos di) = rev (live_entries (od_dict od))).
  { unfold entries_behind, live_entries. rewrite Hp.
    replace (dk_nentries (ma_keys (od_dict od)) - 1 + 1)
      with (dk_nentries (ma_keys (od_dict od))) by lia.
    reflexivity. }
  rewrite <- Hk in Hrev, Hbuild, Hinc. apply List.Forall_rev in Hinc.
  destruct (advance_reverse od rest _ di Hv Hrev Hbuild ltac:(lia) ltac:(lia) Hl Hinc)
    as (pos & Hpos & Hnone & Hrun).
  exists di, pos. split; [exact Hdi|]. split; [exact Hv|]. split; [exact Hk|].
  split; [exact Hpos|]. split; [exact Hnone|].
  rewrite length_rev in Hrun. rewrite <- Hk. exact Hrun.
Qed.

Lemma can_build_keys : can_build _odict_ITER_KEYS = true.
Proof. reflexivity. Qed.

Lemma can_build_values : can_build _odict_ITER_VALUES = true.
Proof. reflexivity. Qed.

Lemma can_build_items :
  result_tuple_ok = true ->
  can_build (Z.lor _odict_ITER_KEYS _odict_ITER_VALUES) = true.
Proof. intros H. unfold can_build. rewrite H. apply orb_true_r. Qed.

End Iteration.

Section ViewTheorems.
Context {rt : Runtime}.

Lemma run_view_iter (o : option odictiterobject) (states : list PyODictObject) :
  run_view (ViewIter o) states = option_map (fun di => advance_all di states) o.
Proof. destruct o; reflexivity. Qed.

Lemma fresh_reverse_done (self : Z) (od : PyODictObject) (kind0 : Z)
    (later : list PyODictObject) :
  dict_wf (od_dict od) = true -> ma_offset (od_dict od) = 0 ->
  self <> NULL -> new_iter_ok = true ->
  Z.land kind0 _odict_ITER_REVERSED <> 0 -> can_build kind0 = true ->
  Forall (fun e => incref_ok kind0 e = true) (live_entries (od_dict od)) ->
  option_map
    (fun di =>
       advance_all di
         (replicate (length (live_entries (od_dict od))) od ++ od :: later))
    (odictiter_new self od kind0)
  = Some (List.map (fun e => Yield (element_of kind0 e))
            (rev (live_entries (od_dict od)))
          ++ Exhausted :: List.map (fun _ => Exhausted) later).
Proof.
  intros Hwf Hoff Hself Hnew Hrev Hbuild Hinc.
  destruct (Z_lt_dec 0 (PyODict_SIZE od)) as [Hsize|Hsize].
  - destruct (fresh_reverse self od kind0 (od :: later) Hwf Hself Hnew Hsize Hrev
                Hbuild Hinc)
      as (di & pos & -> & Hv & Hk & Hpos & Hnone & Hrun).
    cbn [option_map]. f_equal. rewrite Hrun. f_equal.
    pose proof (reverse_step (set_pos di pos) od Hv) as Hstep.
    cbn [kind set_pos di_pos] in Hstep. rewrite Hk in Hstep.
    specialize (Hstep Hrev Hbuild ltac:(lia) Hpos). rewrite Hnone, Hoff in Hstep.
    cbn [Z.eqb] in Hstep.
    rewrite advance_all_cons by (rewrite Hstep; discriminate). rewrite Hstep.
    cbn [fst snd]. f_equal.
    apply advance_all_without_dict. reflexivity.
  - destruct (odictiter_new_empty self od kind0 Hnew ltac:(lia)) as (di & -> & Hd).
    rewrite (live_entries_none _ Hwf) by (unfold PyODict_SIZE in Hsize; lia).
    cbn [option_map length replicate app List.map rev]. f_equal.
    apply (advance_all_without_dict di (od :: later) Hd).
Qed.

(** X10: the iterator of an ordered dict and the iterators of its keys,
    values and items views, advanced over a well-formed ordered dict that
    does not change, yield the keys, the values and the pairs of the live
    entries in their order, one per advance; the advance after the last one
    reports exhaustion, and so does every later advance, whatever has become
    of the ordered dict.  The iterators that return keys pass them to
    [Py_INCREF]: for them the live entries are taken to have their keys. *)
Theorem views_iterate_in_order (dv : _PyDictViewObject) (od : PyODictObject)
    (later : list PyODictObject) :
  dict_wf (od_dict od) = true -> dv_dict dv <> NULL -> new_iter_ok = true ->
  let live := live_entries (od_dict od) in
  let states := replicate (length live) od ++ od :: later in
  let done := Exhausted :: List.map (fun _ => Exhausted) later in
  (keys_present (od_dict od) = true ->
   option_map (fun di => advance_all di states) (odict_iter (dv_dict dv) od)
   = Some (List.map (fun e => Yield (Key (me_key e))) live ++ done)) /\
  (keys_present (od_dict od) = true ->
   run_view (odictkeys_iter dv od) states
   = Some (List.map (fun e => Yield (Key (me_key e))) live ++ done)) /\
  run_view (odictvalues_iter dv od) states
  = Some (List.map (fun e => Yield (Value (me_value e))) live ++ done) /\
  (keys_present (od_dict od) = true -> result_tuple_ok = true ->
   run_view (odictitems_iter dv od) states
   = Some (List.map (fun e => Yield (Item (me_key e) (me_value e))) live ++ done)).
Proof.
  intros Hwf Hself Hnew live states done.
  unfold odict_iter, odictkeys_iter, odictvalues_iter, odictitems_iter.
  rewrite (proj2 (Z.eqb_neq _ _) Hself), !run_view_iter.
  split; [|split; [|split]].
  - intros Hkeys.
    apply (fresh_forward (dv_dict dv) od _odict_ITER_KEYS later Hwf Hself Hnew
             eq_refl can_build_keys).
    apply live_incref_ok. left. exact Hkeys.
  - intros Hkeys.
    apply (fresh_forward (dv_dict dv) od _odict_ITER_KEYS later Hwf Hself Hnew
             eq_refl can_build_keys).
    apply live_incref_ok. left. exact Hkeys.
  - apply (fresh_forward (dv_dict dv) od _odict_ITER_VALUES later Hwf Hself Hnew
             eq_refl can_build_values).
    apply live_incref_ok. right. split; [discriminate | reflexivity].
  - intros Hkeys Htuple.
    apply (fresh_forward (dv_dict dv) od (Z.lor _odict_ITER_KEYS _odict_ITER_VALUES)
             later Hwf Hself Hnew eq_refl (can_build_items Htuple)).
    apply live_incref_ok. left. exact Hkeys.
Qed.

(** X11: [__reversed__] of an ordered dict and of its three views, over a
    well-formed ordered dict whose begin offset is 0 and that does not
    change: the keys, values and pairs of the live entries from the last to
    the first, then exhaustion, for good.  For the iterators that return
    keys the live entries are taken to have their keys. *)
Theorem views_iterate_reversed (dv : _PyDictViewObject) (od : PyODictObject)
    (later : list PyODictObject) :
  dict_wf (od_dict od) = true -> ma_offset (od_dict od) = 0 ->
  dv_dict dv <> NULL -> new_iter_ok = true ->
  let live := rev (live_entries (od_dict od)) in
  let states := replicate (length live) od ++ od :: later in
  let done := Exhausted :: List.map (fun _ => Exhausted) later in
  (keys_present (od_dict od) = true ->
   option_map (fun di => advance_all di states) (odict_reversed (dv_dict dv) od)
   = Some (List.map (fun e => Yield (Key (me_key e))) live ++ done)) /\
  (keys_present (od_dict od) = true ->
   run_view (odictkeys_reversed dv od) states
   = Some (List.map (fun e => Yield (Key (me_key e))) live ++ done)) /\
  run_view (odictvalues_reversed dv od) states
  = Some (List.map (fun e => Yield (Value (me_value e))) live ++ done) /\
  (keys_present (od_dict od) = true -> result_tuple_ok = true ->
   run_view (odictitems_reversed dv od) states
   = Some (List.map (fun e => Yield (Item (me_key e) (me_value e))) live ++ done)).
Proof.
  intros Hwf Hoff Hself Hnew live states done. unfold states, live.
  rewrite length_rev.
  unfold odict_reversed, odictkeys_reversed, odictvalues_reversed, odictitems_reversed.
  rewrite (proj2 (Z.eqb_neq _ _) Hself), !run_view_iter.
  split; [|split; [|split]].
  - intros Hkeys.
    apply (fresh_reverse_done (dv_dict dv) od
             (Z.lor _odict_ITER_KEYS _odict_ITER_REVERSED) later Hwf Hoff Hself Hnew);
      [discriminate | reflexivity |].
    apply live_incref_ok. left. exact Hkeys.
  - intros Hkeys.
    apply (fresh_reverse_done (dv_dict dv) od
             (Z.lor _odict_ITER_KEYS _odict_ITER_REVERSED) later Hwf Hoff Hself Hnew);
      [discriminate | reflexivity |].
    apply live_incref_ok. left. exact Hkeys.
  - apply (fresh_reverse_done (dv_dict dv) od
             (Z.lor _odict_ITER_VALUES _odict_ITER_REVERSED) later Hwf Hoff Hself Hnew);
      [discriminate | reflexivity |].
    apply live_incref_ok. right. split; [discriminate | reflexivity].
  - intros Hkeys Htuple.
    apply (fresh_reverse_done (dv_dict dv) od
             (Z.lor (Z.lor _odict_ITER_KEYS _odict_ITER_VALUES) _odict_ITER_REVERSED)
             later Hwf Hoff Hself Hnew); [discriminate| |].
    + unfold can_build. rewrite Htuple. apply orb_true_r.
    + apply live_incref_ok. left. exact Hkeys.
Qed.

(** X12: a reversed iterator over a well-formed ordered dict whose begin
    offset is above 0 and whose live entries have their keys.  After the
    live entries, from the last to the first, the loop stops at slot
    [ma_offset - 1]; the test [pos < 0] does not see the end there, and the
    advance goes on to build its element from that slot, which holds
    nothing: its key and value are [NULL], [Py_INCREF] dereferences a
    [NULL] pointer, and the advance faults instead of reporting exhaustion.
    No later advance is made. *)
Theorem reversed_iterator_past_front (self : Z) (od : PyODictObject) (kind0 : Z)
    (later : list PyODictObject) :
  dict_wf (od_dict od) = true -> 0 < ma_offset (od_dict od) ->
  0 < PyODict_SIZE od -> self <> NULL -> new_iter_ok = true ->
  Z.land kind0 _odict_ITER_REVERSED <> 0 -> can_build kind0 = true ->
  keys_present (od_dict od) = true ->
  let live := rev (live_entries (od_dict od)) in
  let front := DK_ENTRIES (ma_keys (od_dict od)) (ma_offset (od_dict od) - 1) in
  option_map (fun di => advance_all di (replicate (length live) od ++ od :: later))
    (odictiter_new self od kind0)
  = Some (List.map (fun e => Yield (element_of kind0 e)) live ++ [Faulted]) /\
  me_key front = NULL /\ me_value front = NULL.
Proof.
  intros Hwf Hoff Hsize Hself Hnew Hrev Hbuild Hkeys live front. unfold live.
  rewrite length_rev.
  assert (Hfree : is_free front = true).
  { pose proof (dict_wf_ok _ Hwf) as Hok.
    apply (ok_before _ Hok (ma_offset (od_dict od) - 1)). lia. }
  split.
  - assert (Hinc : Forall (fun e => incref_ok kind0 e = true)
                     (live_entries (od_dict od)))
      by (apply live_incref_ok; left; exact Hkeys).
    destruct (fresh_reverse self od kind0 (od :: later) Hwf Hself Hnew Hsize Hrev
                Hbuild Hinc)
      as (di & pos & -> & Hv & Hk & Hpos & Hnone & Hrun).
    cbn [option_map]. f_equal. rewrite Hrun. f_equal.
    pose proof (reverse_step (set_pos di pos) od Hv) as Hstep.
    cbn [kind set_pos di_pos] in Hstep. rewrite Hk in Hstep.
    specialize (Hstep Hrev Hbuild ltac:(lia) Hpos). rewrite Hnone in Hstep.
    rewrite (proj2 (Z.eqb_neq _ 0)) in Hstep by lia.
    rewrite iter_element_faults in Hstep
      by (cbn [kind set_pos]; rewrite Hk; apply incref_ok_free; exact Hfree).
    apply advance_all_fault. rewrite Hstep. reflexivity.
  - unfold is_free in Hfree. apply andb_prop in Hfree as [H1 H2].
    apply Z.eqb_eq in H1, H2. auto.
Qed.

End ViewTheorems.

Lemma views_iterate_in_order_witness :
  let dv := mkView 512 in
  let od := Sample.od_front in
  let later := [Sample.od3] in
  let live := live_entries (od_dict od) in
  let states := replicate (length live) od ++ od :: later in
  let done := Exhausted :: List.map (fun _ => Exhausted) later in
  keys_present (od_dict od) = true /\
  option_map (fun di => advance_all (rt := Sample.runtime) di states)
    (odict_iter (rt := Sample.runtime) (dv_dict dv) od)
  = Some (List.map (fun e => Yield (Key (me_key e))) live ++ done) /\
  run_view (rt := Sample.runtime) (odictkeys_iter (rt := Sample.runtime) dv od) states
  = Some (List.map (fun e => Yield (Key (me_key e))) live ++ done) /\
  run_view (rt := Sample.runtime) (odictvalues_iter (rt := Sample.runtime) dv od) states
  = Some (List.map (fun e => Yield (Value (me_value e))) live ++ done) /\
  run_view (rt := Sample.runtime) (odictitems_iter (rt := Sample.runtime) dv od) states
  = Some (List.map (fun e => Yield (Item (me_key e) (me_value e))) live ++ done).
Proof.
  cbv zeta.
  pose proof (views_iterate_in_order (rt := Sample.runtime) (mkView 512)
                Sample.od_front [Sample.od3] eq_refl
                ltac:(simpl; unfold NULL; lia) eq_refl) as H.
  cbv zeta in H. destruct H as (H1 & H2 & H3 & H4).
  split; [reflexivity|]. split; [apply H1; reflexivity|].
  split; [apply H2; reflexivity|]. split; [exact H3|].
  apply H4; reflexivity.
Defined.

Lemma views_iterate_reversed_witness :
  let dv := mkView 512 in
  let od := Sample.od3 in
  let later := [Sample.od_front] in
  let live := rev (live_entries (od_dict od)) in
  let states := replicate (length live) od ++ od :: later in
  let done := Exhausted :: List.map (fun _ => Exhausted) later in
  keys_present (od_dict od) = true /\
  option_map (fun di => advance_all (rt := Sample.runtime) di states)
    (odict_reversed (rt := Sample.runtime) (dv_dict dv) od)
  = Some (List.map (fun e => Yield (Key (me_key e))) live ++ done) /\
  run_view (rt := Sample.runtime) (odictkeys_reversed (rt := Sample.runtime) dv od)
    states
  = Some (List.map (fun e => Yield (Key (me_key e))) live ++ done) /\
  run_view (rt := Sample.runtime) (odictvalues_reversed (rt := Sample.runtime) dv od) states
  = Some (List.map (fun e => Yield (Value (me_value e))) live ++ done) /\
  run_view (rt := Sample.runtime) (odictitems_reversed (rt := Sample.runtime) dv od)
    states
  = Some (List.map (fun e => Yield (Item (me_key e) (me_value e))) live ++ done).
Proof.
  cbv zeta.
  pose proof (views_iterate_reversed (rt := Sample.runtime) (mkView 512)
                Sample.od3 [Sample.od_front] eq_refl eq_refl
                ltac:(simpl; unfold NULL; lia) eq_refl) as H.
  cbv zeta in H. destruct H as (H1 & H2 & H3 & H4).
  split; [reflexivity|]. split; [apply H1; reflexivity|].
  split; [apply H2; reflexivity|]. split; [exact H3|].
  apply H4; reflexivity.
Defined.

Lemma reversed_iterator_past_front_witness :
  option_map
    (fun di => advance_all (rt := Sample.runtime) di
                 (replicate 3 Sample.od_front
                  ++ Sample.od_front :: [Sample.od_front; Sample.od3]))
    (odictiter_new (rt := Sample.runtime) 512 Sample.od_front
       (Z.lor _odict_ITER_KEYS _odict_ITER_REVERSED))
  = Some [Yield (Key 12); Yield (Key 10); Yield (Key 18); Faulted] /\
  me_key (DK_ENTRIES (ma_keys (od_dict Sample.od_front)) 1) = NULL /\
  me_value (DK_ENTRIES (ma_keys (od_dict Sample.od_front)) 1) = NULL.
Proof.
  apply (reversed_iterator_past_front (rt := Sample.runtime) 512 Sample.od_front
           (Z.lor _odict_ITER_KEYS _odict_ITER_REVERSED)
           [Sample.od_front; Sample.od3]).
  - reflexivity.
  - simpl. lia.
  - simpl. unfold PyODict_SIZE. simpl. lia.
  - unfold NULL. lia.
  - reflexivity.
  - discriminate.
  - reflexivity.
  - reflexivity.
Defined.

(** ** How an iterator ends *)

Section IteratorEnds.
Context {rt : Runtime}.

Lemma iter_element_result (di : odictiterobject) (e : PyDictKeyEntry) :
  (exists x, iter_element di e = (Yield x, di)) \/
  iter_element di e = (Raised MemoryError, clear_odict di) \/
  iter_element di e = (Faulted, di).
Proof.
  unfold iter_element.
  destruct (Z.land (kind di) _odict_ITER_VALUES =? 0);
    [destruct (me_key e =? NULL); eauto|].
  destruct (Z.land (kind di) _odict_ITER_KEYS =? 0);
    [destruct (me_value e =? NULL); eauto|].
  destruct ((me_key e =? NULL) || (me_value e =? NULL)); [eauto|].
  destruct result_tuple_ok; eauto.
Qed.

(** The ways an advance ends, and the iterator each of them leaves. *)
Lemma iternext_cases (di : odictiterobject) (od : PyODictObject) :
  let r := odictiter_iternext di od in
  (fst r = Exhausted /\ di_odict (snd r) = NULL) \/
  (fst r = Raised (RuntimeError "OrderedDict mutated during iteration") /\
   snd r = clear_odict di) \/
  (fst r = Raised (RuntimeError "OrderedDict changed size during iteration") /\
   snd r = set_size di (-1) /\ di_odict di <> NULL) \/
  (fst r = Raised MemoryError /\ di_odict (snd r) = NULL) \/
  (exists x pos, fst r = Yield x /\ snd r = set_pos di pos /\
                 iter_valid di od = true) \/
  (fst r = Faulted /\ iter_valid di od = true).
Proof.
  cbv zeta. unfold odictiter_iternext.
  destruct (di_odict di =? NULL) eqn:E0.
  { apply Z.eqb_eq in E0. left. auto. }
  apply Z.eqb_neq in E0.
  destruct (negb (od_state od =? di_state di)
            || negb (dk_addr (ma_keys (od_dict od)) =? di_keys di)) eqn:E1.
  { right. left. auto. }
  destruct (negb (di_size di =? PyODict_SIZE od)) eqn:E2.
  { right. right. left. auto. }
  assert (Hv : iter_valid di od = true).
  { unfold iter_valid. apply orb_false_elim in E1 as [E1 E1'].
    apply negb_false_iff in E1, E1', E2.
    rewrite (proj2 (Z.eqb_neq _ _) E0), E1, E1', E2. reflexivity. }
  destruct (negb (Z.land (kind di) _odict_ITER_REVERSED =? 0)).
  - match goal with |- context [if ?c then (Exhausted, _) else _] => destruct c end;
      [left; auto|].
    match goal with |- context [iter_element ?d ?e] =>
      destruct (iter_element_result d e) as [[x ->] | [-> | ->]] end.
    + right. right. right. right. left. eauto.
    + right. right. right. left. auto.
    + right. right. right. right. right. auto.
  - match goal with |- context [if ?c then (Exhausted, _) else _] => destruct c end;
      [left; auto|].
    match goal with |- context [iter_element ?d ?e] =>
      destruct (iter_element_result d e) as [[x ->] | [-> | ->]] end.
    + right. right. right. right. left. eauto.
    + right. right. right. left. auto.
    + right. right. right. right. right. auto.
Qed.

(** X15: when an advance has reported exhaustion, has raised "mutated
    during iteration" or has failed to allocate its result, the iterator has
    dropped its ordered dict, and every later advance reports exhaustion,
    whatever state the ordered dict is in. *)
Theorem iterator_end_is_final (di : odictiterobject) (od : PyODictObject)
    (r : next_result) (di' : odictiterobject) (states : list PyODictObject) :
  odictiter_iternext di od = (r, di') ->
  r = Exhausted \/
  r = Raised (RuntimeError "OrderedDict mutated during iteration") \/
  r = Raised MemoryError ->
  di_odict di' = NULL /\
  advance_all di' states = List.map (fun _ => Exhausted) states.
Proof.
  intros Hnext Hr.
  assert (Hnull : di_odict di' = NULL).
  { pose proof (iternext_cases di od) as H. cbv zeta in H. rewrite Hnext in H.
    cbn [fst snd] in H.
    destruct H
      as [[_ H] | [[_ H] | [[H _] | [[_ H] | [(x & pos & H & _) | [H _]]]]]].
    - exact H.
    - rewrite H. reflexivity.
    - exfalso. destruct Hr as [-> | [-> | ->]]; discriminate.
    - exact H.
    - exfalso. destruct Hr as [-> | [-> | ->]]; discriminate.
    - exfalso. destruct Hr as [-> | [-> | ->]]; discriminate. }
  split; [exact Hnull|]. apply advance_all_without_dict. exact Hnull.
Qed.

(** An iterator in the state the size check leaves ([di_size = -1] and the
    dict still held): no later advance yields. *)
Lemma sticky_never_yields (states : list PyODictObject) :
  forall di : odictiterobject,
  di_odict di = NULL \/ di_size di = -1 ->
  Forall (fun s => 0 <= PyODict_SIZE s) states ->
  Forall (fun r => forall x, r <> Yield x) (advance_all di states).
Proof.
  induction states as [|s states IH]; intros di Hdi Hsizes; [constructor|].
  inversion Hsizes as [|? ? Hs Hrest]; subst.
  pose proof (iternext_cases di s) as H. cbv zeta in H.
  destruct H
    as [[H1 H2] | [[H1 H2] | [(H1 & H2 & H3) | [[H1 H2]
        | [(x & pos & H1 & H2 & Hv) | [H1 Hv]]]]]];
    try (rewrite advance_all_cons by (rewrite H1; discriminate)).
  - constructor; [rewrite H1; discriminate|]. apply IH; auto.
  - constructor; [rewrite H1; discriminate|]. apply IH; [|exact Hrest].
    rewrite H2. left. reflexivity.
  - constructor; [rewrite H1; discriminate|]. apply IH; [|exact Hrest].
    rewrite H2. right. reflexivity.
  - constructor; [rewrite H1; discriminate|]. apply IH; auto.
  - exfalso. apply iter_valid_facts in Hv as (Hv1 & _ & _ & Hv4).
    destruct Hdi as [Hdi|Hdi]; [contradiction | lia].
  - exfalso. apply iter_valid_facts in Hv as (Hv1 & _ & _ & Hv4).
    destruct Hdi as [Hdi|Hdi]; [contradiction | lia].
Qed.

(** X14: "Make this state sticky".  When an advance has raised "changed
    size during iteration", the next advance raises a [RuntimeError] again,
    and no later advance ever yields an element, whatever the states of the
    ordered dict (with a size that is not negative). *)
Theorem size_error_is_sticky (di : odictiterobject) (od : PyODictObject)
    (di' : odictiterobject) (s : PyODictObject) (states : list PyODictObject) :
  odictiter_iternext di od
  = (Raised (RuntimeError "OrderedDict changed size during iteration"), di') ->
  0 <= PyODict_SIZE s -> Forall (fun s => 0 <= PyODict_SIZE s) states ->
  (exists msg, fst (odictiter_iternext di' s) = Raised (RuntimeError msg)) /\
  Forall (fun r => forall x, r <> Yield x) (advance_all di' (s :: states)).
Proof.
  intros Hnext Hs Hsizes.
  assert (Hsticky : di_odict di' <> NULL /\ di_size di' = -1).
  { pose proof (iternext_cases di od) as H. cbv zeta in H. rewrite Hnext in H.
    cbn [fst snd] in H.
    destruct H
      as [[H _] | [[H _] | [(_ & H2 & H3) | [[H _] | [(x & pos & H & _) | [H _]]]]]];
      try discriminate.
    rewrite H2. auto. }
  destruct Hsticky as [Hheld Hsize]. split.
  - pose proof (iternext_cases di' s) as H. cbv zeta in H.
    destruct H
      as [[H1 H2] | [[H1 H2] | [(H1 & H2 & H3) | [[H1 H2]
          | [(x & pos & H1 & H2 & Hv) | [H1 Hv]]]]]].
    + exfalso. unfold odictiter_iternext in H1.
      rewrite (proj2 (Z.eqb_neq _ _) Hheld) in H1.
      destruct (negb _ || negb _); [discriminate|].
      rewrite Hsize in H1. rewrite (proj2 (Z.eqb_neq (-1) (PyODict_SIZE s))) in H1 by lia.
      discriminate.
    + eauto.
    + eauto.
    + exfalso. unfold odictiter_iternext in H1.
      rewrite (proj2 (Z.eqb_neq _ _) Hheld) in H1.
      destruct (negb _ || negb _); [discriminate|].
      rewrite Hsize in H1. rewrite (proj2 (Z.eqb_neq (-1) (PyODict_SIZE s))) in H1 by lia.
      discriminate.
    + exfalso. apply iter_valid_facts in Hv as (_ & _ & _ & Hv4). lia.
    + exfalso. apply iter_valid_facts in Hv as (_ & _ & _ & Hv4). lia.
  - apply sticky_never_yields; [right; exact Hsize|]. constructor; assumption.
Qed.

(** X13: an iterator that holds an ordered dict notices a reorder.  After a
    [move_to_end] that succeeded and was not a no-op, its next advance raises
    "mutated during iteration" and drops the ordered dict. *)
Theorem iterator_detects_move_to_end (di : odictiterobject) (od : PyODictObject)
    (key : PyObject) (last : bool) (ix : Z) (od' : PyODictObject) :
  di_odict di <> NULL -> di_state di = od_state od -> 0 <= od_state od < 2 ^ 64 ->
  ma_used (od_dict od) <> 0 -> PyObject_Hash key <> -1 ->
  lookdict (od_dict od) key (PyObject_Hash key) = Some ix -> 0 <= ix ->
  (if last then ix <> dk_nentries (ma_keys (od_dict od)) - 1
   else ix <> ma_offset (od_dict od)) ->
  OrderedDict_move_to_end_impl od key last = Ok od' ->
  odictiter_iternext di od'
  = (Raised (RuntimeError "OrderedDict mutated during iteration"), clear_odict di).
Proof.
  intros Hheld Hsnap Hstate Hused Hhash Hlook Hix Hmoves Hmove.
  rewrite (move_to_end_found od key last ix Hused Hhash Hlook Hix) in Hmove.
  cbv zeta in Hmove.
  assert (Hcount : od_state od' = Mach.size_t (od_state od + 1)).
  { destruct last.
    - pose proof (move_to_end_last_result od
                    (me_key (DK_ENTRIES (ma_keys (od_dict od)) ix))
                    (PyObject_Hash key) ix Hmoves) as H.
      rewrite Hmove in H. apply H.
    - pose proof (move_to_end_first_result od
                    (me_key (DK_ENTRIES (ma_keys (od_dict od)) ix))
                    (PyObject_Hash key) ix Hmoves) as H.
      rewrite Hmove in H. apply H. }
  unfold odictiter_iternext. rewrite (proj2 (Z.eqb_neq _ _) Hheld).
  rewrite Hsnap, Hcount.
  rewrite (proj2 (Z.eqb_neq _ _) (size_t_succ_neq _ Hstate)). reflexivity.
Qed.

End IteratorEnds.

(** ** [odictiter_reduce] *)

Lemma length_entries_ahead (mp : PyDictObject) (pos : Z) :
  (length (entries_ahead mp pos) <= Z.to_nat (dk_nentries (ma_keys mp) - pos))%nat.
Proof.
  unfold entries_ahead, slots_between.
  etransitivity; [apply List.filter_length_le|]. rewrite length_take. lia.
Qed.

Lemma length_entries_behind (mp : PyDictObject) (pos : Z) :
  (length (entries_behind mp pos) <= Z.to_nat (pos + 1 - ma_offset mp))%nat.
Proof.
  unfold entries_behind, slots_between. rewrite length_rev.
  etransitivity; [apply List.filter_length_le|]. rewrite length_take. lia.
Qed.

Section ReduceFacts.
Context {rt : Runtime}.

Lemma reduce_loop_forward (env : reduce_env) (od : PyODictObject) :
  (forall l x, list_append_ok env l x = true) ->
  forall (l : list PyDictKeyEntry) (di : odictiterobject) (acc : list element)
         (fuel : nat),
  iter_valid di od = true -> Z.land (kind di) _odict_ITER_REVERSED = 0 ->
  can_build (kind di) = true -> 0 <= di_pos di ->
  entries_ahead (od_dict od) (di_pos di) = l -> (length l < fuel)%nat ->
  Forall (fun e => incref_ok (kind di) e = true) l ->
  exists di',
    odictiter_reduce_loop env fuel di od acc
    = Some (LoopBreak (acc ++ List.map (element_of (kind di)) l) None, di') /\
    di_odict di' = NULL.
Proof.
  intros Happ. induction l as [|e l IH];
    intros di acc fuel Hv Hfwd Hbuild Hpos Hl Hfuel Hinc;
    pose proof (forward_step di od Hv Hfwd Hbuild Hpos) as Hstep;
    rewrite Hl in Hstep; destruct fuel as [|fuel]; try (simpl in Hfuel; lia);
    cbn [odictiter_reduce_loop].
  - rewrite Hstep. exists (clear_odict di). rewrite app_nil_r. split; reflexivity.
  - inversion Hinc as [|? ? He Hrest']; subst.
    destruct (Hstep He) as (q & Hq & Hnext & Hrest). rewrite Hnext, Happ.
    destruct (IH (set_pos di (q + 1)) (acc ++ [element_of (kind di) e]) fuel
                Hv Hfwd Hbuild ltac:(simpl; lia) ltac:(simpl; symmetry; exact Hrest)
                ltac:(simpl in Hfuel; lia) Hrest') as (di' & Hloop & Hnull).
    exists di'. split; [|exact Hnull]. rewrite Hloop.
    cbn [kind set_pos List.map]. rewrite <- app_assoc. reflexivity.
Qed.

Lemma reduce_loop_reverse (env : reduce_env) (od : PyODictObject) :
  (forall l x, list_append_ok env l x = true) -> ma_offset (od_dict od) = 0 ->
  forall (l : list PyDictKeyEntry) (di : odictiterobject) (acc : list element)
         (fuel : nat),
  iter_valid di od = true -> Z.land (kind di) _odict_ITER_REVERSED <> 0 ->
  can_build (kind di) = true -> -1 <= di_pos di ->
  entries_behind (od_dict od) (di_pos di) = l -> (length l < fuel)%nat ->
  Forall (fun e => incref_ok (kind di) e = true) l ->
  exists di',
    odictiter_reduce_loop env fuel di od acc
    = Some (LoopBreak (acc ++ List.map (element_of (kind di)) l) None, di') /\
    di_odict di' = NULL.
Proof.
  intros Happ Hoff. induction l as [|e l IH];
    intros di acc fuel Hv Hrev Hbuild Hpos Hl Hfuel Hinc;
    pose proof (reverse_step di od Hv Hrev Hbuild ltac:(lia) ltac:(lia)) as Hstep;
    rewrite Hl in Hstep; destruct fuel as [|fuel]; try (simpl in Hfuel; lia);
    cbn [odictiter_reduce_loop].
  - rewrite Hoff in Hstep. cbn [Z.eqb] in Hstep. rewrite Hstep.
    exists (clear_odict di). rewrite app_nil_r. split; reflexivity.
  - inversion Hinc as [|? ? He Hrest']; subst.
    destruct (Hstep He) as (q & Hq & Hnext & Hrest). rewrite Hnext, Happ.
    destruct (IH (set_pos di (q - 1)) (acc ++ [element_of (kind di) e]) fuel
                Hv Hrev Hbuild ltac:(simpl; lia) ltac:(simpl; symmetry; exact Hrest)
                ltac:(simpl in Hfuel; lia) Hrest') as (di' & Hloop & Hnull).
    exists di'. split; [|exact Hnull]. rewrite Hloop.
    cbn [kind set_pos List.map]. rewrite <- app_assoc. reflexivity.
Qed.


End ReduceFacts.

Lemma iterator_end_is_final_witness :
  di_odict (clear_odict SampleIter.iter3) = NULL /\
  advance_all (rt := Sample.runtime) (clear_odict SampleIter.iter3)
    [Sample.od3; Sample.od_front]
  = List.map (fun _ => Exhausted) [Sample.od3; Sample.od_front].
Proof.
  apply (iterator_end_is_final (rt := Sample.runtime) SampleIter.iter3 Sample.od_front
           (Raised (RuntimeError "OrderedDict mutated during iteration"))).
  - reflexivity.
  - right. left. reflexivity.
Defined.

Lemma size_error_is_sticky_witness :
  (exists msg,
     fst (odictiter_iternext (rt := Sample.runtime)
            (set_size SampleIter.iter3 (-1)) Sample.od3)
     = Raised (RuntimeError msg)) /\
  Forall (fun r => forall x, r <> Yield x)
    (advance_all (rt := Sample.runtime) (set_size SampleIter.iter3 (-1))
       [Sample.od3; SampleIter.od4]).
Proof.
  apply (size_error_is_sticky (rt := Sample.runtime) SampleIter.iter3 SampleIter.od4).
  - reflexivity.
  - vm_compute. discriminate.
  - repeat constructor; vm_compute; discriminate.
Defined.

Lemma iterator_detects_move_to_end_witness :
  exists od',
    OrderedDict_move_to_end_impl (rt := Sample.runtime) Sample.od3 18 true = Ok od' /\
    odictiter_iternext (rt := Sample.runtime) SampleIter.iter3 od'
    = (Raised (RuntimeError "OrderedDict mutated during iteration"),
       clear_odict SampleIter.iter3).
Proof.
  eexists. split; [vm_compute; reflexivity|].
  apply (iterator_detects_move_to_end (rt := Sample.runtime) SampleIter.iter3
           Sample.od3 18 true 1).
  - vm_compute. discriminate.
  - reflexivity.
  - vm_compute. split; [discriminate | reflexivity].
  - vm_compute. discriminate.
  - vm_compute. discriminate.
  - reflexivity.
  - lia.
  - vm_compute. discriminate.
  - vm_compute. reflexivity.
Defined.


Example reduce_reversed3 :
  option_map fst
    (odictiter_reduce (rt := Sample.runtime) SampleIter.env SampleIter.reversed3
       Sample.od3)
  = Some (Reduced 900 [Key 12; Key 18; Key 10]).
Proof. reflexivity. Qed.

(** ** From the facts back to the tests *)

Lemma aget_nat {A : Type} (d : A) (l : list A) (i : nat) :
  aget d l (Z.of_nat i) = default d (l !! i).
Proof.
  unfold aget. rewrite (proj2 (Z.ltb_ge (Z.of_nat i) 0)) by lia.
  rewrite Nat2Z.id. reflexivity.
Qed.

Lemma forallb_aget {A : Type} (f : A -> bool) (d : A) (l : list A) :
  (forall i, 0 <= i < Z.of_nat (length l) -> f (aget d l i) = true) ->
  forallb f l = true.
Proof.
  intros H. apply forallb_forall. intros x Hin.
  apply list_elem_of_In, list_elem_of_lookup in Hin as [i Hi].
  assert (Hlt := lookup_lt_Some _ _ _ Hi).
  specialize (H (Z.of_nat i) ltac:(lia)). rewrite aget_nat, Hi in H. exact H.
Qed.

Lemma forallb_take_of_aget {A : Type} (f : A -> bool) (d : A) (l : list A) (k : Z) :
  (forall i, 0 <= i < k -> f (aget d l i) = true) ->
  forallb f (take (Z.to_nat k) l) = true.
Proof.
  intros H. apply forallb_forall. intros x Hin.
  apply list_elem_of_In, list_elem_of_lookup in Hin as [i Hi].
  apply lookup_take_Some in Hi as [Hi Hlt].
  specialize (H (Z.of_nat i) ltac:(lia)). rewrite aget_nat, Hi in H. exact H.
Qed.

Lemma forallb_drop_of_aget {A : Type} (f : A -> bool) (d : A) (l : list A) (k : Z) :
  (forall i, k <= i -> f (aget d l i) = true) ->
  forallb f (drop (Z.to_nat k) l) = true.
Proof.
  intros H. apply forallb_forall. intros x Hin.
  apply list_elem_of_In, list_elem_of_lookup in Hin as [i Hi].
  rewrite lookup_drop in Hi.
  specialize (H (Z.of_nat (Z.to_nat k + i)) ltac:(lia)).
  rewrite aget_nat, Hi in H. exact H.
Qed.

Lemma keys_ok_wf (keys : PyDictKeysObject) :
  keys_ok keys -> dk_size keys <= 2 ^ 60 -> keys_wf keys = true.
Proof.
  intros Hok Hmax. destruct (ok_size _ Hok) as (k & Hk & Hsize).
  assert (H8 : 2 ^ 3 <= 2 ^ Z.of_nat k) by (apply Z.pow_le_mono_r; lia).
  change (2 ^ 3) with 8 in H8.
  unfold keys_wf. rewrite !andb_true_iff. repeat split.
  - apply Z.leb_le. lia.
  - apply Z.leb_le. exact Hmax.
  - unfold is_pow2. rewrite Hsize, Z.log2_pow2 by lia.
    rewrite Z.eqb_refl, andb_true_r. apply Z.ltb_lt. lia.
  - apply Z.eqb_eq. exact (ok_indices _ Hok).
  - apply Z.leb_le. exact (ok_capacity _ Hok).
  - apply Z.leb_le. exact (ok_nentries _ Hok).
  - apply Z.leb_le. exact (ok_room _ Hok).
  - apply Z.eqb_eq. exact (ok_usable _ Hok).
  - apply (forallb_aget _ DKIX_EMPTY). intros i Hi.
    pose proof (ok_cells _ Hok i) as Hc. unfold dk_get_index in Hc.
    apply andb_true_iff. split; [apply Z.leb_le | apply Z.ltb_lt]; lia.
  - destruct (ok_empty _ Hok) as (c & Hc & Hempty).
    apply existsb_exists. exists DKIX_EMPTY. split; [|reflexivity].
    rewrite <- Hempty. apply aget_in_range. rewrite (ok_indices _ Hok). exact Hc.
Qed.

Lemma dict_ok_wf (mp : PyDictObject) :
  dict_ok mp -> dk_size (ma_keys mp) <= 2 ^ 60 -> dict_wf mp = true.
Proof.
  intros Hok Hmax. unfold dict_wf. rewrite !andb_true_iff. repeat split.
  - apply keys_ok_wf; [exact (ok_keys _ Hok) | exact Hmax].
  - apply Z.leb_le. apply (ok_offset _ Hok).
  - apply Z.leb_le. apply (ok_offset _ Hok).
  - apply (forallb_take_of_aget _ entry_zero). intros i Hi.
    apply (ok_before _ Hok). lia.
  - apply (forallb_drop_of_aget _ entry_zero). intros i Hi.
    apply (ok_after _ Hok). lia.
  - apply Z.eqb_eq. exact (ok_used _ Hok).
  - apply (forallb_aget _ DKIX_EMPTY). intros i Hi.
    change (aget DKIX_EMPTY (dk_indices (ma_keys mp)) i)
      with (dk_get_index (ma_keys mp) i).
    destruct (Z_lt_dec (dk_get_index (ma_keys mp) i) 0) as [Hneg|Hnn].
    + rewrite (proj2 (Z.ltb_lt _ _) Hneg). reflexivity.
    + destruct (ok_refer _ Hok i ltac:(lia)) as [H1 H2].
      rewrite (proj2 (Z.leb_le _ _) H1), H2. apply orb_true_r.
Qed.

(** ** One cell per slot *)

Lemma existsb_eqb_lookup (x : Z) (l : list Z) :
  existsb (Z.eqb x) l = true <-> exists j : nat, l !! j = Some x.
Proof.
  rewrite existsb_exists. split.
  - intros (y & Hin & Hy). apply Z.eqb_eq in Hy. subst y.
    apply list_elem_of_In, list_elem_of_lookup in Hin. exact Hin.
  - intros [j Hj]. exists x. split; [|apply Z.eqb_refl].
    apply list_elem_of_In, list_elem_of_lookup. eauto.
Qed.

Lemma distinct_slots_spec (l : list Z) :
  distinct_slots l = true <->
  (forall (i j : nat) x, l !! i = Some x -> l !! j = Some x -> 0 <= x -> i = j).
Proof.
  induction l as [|c l IH]; cbn [distinct_slots].
  - split; [intros _ i j x H; discriminate | reflexivity].
  - rewrite andb_true_iff, IH. split.
    + intros [Hc Hl] [|i] [|j] x Hi Hj Hx; cbn in Hi, Hj.
      * reflexivity.
      * exfalso. injection Hi as ->.
        apply orb_prop in Hc as [Hc|Hc]; [apply Z.ltb_lt in Hc; lia|].
        apply negb_true_iff in Hc.
        assert (H : existsb (Z.eqb x) l = true) by (apply existsb_eqb_lookup; eauto).
        congruence.
      * exfalso. injection Hj as ->.
        apply orb_prop in Hc as [Hc|Hc]; [apply Z.ltb_lt in Hc; lia|].
        apply negb_true_iff in Hc.
        assert (H : existsb (Z.eqb x) l = true) by (apply existsb_eqb_lookup; eauto).
        congruence.
      * f_equal. exact (Hl i j x Hi Hj Hx).
    + intros H. split.
      * destruct (c <? 0) eqn:E; [reflexivity|]. apply Z.ltb_ge in E. cbn [orb].
        apply negb_true_iff. destruct (existsb (Z.eqb c) l) eqn:Ex; [|reflexivity].
        apply existsb_eqb_lookup in Ex as [j Hj].
        specialize (H 0%nat (S j) c eq_refl Hj E). discriminate.
      * intros i j x Hi Hj Hx. specialize (H (S i) (S j) x Hi Hj Hx). lia.
Qed.

Lemma dk_get_index_in_range (keys : PyDictKeysObject) (c : Z) :
  0 <= dk_get_index keys c -> 0 <= c < Z.of_nat (length (dk_indices keys)).
Proof.
  intros H. unfold dk_get_index in H.
  destruct (Z_lt_dec c 0) as [Hneg|Hnn];
    [rewrite aget_out_of_range in H by lia; unfold DKIX_EMPTY in H; lia|].
  destruct (Z_lt_dec c (Z.of_nat (length (dk_indices keys)))) as [Hlt|Hge]; [lia|].
  rewrite aget_out_of_range in H by lia. unfold DKIX_EMPTY in H. lia.
Qed.

Lemma distinct_slots_get (keys : PyDictKeysObject) :
  distinct_slots (dk_indices keys) = true <-> slots_distinct keys.
Proof.
  rewrite distinct_slots_spec. unfold slots_distinct. split.
  - intros H c1 c2 H1 H12.
    pose proof (dk_get_index_in_range keys c1 H1) as R1.
    pose proof (dk_get_index_in_range keys c2 ltac:(lia)) as R2.
    assert (E : Z.to_nat c1 = Z.to_nat c2); [|lia].
    apply (H _ _ (dk_get_index keys c1)); [| |exact H1].
    + unfold dk_get_index. apply aget_lookup. exact R1.
    + rewrite H12. unfold dk_get_index. apply aget_lookup. exact R2.
  - intros H i j x Hi Hj Hx.
    assert (E : Z.of_nat i = Z.of_nat j); [|lia].
    apply H; unfold dk_get_index; rewrite !aget_nat, ?Hi, ?Hj; [exact Hx | reflexivity].
Qed.

Lemma dict_inv_ok (mp : PyDictObject) :
  dict_inv mp = true ->
  dict_ok mp /\ slots_distinct (ma_keys mp) /\ dk_size (ma_keys mp) <= 2 ^ 60.
Proof.
  unfold dict_inv. rewrite andb_true_iff. intros [Hwf Hd].
  split; [apply dict_wf_ok; exact Hwf|].
  split; [apply distinct_slots_get; exact Hd | apply dict_wf_size; exact Hwf].
Qed.

Lemma dict_ok_inv (mp : PyDictObject) :
  dict_ok mp -> slots_distinct (ma_keys mp) -> dk_size (ma_keys mp) <= 2 ^ 60 ->
  dict_inv mp = true.
Proof.
  intros Hok Hd Hmax. unfold dict_inv. apply andb_true_iff.
  split; [apply dict_ok_wf; assumption | apply distinct_slots_get; exact Hd].
Qed.

(** ** What a move in place keeps *)

Lemma relocated_get (keys keys' : PyDictKeysObject) (hashpos ix dst c : Z) :
  relocated keys keys' hashpos ix dst ->
  dk_get_index keys' c = if Z.eq_dec c hashpos then dst else dk_get_index keys c.
Proof.
  intros Hrel. destruct (Z.eq_dec c hashpos) as [->|Hne].
  - exact (rel_cell _ _ _ _ _ Hrel).
  - exact (rel_other_cells _ _ _ _ _ Hrel c Hne).
Qed.

Lemma relocated_keys_ok (keys keys' : PyDictKeysObject) (hashpos ix dst : Z) :
  keys_ok keys -> relocated keys keys' hashpos ix dst ->
  0 <= dk_get_index keys hashpos -> 0 <= dst <= dk_nentries keys ->
  0 < dk_usable keys -> keys_ok keys'.
Proof.
  intros Hok Hrel Hcell Hdst Husable.
  pose proof (rel_size _ _ _ _ _ Hrel) as Hsize.
  pose proof (rel_nentries _ _ _ _ _ Hrel) as Hn.
  pose proof (rel_usable _ _ _ _ _ Hrel) as Hu.
  pose proof (rel_capacity _ _ _ _ _ Hrel) as Hcap.
  pose proof (rel_cells _ _ _ _ _ Hrel) as Hlen.
  split.
  - rewrite Hsize. exact (ok_size _ Hok).
  - rewrite Hlen, Hsize. exact (ok_indices _ Hok).
  - rewrite Hcap, Hsize. exact (ok_capacity _ Hok).
  - pose proof (ok_nentries _ Hok). lia.
  - lia.
  - pose proof (ok_usable _ Hok). lia.
  - intros c. rewrite (relocated_get _ _ _ _ _ c Hrel).
    pose proof (ok_cells _ Hok c). unfold DKIX_DUMMY in *.
    destruct (Z.eq_dec c hashpos); lia.
  - destruct (ok_empty _ Hok) as (c & Hc & Hempty). exists c.
    split; [rewrite Hsize; exact Hc|].
    rewrite (relocated_get _ _ _ _ _ c Hrel).
    destruct (Z.eq_dec c hashpos) as [->|Hne]; [|exact Hempty].
    rewrite Hempty in Hcell. unfold DKIX_EMPTY in Hcell. lia.
Qed.

Lemma relocated_distinct (keys keys' : PyDictKeysObject) (hashpos ix dst : Z) :
  slots_distinct keys -> relocated keys keys' hashpos ix dst ->
  (forall c, dk_get_index keys c <> dst) -> slots_distinct keys'.
Proof.
  intros Hd Hrel Hfree c1 c2.
  rewrite (relocated_get _ _ _ _ _ c1 Hrel), (relocated_get _ _ _ _ _ c2 Hrel).
  destruct (Z.eq_dec c1 hashpos) as [->|H1], (Z.eq_dec c2 hashpos) as [->|H2];
    intros Hnn Heq.
  - reflexivity.
  - exfalso. apply (Hfree c2). symmetry. exact Heq.
  - exfalso. apply (Hfree c1). exact Heq.
  - apply Hd; assumption.
Qed.

(** The dict a move in place leaves is well formed: [dst] is the slot
    [dk_nentries] and the begin offset steps over the vacated slot, or [dst]
    is the slot before the begin offset, which becomes the begin offset. *)
Lemma relocated_dict_ok (mp : PyDictObject) (keys' : PyDictKeysObject)
    (hashpos ix dst b' : Z) :
  dict_ok mp -> slots_distinct (ma_keys mp) ->
  relocated (ma_keys mp) keys' hashpos ix dst ->
  dk_get_index (ma_keys mp) hashpos = ix ->
  ma_offset mp <= ix < dk_nentries (ma_keys mp) ->
  is_live (DK_ENTRIES (ma_keys mp) ix) = true ->
  0 < dk_usable (ma_keys mp) ->
  (dst = dk_nentries (ma_keys mp) /\
   b' = (if ix =? ma_offset mp then ma_offset mp + 1 else ma_offset mp)) \/
  (dst = ma_offset mp - 1 /\ 0 < ma_offset mp /\ b' = ma_offset mp - 1) ->
  Z.of_nat (length (live_entries
                      {| ma_used := ma_used mp; ma_keys := keys'; ma_offset := b' |}))
  = ma_used mp ->
  dict_ok {| ma_used := ma_used mp; ma_keys := keys'; ma_offset := b' |} /\
  slots_distinct keys'.
Proof.
  intros Hok Hd Hrel Hcell Hix Hlive Husable Hcase Hused.
  pose proof (ok_offset _ Hok) as Hb. pose proof (ok_keys _ Hok) as Hk.
  pose proof (rel_nentries _ _ _ _ _ Hrel) as Hn.
  assert (Hunref : forall c, dk_get_index (ma_keys mp) c <> dst).
  { intros c Hc. pose proof (ok_cells _ Hk c) as Hcells.
    destruct Hcase as [[-> _] | (-> & Hpos & _)]; [lia|].
    destruct (ok_refer _ Hok c ltac:(lia)) as [Hge _]. lia. }
  assert (Hother : forall c, c <> hashpos -> 0 <= dk_get_index (ma_keys mp) c ->
            dk_get_index (ma_keys mp) c <> ix).
  { intros c Hne Hnn Heq. apply Hne. apply Hd; [exact Hnn|]. congruence. }
  assert (Hdst : 0 <= dst <= dk_nentries (ma_keys mp))
    by (destruct Hcase as [[-> _] | (-> & Hpos & _)]; lia).
  split; [|exact (relocated_distinct _ _ _ _ _ Hd Hrel Hunref)].
  split; cbn [ma_used ma_keys ma_offset].
  - apply (relocated_keys_ok _ _ _ _ _ Hk Hrel); [lia | exact Hdst | exact Husable].
  - destruct Hcase as [[-> ->] | (-> & Hpos & ->)]; [|lia].
    destruct (ix =? ma_offset mp); lia.
  - intros j Hj.
    destruct (Z.eq_dec j ix) as [->|Hjx];
      [rewrite (rel_zeroed _ _ _ _ _ Hrel); reflexivity|].
    rewrite (rel_other_slots _ _ _ _ _ Hrel j); [|
      destruct Hcase as [[-> ->] | (-> & Hpos & ->)];
      [destruct (ix =? ma_offset mp) eqn:E; lia | lia] | exact Hjx].
    apply (ok_before _ Hok).
    destruct Hcase as [[-> ->] | (-> & Hpos & ->)]; [|lia].
    destruct (ix =? ma_offset mp) eqn:E; [apply Z.eqb_eq in E|]; lia.
  - intros j Hj. rewrite (rel_other_slots _ _ _ _ _ Hrel j) by lia.
    apply (ok_after _ Hok). lia.
  - exact Hused.
  - intros c. rewrite (relocated_get _ _ _ _ _ c Hrel).
    destruct (Z.eq_dec c hashpos) as [->|Hne]; intros Hnn.
    + rewrite (rel_copied _ _ _ _ _ Hrel). split; [|exact Hlive].
      destruct Hcase as [[-> ->] | (-> & Hpos & ->)]; [|lia].
      destruct (ix =? ma_offset mp); lia.
    + destruct (ok_refer _ Hok c Hnn) as [Hge Hl].
      pose proof (Hother c Hne Hnn) as Hnx.
      rewrite (rel_other_slots _ _ _ _ _ Hrel _ (Hunref c) Hnx).
      split; [|exact Hl].
      destruct Hcase as [[-> ->] | (-> & Hpos & ->)]; [|lia].
      destruct (ix =? ma_offset mp) eqn:E; [apply Z.eqb_eq in E|]; lia.
Qed.

Section InPlace.
Context {rt : Runtime}.

(** A [move_to_end] that finds its key, is not a no-op and does not resize:
    what it returns. *)
Lemma move_in_place (self : PyODictObject) (key : PyObject) (last : bool) (ix : Z) :
  let mp := od_dict self in
  dict_ok mp -> ma_used mp <> 0 -> PyObject_Hash key <> -1 ->
  lookdict mp key (PyObject_Hash key) = Some ix -> 0 <= ix ->
  already_there mp last ix = false ->
  (if last then dk_usable (ma_keys mp) <> 0 else ma_offset mp <> 0) ->
  exists hashpos od',
    OrderedDict_move_to_end_impl self key last = Ok od' /\
    0 <= hashpos < dk_size (ma_keys mp) /\
    dk_get_index (ma_keys mp) hashpos = ix /\
    ma_offset mp <= ix < dk_nentries (ma_keys mp) /\
    is_live (DK_ENTRIES (ma_keys mp) ix) = true /\
    relocated (ma_keys mp) (ma_keys (od_dict od')) hashpos ix (move_target mp last) /\
    ma_offset (od_dict od') =
      (if last then if ix =? ma_offset mp then ma_offset mp + 1 else ma_offset mp
       else ma_offset mp - 1) /\
    ma_used (od_dict od') = ma_used mp /\
    od_state od' = Mach.size_t (od_state self + 1) /\
    exists l1 l2,
      live_entries mp = l1 ++ [DK_ENTRIES (ma_keys mp) ix] ++ l2 /\
      live_entries (od_dict od') =
        if last then l1 ++ l2 ++ [DK_ENTRIES (ma_keys mp) ix]
        else [DK_ENTRIES (ma_keys mp) ix] ++ l1 ++ l2.
Proof.
  intros mp Hok Hused Hhash Hlook Hix Hthere Hroom.
  pose proof (ok_room _ (ok_keys _ Hok)) as Hu. pose proof (ok_offset _ Hok) as Hb.
  rewrite (move_to_end_found self key last ix Hused Hhash Hlook Hix). cbv zeta.
  unfold already_there, move_target in *. fold mp. destruct last.
  - apply Z.eqb_neq in Hthere.
    destruct (move_to_end_last_stays self key _ ix Hok Hlook Hix Hthere Hroom)
      as (hashpos & Hprep & Hmove).
    destruct (moved_last_facts self _ _ ix hashpos Hprep eq_refl ltac:(fold mp; lia))
      as (Hrel & Hoff' & Hused' & l1 & l2 & Hl & Hl').
    exists hashpos. eexists. split; [exact Hmove|].
    split; [exact (prep_cell _ _ _ _ _ Hprep)|].
    split; [exact (prep_refers _ _ _ _ _ Hprep)|].
    split; [exact (prep_slot _ _ _ _ _ Hprep)|].
    split; [exact (prep_is_live _ _ _ _ _ Hprep)|].
    split; [exact Hrel|]. split; [exact Hoff'|]. split; [exact Hused'|].
    split; [reflexivity|]. exists l1, l2. auto.
  - apply Z.eqb_neq in Hthere.
    destruct (move_to_end_first_stays self key _ ix Hok Hlook Hix Hthere Hroom)
      as (hashpos & Hprep & Hmove).
    destruct (moved_first_facts self _ _ ix hashpos Hprep ltac:(fold mp; lia))
      as (Hrel & Hoff' & Hused' & l1 & l2 & Hl & Hl').
    exists hashpos. eexists. split; [exact Hmove|].
    split; [exact (prep_cell _ _ _ _ _ Hprep)|].
    split; [exact (prep_refers _ _ _ _ _ Hprep)|].
    split; [exact (prep_slot _ _ _ _ _ Hprep)|].
    split; [exact (prep_is_live _ _ _ _ _ Hprep)|].
    split; [exact Hrel|]. split; [exact Hoff'|]. split; [exact Hused'|].
    split; [reflexivity|]. exists l1, l2. auto.
Qed.

(** A call that finds its key at the slot it would move it to returns the
    ordered dict as it is. *)
Lemma move_noop (self : PyODictObject) (key : PyObject) (last : bool) (ix : Z) :
  ma_used (od_dict self) <> 0 -> PyObject_Hash key <> -1 ->
  lookdict (od_dict self) key (PyObject_Hash key) = Some ix -> 0 <= ix ->
  already_there (od_dict self) last ix = true ->
  OrderedDict_move_to_end_impl self key last = Ok self.
Proof.
  intros Hused Hhash Hlook Hix Hthere.
  rewrite (move_to_end_found self key last ix Hused Hhash Hlook Hix). cbv zeta.
  unfold already_there in Hthere. destruct last.
  - unfold move_to_end_last. rewrite Hthere. reflexivity.
  - unfold move_to_end_first. rewrite Hthere. reflexivity.
Qed.

End InPlace.

(** ** Lookups after a move in place *)

Lemma probe_search_map (f : Z -> Z) (v v' : Z -> option Z) :
  (forall c, v' c = option_map f (v c)) ->
  forall (fuel : nat) (mask perturb i : Z),
  probe_search v' fuel mask perturb i = option_map f (probe_search v fuel mask perturb i).
Proof.
  intros Hv. induction fuel as [|fuel IH]; intros mask perturb i; [reflexivity|].
  cbn [probe_search]. rewrite Hv. destruct (v i); [reflexivity|]. apply IH.
Qed.

Lemma target_unreferenced (mp : PyDictObject) (last : bool) :
  dict_ok mp -> (last = false -> 0 < ma_offset mp) ->
  0 <= move_target mp last /\
  forall c, dk_get_index (ma_keys mp) c <> move_target mp last.
Proof.
  intros Hok Hfront. unfold move_target. destruct last.
  - split; [apply (ok_nentries _ (ok_keys _ Hok))|].
    intros c. pose proof (ok_cells _ (ok_keys _ Hok) c). lia.
  - specialize (Hfront eq_refl). split; [lia|]. intros c Hc.
    destruct (ok_refer _ Hok c ltac:(lia)) as [Hge _]. lia.
Qed.

Section Relabel.
Context {rt : Runtime}.
Variables (keys keys' : PyDictKeysObject) (hashpos ix dst : Z).
Hypothesis Hrel : relocated keys keys' hashpos ix dst.
Hypothesis Hd : slots_distinct keys.
Hypothesis Hcell : dk_get_index keys hashpos = ix.
Hypothesis Hix : 0 <= ix.
Hypothesis Hdst : 0 <= dst.
Hypothesis Hunref : forall c, dk_get_index keys c <> dst.

Lemma relocated_entry (r : Z) :
  (exists c, dk_get_index keys c = r) -> 0 <= r ->
  DK_ENTRIES keys' (relabel ix dst r) = DK_ENTRIES keys r.
Proof.
  intros [c Hc] Hr. unfold relabel. destruct (r =? ix) eqn:E.
  - apply Z.eqb_eq in E. rewrite E. exact (rel_copied _ _ _ _ _ Hrel).
  - apply Z.eqb_neq in E. apply (rel_other_slots _ _ _ _ _ Hrel); [|exact E].
    rewrite <- Hc. apply Hunref.
Qed.

Lemma relocated_cell (c : Z) :
  dk_get_index keys' c = relabel ix dst (dk_get_index keys c) /\
  (0 <= dk_get_index keys c ->
   DK_ENTRIES keys' (dk_get_index keys' c) = DK_ENTRIES keys (dk_get_index keys c)).
Proof.
  assert (E : dk_get_index keys' c = relabel ix dst (dk_get_index keys c)).
  { rewrite (relocated_get _ _ _ _ _ c Hrel). unfold relabel.
    destruct (Z.eq_dec c hashpos) as [->|Hne].
    - rewrite Hcell, Z.eqb_refl. reflexivity.
    - destruct (dk_get_index keys c =? ix) eqn:E; [|reflexivity].
      apply Z.eqb_eq in E. exfalso. apply Hne. apply Hd; [lia | congruence]. }
  split; [exact E|]. intros Hnn. rewrite E. apply relocated_entry; eauto.
Qed.

Lemma relabel_negative (r : Z) : r < 0 -> relabel ix dst r = r.
Proof. intros Hr. unfold relabel. rewrite (proj2 (Z.eqb_neq r ix)) by lia. reflexivity. Qed.

Lemma relabel_nonneg (r : Z) : 0 <= r -> 0 <= relabel ix dst r.
Proof. intros Hr. unfold relabel. destruct (r =? ix); lia. Qed.

Lemma relocated_visit_ident (key2 : PyObject) (c : Z) :
  lookdict_ident_visit keys' key2 c
  = option_map (relabel ix dst) (lookdict_ident_visit keys key2 c).
Proof.
  destruct (relocated_cell c) as [E He]. unfold lookdict_ident_visit, DKIX_EMPTY.
  destruct (Z_lt_dec (dk_get_index keys c) 0) as [Hneg|Hnn].
  - rewrite E, relabel_negative by exact Hneg.
    destruct (dk_get_index keys c =? -1);
      [cbn [option_map]; rewrite relabel_negative by lia; reflexivity|].
    rewrite (proj2 (Z.leb_gt 0 _)) by lia. reflexivity.
  - rewrite (He ltac:(lia)), E.
    pose proof (relabel_nonneg (dk_get_index keys c) ltac:(lia)) as Hr.
    rewrite (proj2 (Z.eqb_neq (relabel ix dst (dk_get_index keys c)) (-1))) by lia.
    rewrite (proj2 (Z.eqb_neq (dk_get_index keys c) (-1))) by lia.
    rewrite (proj2 (Z.leb_le 0 (relabel ix dst (dk_get_index keys c)))) by lia.
    rewrite (proj2 (Z.leb_le 0 (dk_get_index keys c))) by lia.
    cbn [andb]. destruct (me_key _ =? key2); reflexivity.
Qed.

Lemma relocated_visit (key2 : PyObject) (c : Z) :
  lookdict_visit keys' key2 c
  = option_map (relabel ix dst) (lookdict_visit keys key2 c).
Proof.
  destruct (relocated_cell c) as [E He]. unfold lookdict_visit, DKIX_EMPTY.
  destruct (Z_lt_dec (dk_get_index keys c) 0) as [Hneg|Hnn].
  - rewrite E, relabel_negative by exact Hneg.
    destruct (dk_get_index keys c =? -1);
      [cbn [option_map]; rewrite relabel_negative by lia; reflexivity|].
    rewrite (proj2 (Z.leb_gt 0 _)) by lia. reflexivity.
  - rewrite (He ltac:(lia)), E.
    pose proof (relabel_nonneg (dk_get_index keys c) ltac:(lia)) as Hr.
    rewrite (proj2 (Z.eqb_neq (relabel ix dst (dk_get_index keys c)) (-1))) by lia.
    rewrite (proj2 (Z.eqb_neq (dk_get_index keys c) (-1))) by lia.
    rewrite (proj2 (Z.leb_le 0 (relabel ix dst (dk_get_index keys c)))) by lia.
    rewrite (proj2 (Z.leb_le 0 (dk_get_index keys c))) by lia.
    destruct (PyObject_RichCompareBool _ key2 <? 0);
      [cbn [option_map]; rewrite relabel_negative by (unfold DKIX_ERROR; lia);
       reflexivity|].
    destruct (0 <? PyObject_RichCompareBool _ key2); reflexivity.
Qed.

Lemma relocated_lookdict_ident (key2 : PyObject) (hash2 : Z) :
  lookdict_ident keys' key2 hash2
  = option_map (relabel ix dst) (lookdict_ident keys key2 hash2).
Proof.
  unfold lookdict_ident. rewrite !lookdict_ident_loop_search.
  unfold probe_fuel, DK_MASK. rewrite (rel_size _ _ _ _ _ Hrel).
  apply probe_search_map. intros c. apply relocated_visit_ident.
Qed.

Lemma relocated_lookdict (mp mp' : PyDictObject) (key2 : PyObject) (hash2 : Z) :
  ma_keys mp = keys -> ma_keys mp' = keys' ->
  lookdict mp' key2 hash2 = option_map (relabel ix dst) (lookdict mp key2 hash2).
Proof.
  intros E1 E2. unfold lookdict, probe_fuel, DK_MASK.
  rewrite E1, E2, (rel_size _ _ _ _ _ Hrel).
  apply probe_search_map. intros c. apply relocated_visit.
Qed.

End Relabel.

(** ** [move_to_end] without a resize *)

Section MoveInPlace.
Context {rt : Runtime}.

Lemma moved_used (l1 l2 : list PyDictKeyEntry) (e : PyDictKeyEntry) (last : bool)
    (live live' : list PyDictKeyEntry) :
  live = l1 ++ [e] ++ l2 ->
  live' = (if last then l1 ++ l2 ++ [e] else [e] ++ l1 ++ l2) ->
  length live' = length live.
Proof. intros -> ->. destruct last; rewrite !length_app; simpl; lia. Qed.

(** X5: a [move_to_end] that does not resize keeps the dict well formed,
    with one cell per slot: this holds for [last=True] when the entry array
    has a usable slot left, and for [last=False] when, besides, the begin
    offset is above 0. *)
Theorem move_to_end_keeps_invariant (self : PyODictObject) (key : PyObject)
    (last : bool) (ix : Z) (od' : PyODictObject) :
  dict_inv (od_dict self) = true ->
  ma_used (od_dict self) <> 0 -> PyObject_Hash key <> -1 ->
  lookdict (od_dict self) key (PyObject_Hash key) = Some ix -> 0 <= ix ->
  0 < dk_usable (ma_keys (od_dict self)) ->
  (last = false -> 0 < ma_offset (od_dict self)) ->
  OrderedDict_move_to_end_impl self key last = Ok od' ->
  dict_inv (od_dict od') = true.
Proof.
  intros Hinv Hused Hhash Hlook Hix Husable Hfront Hmove.
  destruct (already_there (od_dict self) last ix) eqn:Hthere.
  { rewrite (move_noop self key last ix Hused Hhash Hlook Hix Hthere) in Hmove.
    injection Hmove as <-. exact Hinv. }
  apply dict_inv_ok in Hinv as (Hok & Hd & Hmax).
  destruct (move_in_place self key last ix Hok Hused Hhash Hlook Hix Hthere)
    as (hashpos & od'' & Hmove' & Hpos & Hcell & Hslot & Hlive & Hrel & Hoff & Hu
        & _ & l1 & l2 & Hl & Hl').
  { destruct last; [lia | specialize (Hfront eq_refl); lia]. }
  rewrite Hmove' in Hmove. injection Hmove as <-.
  destruct (od_dict od'') as [used' keys' b'] eqn:Hod. cbn [ma_used ma_keys ma_offset] in *.
  subst used'.
  destruct (relocated_dict_ok (od_dict self) keys' hashpos ix
              (move_target (od_dict self) last) b' Hok Hd Hrel Hcell Hslot Hlive Husable)
    as [Hok' Hd'].
  - unfold move_target. destruct last; [left; auto|].
    right. specialize (Hfront eq_refl). auto.
  - rewrite <- (ok_used _ Hok). f_equal.
    apply (moved_used l1 l2 _ last _ _ Hl Hl').
  - apply dict_ok_inv; [exact Hok' | exact Hd'|].
    cbn [ma_keys]. rewrite (rel_size _ _ _ _ _ Hrel). exact Hmax.
Qed.




(** X9: the [last=False] block decrements [dk_usable] without testing it.
    On a well-formed dict whose entry array is used up ([dk_usable] is 0) and
    whose begin offset is above 0, a call that moves an entry to the front
    succeeds without a resize and leaves [dk_usable] at [-1] and
    [dk_nentries] one above the length of the entry array: a dict that is not
    well formed any more. *)
Theorem move_to_front_overdraws (self : PyODictObject) (key : PyObject) (ix : Z) :
  dict_wf (od_dict self) = true ->
  ma_used (od_dict self) <> 0 -> PyObject_Hash key <> -1 ->
  lookdict (od_dict self) key (PyObject_Hash key) = Some ix -> 0 <= ix ->
  ix <> ma_offset (od_dict self) -> 0 < ma_offset (od_dict self) ->
  dk_usable (ma_keys (od_dict self)) = 0 ->
  exists od',
    OrderedDict_move_to_end_impl self key false = Ok od' /\
    dk_usable (ma_keys (od_dict od')) = -1 /\
    dk_nentries (ma_keys (od_dict od'))
    = Z.of_nat (length (dk_entries (ma_keys (od_dict od')))) + 1 /\
    dict_wf (od_dict od') = false.
Proof.
  intros Hwf Hused Hhash Hlook Hix Hne Hoff Husable.
  apply dict_wf_ok in Hwf.
  destruct (move_in_place self key false ix Hwf Hused Hhash Hlook Hix)
    as (hashpos & od' & Hmove & _ & _ & _ & _ & Hrel & _).
  { unfold already_there. apply Z.eqb_neq. exact Hne. }
  { lia. }
  exists od'. split; [exact Hmove|].
  pose proof (rel_usable _ _ _ _ _ Hrel) as Hu.
  pose proof (rel_nentries _ _ _ _ _ Hrel) as Hn.
  pose proof (rel_capacity _ _ _ _ _ Hrel) as Hcap.
  pose proof (ok_usable _ (ok_keys _ Hwf)) as Hlen.
  split; [lia|]. split; [lia|].
  destruct (dict_wf (od_dict od')) eqn:E; [|reflexivity].
  apply dict_wf_ok in E. pose proof (ok_room _ (ok_keys _ E)). lia.
Qed.

End MoveInPlace.

(** ** The order [move_to_end] leaves *)

Lemma items_split (l1 l2 : list PyDictKeyEntry) (e : PyDictKeyEntry) (last : bool)
    (mp mp' : PyDictObject) :
  live_entries mp = l1 ++ [e] ++ l2 ->
  live_entries mp' = (if last then l1 ++ l2 ++ [e] else [e] ++ l1 ++ l2) ->
  let pairs := List.map (fun e => (me_key e, me_value e)) in
  items mp = pairs l1 ++ [(me_key e, me_value e)] ++ pairs l2 /\
  items mp' =
    if last then pairs l1 ++ pairs l2 ++ [(me_key e, me_value e)]
    else [(me_key e, me_value e)] ++ pairs l1 ++ pairs l2.
Proof.
  intros H H' pairs. unfold items. rewrite H, H'. unfold pairs.
  destruct last; rewrite !List.map_app; auto.
Qed.

(** The live entries around an entry that is where [move_to_end] would put
    it: it is the last of them, resp. the first. *)
Lemma live_entries_there (mp : PyDictObject) (last : bool) (ix : Z) :
  0 <= ma_offset mp <= ix -> ix < dk_nentries (ma_keys mp) ->
  is_live (DK_ENTRIES (ma_keys mp) ix) = true ->
  already_there mp last ix = true ->
  exists l1 l2,
    live_entries mp = l1 ++ [DK_ENTRIES (ma_keys mp) ix] ++ l2 /\
    live_entries mp =
      if last then l1 ++ l2 ++ [DK_ENTRIES (ma_keys mp) ix]
      else [DK_ENTRIES (ma_keys mp) ix] ++ l1 ++ l2.
Proof.
  intros Hb Hn Hlive Hthere. unfold already_there in Hthere.
  pose proof (is_live_in_array _ _ Hlive) as Hin.
  unfold live_entries, DK_ENTRIES in *. destruct last; apply Z.eqb_eq in Hthere.
  - exists (List.filter is_live
              (slots_between (ma_offset mp) ix (dk_entries (ma_keys mp)))), [].
    replace (dk_nentries (ma_keys mp)) with (ix + 1) by lia.
    rewrite slots_between_snoc, List.filter_app by lia.
    cbn [List.filter app]. rewrite Hlive. auto.
  - exists [], (List.filter is_live
                  (slots_between (ix + 1) (dk_nentries (ma_keys mp))
                     (dk_entries (ma_keys mp)))).
    rewrite <- Hthere. rewrite slots_between_cons by lia.
    cbn [List.filter app]. rewrite Hlive. auto.
Qed.

Section Order.
Context {rt : Runtime}.

(** The entry a successful [move_to_end] has moved, and the live entries
    before and after it. *)
Lemma move_to_end_lists (self : PyODictObject) (key : PyObject) (last : bool)
    (ix : Z) (od' : PyODictObject) :
  dict_wf (od_dict self) = true ->
  (forall n, USABLE_FRACTION n = Z.shiftl n 1 / 3) ->
  ma_used (od_dict self) <> 0 -> PyObject_Hash key <> -1 ->
  lookdict (od_dict self) key (PyObject_Hash key) = Some ix -> 0 <= ix ->
  OrderedDict_move_to_end_impl self key last = Ok od' ->
  exists l1 l2 e,
    me_key e = me_key (DK_ENTRIES (ma_keys (od_dict self)) ix) /\
    live_entries (od_dict self) = l1 ++ [e] ++ l2 /\
    live_entries (od_dict od') = if last then l1 ++ l2 ++ [e] else [e] ++ l1 ++ l2.
Proof.
  intros Hwf Hlaw Hused Hhash Hlook Hix Hmove.
  assert (Hsz := dict_wf_size _ Hwf). apply dict_wf_ok in Hwf.
  assert (Hpos := dict_ok_used_pos _ Hwf Hused).
  pose proof (ok_offset _ Hwf) as Hb.
  pose proof (ok_room _ (ok_keys _ Hwf)) as Hroom.
  destruct (already_there (od_dict self) last ix) eqn:Hthere.
  { rewrite (move_noop self key last ix Hused Hhash Hlook Hix Hthere) in Hmove.
    injection Hmove as <-.
    destruct (prepared_in_place _ key _ ix Hwf Hlook Hix) as (hashpos & _ & Hprep).
    destruct (live_entries_there (od_dict self) last ix) as (l1 & l2 & Hl & Hl');
      try assumption.
    - pose proof (prep_slot _ _ _ _ _ Hprep). lia.
    - apply (prep_slot _ _ _ _ _ Hprep).
    - exact (prep_is_live _ _ _ _ _ Hprep).
    - exists l1, l2, (DK_ENTRIES (ma_keys (od_dict self)) ix). auto. }
  destruct (if last then dk_usable (ma_keys (od_dict self)) =? 0
            else ma_offset (od_dict self) =? 0) eqn:Hresize.
  - rewrite (move_to_end_found self key last ix Hused Hhash Hlook Hix) in Hmove.
    cbv zeta in Hmove. unfold already_there in Hthere.
    destruct last; apply Z.eqb_neq in Hthere; apply Z.eqb_eq in Hresize.
    + destruct (move_to_end_last_resized self _ _ ix od' Hwf Hsz Hlaw Hpos Hthere
                  Hresize Hmove)
        as (keys' & r & hashpos & _ & _ & _ & Husable' & _ & Hprep & ->).
      cbv zeta in Hprep.
      destruct (moved_last_facts self _ _ r hashpos Hprep eq_refl Husable')
        as (_ & _ & _ & l1 & l2 & Hl & Hl').
      exists l1, l2, (DK_ENTRIES keys' r).
      split; [exact (prep_key _ _ _ _ _ Hprep) | auto].
    + destruct (move_to_end_first_resized self _ _ ix od' Hwf Hsz Hlaw Hpos Hthere
                  Hresize Hmove)
        as (keys' & r & hashpos & _ & _ & _ & _ & _ & Hprep & ->).
      cbv zeta in Hprep.
      assert (Hge := front_reserve_ge (od_dict self) ltac:(lia)).
      unfold front_reserve in Hge.
      assert (Hfacts := moved_first_facts self _ _ r hashpos Hprep).
      cbv zeta in Hfacts. cbn [ma_offset ma_keys] in Hfacts.
      destruct (Hfacts ltac:(lia)) as (_ & _ & _ & l1 & l2 & Hl & Hl').
      exists l1, l2, (DK_ENTRIES keys' r).
      split; [exact (prep_key _ _ _ _ _ Hprep) | auto].
  - destruct (move_in_place self key last ix Hwf Hused Hhash Hlook Hix Hthere)
      as (hashpos & od'' & Hmove' & _ & _ & _ & _ & _ & _ & _ & _ & l1 & l2 & Hl & Hl').
    { destruct last; apply Z.eqb_neq in Hresize; exact Hresize. }
    rewrite Hmove' in Hmove. injection Hmove as <-.
    exists l1, l2, (DK_ENTRIES (ma_keys (od_dict self)) ix). auto.
Qed.

(** X4: what [move_to_end] is for.  A successful call on a well-formed
    ordered dict, with or without a resize, leaves the pair of the key last
    ([last=True]) or first ([last=False]) in iteration order, and the other
    pairs in the order they had. *)
Theorem move_to_end_order (self : PyODictObject) (key : PyObject) (last : bool)
    (ix : Z) (od' : PyODictObject) :
  dict_wf (od_dict self) = true ->
  (forall n, USABLE_FRACTION n = Z.shiftl n 1 / 3) ->
  ma_used (od_dict self) <> 0 -> PyObject_Hash key <> -1 ->
  lookdict (od_dict self) key (PyObject_Hash key) = Some ix -> 0 <= ix ->
  OrderedDict_move_to_end_impl self key last = Ok od' ->
  exists before after value,
    let pair := (me_key (DK_ENTRIES (ma_keys (od_dict self)) ix), value) in
    items (od_dict self) = before ++ [pair] ++ after /\
    items (od_dict od') =
      if last then before ++ after ++ [pair] else [pair] ++ before ++ after.
Proof.
  intros Hwf Hlaw Hused Hhash Hlook Hix Hmove.
  destruct (move_to_end_lists self key last ix od' Hwf Hlaw Hused Hhash Hlook Hix Hmove)
    as (l1 & l2 & e & Hkey & Hl & Hl').
  destruct (items_split l1 l2 e last _ _ Hl Hl') as [H H']. cbv zeta in H, H'.
  exists (List.map (fun e => (me_key e, me_value e)) l1),
         (List.map (fun e => (me_key e, me_value e)) l2), (me_value e).
  cbv zeta. rewrite <- Hkey. auto.
Qed.

End Order.

Lemma move_to_end_order_witness :
  exists od',
    OrderedDict_move_to_end_impl (rt := Sample.runtime) Sample.od3 10 true = Ok od' /\
    exists before after value,
      let pair := (me_key (DK_ENTRIES (ma_keys (od_dict Sample.od3)) 0), value) in
      items (od_dict Sample.od3) = before ++ [pair] ++ after /\
      items (od_dict od') = before ++ after ++ [pair].
Proof.
  eexists. split; [vm_compute; reflexivity|].
  apply (move_to_end_order (rt := Sample.runtime) Sample.od3 10 true 0).
  - reflexivity.
  - intros n. reflexivity.
  - simpl. lia.
  - simpl. lia.
  - reflexivity.
  - lia.
  - vm_compute. reflexivity.
Defined.

Lemma move_to_end_keeps_invariant_witness :
  exists od',
    OrderedDict_move_to_end_impl (rt := Sample.runtime) Sample.od_front 12 false
    = Ok od' /\
    dict_inv (od_dict od') = true.
Proof.
  eexists. split; [vm_compute; reflexivity|].
  apply (move_to_end_keeps_invariant (rt := Sample.runtime) Sample.od_front 12 false 5).
  - reflexivity.
  - simpl. lia.
  - simpl. lia.
  - reflexivity.
  - lia.
  - simpl. lia.
  - intros _. simpl. lia.
  - vm_compute. reflexivity.
Defined.




Lemma move_to_front_overdraws_witness :
  exists od',
    OrderedDict_move_to_end_impl (rt := Sample.runtime) Sample.od_full 12 false
    = Ok od' /\
    dk_usable (ma_keys (od_dict od')) = -1 /\
    dk_nentries (ma_keys (od_dict od'))
    = Z.of_nat (length (dk_entries (ma_keys (od_dict od')))) + 1 /\
    dict_wf (od_dict od') = false.
Proof.
  apply (move_to_front_overdraws (rt := Sample.runtime) Sample.od_full 12 5).
  - reflexivity.
  - simpl. lia.
  - simpl. lia.
  - reflexivity.
  - lia.
  - simpl. lia.
  - simpl. lia.
  - reflexivity.
Defined.

(** ** The cells of the hash index (dict-common.h) *)

Lemma pow2_size (s : Z) :
  is_pow2 s = true -> s <= 2 ^ 62 ->
  exists k : nat, (k <= 62)%nat /\ s = 2 ^ Z.of_nat k.
Proof.
  intros Hp Hmax. pose proof (is_pow2_log s Hp) as E.
  exists (Z.to_nat (Z.log2 s)). split; [|exact E].
  assert (Z.of_nat (Z.to_nat (Z.log2 s)) <= 62); [|lia].
  apply (Z.pow_le_mono_r_iff 2); [lia | lia | rewrite <- E; exact Hmax].
Qed.

(** The width [dk_set_index] narrows its value to is the width [DK_IXSIZE]
    gives the cells. *)
Lemma dk_set_index_width (keys : PyDictKeysObject) (i ix : Z) :
  dk_indices (dk_set_index keys i ix)
  = aset (dk_indices keys) i (Mach.sint (8 * DK_IXSIZE keys) ix).
Proof.
  unfold dk_set_index, DK_IXSIZE, DK_SIZE. cbn [dk_indices]. f_equal.
  destruct (dk_size keys <=? 255) eqn:E1; [reflexivity|].
  destruct (dk_size keys <=? 65535) eqn:E2; [reflexivity|].
  rewrite Z.ltb_antisym. destruct (dk_size keys <=? 4294967295); reflexivity.
Qed.

(** An index below the size of a table of [2^k] cells fits the cells. *)
Lemma cell_holds (keys : PyDictKeysObject) (k : nat) (ix : Z) :
  (k <= 62)%nat -> dk_size keys = 2 ^ Z.of_nat k ->
  DKIX_DUMMY <= ix < dk_size keys ->
  Mach.sint (8 * DK_IXSIZE keys) ix = ix.
Proof.
  intros Hk Hsize Hix. unfold DK_IXSIZE, DK_SIZE, DKIX_DUMMY in *.
  assert (P : forall a b : nat, (a <= b)%nat -> 2 ^ Z.of_nat a <= 2 ^ Z.of_nat b)
    by (intros; apply Z.pow_le_mono_r; lia).
  destruct (dk_size keys <=? 255) eqn:E1.
  { apply Z.leb_le in E1. apply sint_small; [lia|].
    assert (k < 8)%nat by (apply (pow2_below k 8 255); [lia | reflexivity]).
    specialize (P k 7%nat ltac:(lia)). change (2 ^ Z.of_nat 7) with 128 in P.
    change (2 ^ (8 * 1 - 1)) with 128. lia. }
  destruct (dk_size keys <=? 65535) eqn:E2.
  { apply Z.leb_le in E2. apply sint_small; [lia|].
    assert (k < 16)%nat by (apply (pow2_below k 16 65535); [lia | reflexivity]).
    specialize (P k 15%nat ltac:(lia)). change (2 ^ Z.of_nat 15) with 32768 in P.
    change (2 ^ (8 * 2 - 1)) with 32768. lia. }
  destruct (dk_size keys <=? 4294967295) eqn:E3.
  { apply Z.leb_le in E3. apply sint_small; [lia|].
    assert (k < 32)%nat by (apply (pow2_below k 32 4294967295); [lia | reflexivity]).
    specialize (P k 31%nat ltac:(lia)). change (2 ^ Z.of_nat 31) with 2147483648 in P.
    change (2 ^ (8 * 4 - 1)) with 2147483648. lia. }
  apply sint_small; [lia|].
  specialize (P k 62%nat ltac:(lia)).
  change (2 ^ Z.of_nat 62) with 4611686018427387904 in P.
  change (2 ^ (8 * 8 - 1)) with 9223372036854775808. lia.
Qed.

(** X1: [dk_set_index] and [dk_get_index] on a table of a power of two of
    cells.  The value is stored narrowed to the [DK_IXSIZE] bytes of a cell;
    every index the table can hold ([DKIX_DUMMY], [DKIX_EMPTY] and the slots
    below [dk_size]) is read back as it was written; the other cells, the
    entries and the counters are left alone. *)
Theorem dk_index_round_trip (keys : PyDictKeysObject) (i ix : Z) :
  is_pow2 (dk_size keys) = true -> dk_size keys <= 2 ^ 62 ->
  Z.of_nat (length (dk_indices keys)) = dk_size keys ->
  0 <= i < dk_size keys -> DKIX_DUMMY <= ix < dk_size keys ->
  let keys' := dk_set_index keys i ix in
  dk_indices keys' = aset (dk_indices keys) i (Mach.sint (8 * DK_IXSIZE keys) ix) /\
  dk_get_index keys' i = ix /\
  (forall j, j <> i -> dk_get_index keys' j = dk_get_index keys j) /\
  dk_entries keys' = dk_entries keys /\ dk_size keys' = dk_size keys /\
  dk_nentries keys' = dk_nentries keys /\ dk_usable keys' = dk_usable keys.
Proof.
  intros Hp Hmax Hlen Hi Hix keys'.
  destruct (pow2_size _ Hp Hmax) as (k & Hk & Hsize).
  pose proof (dk_set_index_width keys i ix) as Hw. fold keys' in Hw.
  split; [exact Hw|].
  rewrite (cell_holds keys k ix Hk Hsize Hix) in Hw.
  split; [|split; [|repeat split]].
  - unfold dk_get_index. rewrite Hw. apply aget_aset_same. lia.
  - intros j Hj. unfold dk_get_index. rewrite Hw. apply aget_aset_other. lia.
Qed.

Lemma dk_index_round_trip_witness :
  let keys' := dk_set_index Sample.keys3 5 DKIX_DUMMY in
  dk_indices keys'
  = aset (dk_indices Sample.keys3) 5
      (Mach.sint (8 * DK_IXSIZE Sample.keys3) DKIX_DUMMY) /\
  dk_get_index keys' 5 = DKIX_DUMMY /\
  (forall j, j <> 5 -> dk_get_index keys' j = dk_get_index Sample.keys3 j) /\
  dk_entries keys' = dk_entries Sample.keys3 /\
  dk_size keys' = dk_size Sample.keys3 /\
  dk_nentries keys' = dk_nentries Sample.keys3 /\
  dk_usable keys' = dk_usable Sample.keys3.
Proof.
  apply (dk_index_round_trip Sample.keys3 5 DKIX_DUMMY).
  - reflexivity.
  - vm_compute. discriminate.
  - reflexivity.
  - simpl. lia.
  - unfold DKIX_DUMMY. simpl. lia.
Defined.

(** A table of 128 cells has cells of one byte: the slot 128, which such a
    table cannot hold, is read back as -128. *)
Example dk_set_index_narrows :
  let keys :=
    {| dk_addr := 64; dk_refcnt := 1; dk_size := 128; dk_usable := 85;
       dk_nentries := 0; dk_indices := replicate 128 DKIX_EMPTY;
       dk_entries := replicate 85 entry_zero |} in
  dk_get_index (dk_set_index keys 0 128) 0 = -128.
Proof. reflexivity. Qed.

(** ** [lookdict_ident] on a table without EMPTY cells *)

Lemma probe_search_none (visit : Z -> option Z) (k : nat) :
  (k <= 64)%nat ->
  (forall c, 0 <= c < 2 ^ Z.of_nat k -> visit c = None) ->
  forall (fuel : nat) (perturb i : Z), 0 <= i < 2 ^ Z.of_nat k ->
  probe_search visit fuel (2 ^ Z.of_nat k - 1) perturb i = None.
Proof.
  intros Hk Hnone. induction fuel as [|fuel IH]; intros perturb i Hi; [reflexivity|].
  cbn [probe_search]. rewrite (Hnone i Hi). apply IH. apply probe_next_range. exact Hk.
Qed.

Lemma lookdict_ident_start (keys : PyDictKeysObject) (hash : Z) (k : nat) :
  (k <= 63)%nat -> dk_size keys = 2 ^ Z.of_nat k ->
  Mach.size_t (DK_MASK keys) = 2 ^ Z.of_nat k - 1 /\
  0 <= Z.land (Mach.size_t hash) (2 ^ Z.of_nat k - 1) < 2 ^ Z.of_nat k.
Proof.
  intros Hk Hsize. split.
  - unfold DK_MASK. rewrite Hsize. apply mask_of_size. lia.
  - rewrite land_mask_l by lia. apply Z.mod_pos_bound. apply Z.pow_pos_nonneg; lia.
Qed.

(** X2: [lookdict_ident] needs no EMPTY cell to return when the key object
    is in the table.  On a table of [2^k] cells one of which refers to an
    entry with that very key, it returns whatever the hash it is given: the
    probe sequence reaches every cell.  It returns [DKIX_EMPTY] or a slot
    that holds the key, and a slot that holds the key when the table has no
    EMPTY cell. *)
Theorem lookdict_ident_finds_stored (keys : PyDictKeysObject) (key : PyObject)
    (hash : Z) (k : nat) (c : Z) :
  (k <= 63)%nat -> dk_size keys = 2 ^ Z.of_nat k ->
  0 <= c < dk_size keys -> 0 <= dk_get_index keys c ->
  me_key (DK_ENTRIES keys (dk_get_index keys c)) = key ->
  exists r,
    lookdict_ident keys key hash = Some r /\
    (r = DKIX_EMPTY \/ 0 <= r /\ me_key (DK_ENTRIES keys r) = key) /\
    ((forall c', 0 <= c' < dk_size keys -> dk_get_index keys c' <> DKIX_EMPTY) ->
     0 <= r /\ me_key (DK_ENTRIES keys r) = key).
Proof.
  intros Hk Hsize Hc Hcell Hkey.
  destruct (lookdict_ident_start keys hash k Hk Hsize) as [Hmask Hfirst].
  assert (Hsome : is_Some (lookdict_ident keys key hash)).
  { unfold lookdict_ident.
    rewrite lookdict_ident_loop_search, Hmask, (probe_fuel_pow2 keys k Hsize).
    apply (probe_search_total _ k _ _ _ c); try lia.
    - apply size_t_range.
    - assert (V : lookdict_ident_visit keys key c = Some (dk_get_index keys c))
        by (apply lookdict_ident_visit_answer; auto).
      rewrite V. eauto. }
  destruct Hsome as [r Hr]. exists r. split; [exact Hr|].
  pose proof (lookdict_ident_no_error keys key hash r Hr) as Hans.
  split; [exact Hans|]. intros Hfull.
  destruct Hans as [Hempty|Hfound]; [|exact Hfound]. exfalso.
  generalize Hr. unfold lookdict_ident.
  rewrite lookdict_ident_loop_search, probe_search_first, Hmask.
  intros (n & _ & Hv & _). apply lookdict_ident_visit_answer in Hv as [Hv _].
  apply (Hfull (probe_cell n (2 ^ Z.of_nat k - 1) (Mach.size_t hash)
                  (Z.land (Mach.size_t hash) (2 ^ Z.of_nat k - 1)))).
  - rewrite Hsize. apply probe_cell_range; [lia | exact Hfirst].
  - rewrite Hv. exact Hempty.
Qed.

(** X3: the loop of [lookdict_ident] has no other way out.  On a table of
    [2^k] cells none of which is EMPTY or refers to an entry with the key
    object, no number of iterations makes it return. *)
Theorem lookdict_ident_spins (keys : PyDictKeysObject) (key : PyObject)
    (hash : Z) (k : nat) :
  (k <= 63)%nat -> dk_size keys = 2 ^ Z.of_nat k ->
  (forall c, 0 <= c < dk_size keys ->
     dk_get_index keys c <> DKIX_EMPTY /\
     ~ (0 <= dk_get_index keys c /\
        me_key (DK_ENTRIES keys (dk_get_index keys c)) = key)) ->
  lookdict_ident keys key hash = None /\
  forall fuel,
    lookdict_ident_loop fuel keys key (Mach.size_t (DK_MASK keys))
      (Mach.size_t hash) (Z.land (Mach.size_t hash) (Mach.size_t (DK_MASK keys)))
    = None.
Proof.
  intros Hk Hsize Hfull.
  destruct (lookdict_ident_start keys hash k Hk Hsize) as [Hmask Hfirst].
  assert (Hloop : forall fuel,
            lookdict_ident_loop fuel keys key (Mach.size_t (DK_MASK keys))
              (Mach.size_t hash)
              (Z.land (Mach.size_t hash) (Mach.size_t (DK_MASK keys))) = None).
  { intros fuel. rewrite lookdict_ident_loop_search, Hmask.
    apply probe_search_none; [lia | | exact Hfirst].
    intros c Hc. apply lookdict_ident_visit_none. apply Hfull. rewrite Hsize. exact Hc. }
  split; [apply Hloop | exact Hloop].
Qed.

Lemma lookdict_ident_finds_stored_witness :
  exists r,
    lookdict_ident Sample.keys3 18 0 = Some r /\
    (r = DKIX_EMPTY \/ 0 <= r /\ me_key (DK_ENTRIES Sample.keys3 r) = 18) /\
    ((forall c', 0 <= c' < dk_size Sample.keys3 ->
        dk_get_index Sample.keys3 c' <> DKIX_EMPTY) ->
     0 <= r /\ me_key (DK_ENTRIES Sample.keys3 r) = 18).
Proof.
  apply (lookdict_ident_finds_stored Sample.keys3 18 0 3 3).
  - lia.
  - reflexivity.
  - simpl. lia.
  - vm_compute. discriminate.
  - reflexivity.
Defined.

Lemma lookdict_ident_spins_witness :
  lookdict_ident SampleFull.keys_dummy 18 18 = None /\
  forall fuel,
    lookdict_ident_loop fuel SampleFull.keys_dummy 18
      (Mach.size_t (DK_MASK SampleFull.keys_dummy)) (Mach.size_t 18)
      (Z.land (Mach.size_t 18) (Mach.size_t (DK_MASK SampleFull.keys_dummy)))
    = None.
Proof.
  apply (lookdict_ident_spins SampleFull.keys_dummy 18 18 3).
  - lia.
  - reflexivity.
  - intros c Hc. change (dk_size SampleFull.keys_dummy) with 8 in Hc.
    assert (Hcases : c = 0 \/ c = 1 \/ c = 2 \/ c = 3 \/ c = 4 \/ c = 5 \/ c = 6 \/ c = 7)
      by lia.
    repeat (destruct Hcases as [-> | Hcases]); try subst c;
      (split; [vm_compute; discriminate | vm_compute; intros [H _]; apply H; reflexivity]).
Defined.

(** ** [odict_richcompare] *)

(** X17: comparing an ordered dict [v] with a dict [w].  Operators other
    than [==] and [!=] are not implemented.  Against a plain dict the answer
    is that of the dict comparison, whatever the order of the keys.  Against
    another ordered dict, when the dict comparison answers [==] and [!=]
    consistently and the two lists of keys can be made and compared, [==] is
    true exactly when the dicts are equal as dicts and their keys are equal
    as lists, and [!=] answers the opposite. *)
Theorem odict_compare_order_sensitive (env : compare_env)
    (la lb : list PyObject) :
  v_is_odict env = true -> w_is_dict env = true ->
  (dict_richcompare env Py_EQ = Py_True /\ dict_richcompare env Py_NE = Py_False) \/
  (dict_richcompare env Py_EQ = Py_False /\ dict_richcompare env Py_NE = Py_True) ->
  keys_of_v env = Some la -> keys_of_w env = Some lb ->
  list_equal env la lb = 0 \/ list_equal env la lb = 1 ->
  (forall op, is_eq op = false -> is_ne op = false ->
     odict_richcompare env op = Py_NotImplemented) /\
  (w_is_odict env = false ->
   odict_eq env = dict_richcompare env Py_EQ /\
   odict_ne env = dict_richcompare env Py_NE) /\
  (w_is_odict env = true ->
   (odict_eq env = Py_True <->
    dict_richcompare env Py_EQ = Py_True /\ list_equal env la lb = 1) /\
   (odict_eq env = Py_True \/ odict_eq env = Py_False) /\
   odict_ne env = (if is_true (odict_eq env) then Py_False else Py_True)).
Proof.
  intros Hv Hw Hdict Hla Hlb Hlist.
  unfold odict_eq, odict_ne, odict_richcompare, _odict_keys_equal.
  rewrite Hv, Hw, Hla, Hlb. cbn [negb orb is_eq is_ne andb].
  split; [|split].
  - intros op H1 H2. rewrite H1, H2. reflexivity.
  - intros ->. cbn [negb].
    destruct Hdict as [[-> ->] | [-> ->]]; split; reflexivity.
  - intros ->. cbn [negb].
    destruct Hdict as [[-> ->] | [-> ->]]; cbn [is_false is_true andb];
      destruct Hlist as [-> | ->]; cbn [Z.ltb Z.eqb Z.compare is_true];
      (split; [split; [intros H; try discriminate H; auto
                      | intros [H1 H2]; try discriminate H1; try discriminate H2;
                        reflexivity]
              | split; [auto | reflexivity]]).
Qed.

Lemma odict_compare_order_sensitive_witness :
  let env :=
    {| v_is_odict := true; w_is_dict := true; w_is_odict := true;
       dict_richcompare :=
         fun op => match op with Py_NE => Py_False | _ => Py_True end;
       keys_of_v := Some [10; 18; 12]; keys_of_w := Some [18; 10; 12];
       list_equal := fun _ _ => 0 |} in
  (forall op, is_eq op = false -> is_ne op = false ->
     odict_richcompare env op = Py_NotImplemented) /\
  (w_is_odict env = false ->
   odict_eq env = dict_richcompare env Py_EQ /\
   odict_ne env = dict_richcompare env Py_NE) /\
  (w_is_odict env = true ->
   (odict_eq env = Py_True <->
    dict_richcompare env Py_EQ = Py_True /\
    list_equal env [10; 18; 12] [18; 10; 12] = 1) /\
   (odict_eq env = Py_True \/ odict_eq env = Py_False) /\
   odict_ne env = (if is_true (odict_eq env) then Py_False else Py_True)).
Proof.
  apply (odict_compare_order_sensitive
           {| v_is_odict := true; w_is_dict := true; w_is_odict := true;
              dict_richcompare :=
                fun op => match op with Py_NE => Py_False | _ => Py_True end;
              keys_of_v := Some [10; 18; 12]; keys_of_w := Some [18; 10; 12];
              list_equal := fun _ _ => 0 |} [10; 18; 12] [18; 10; 12]).
  - reflexivity.
  - reflexivity.
  - left. split; reflexivity.
  - reflexivity.
  - reflexivity.
  - left. reflexivity.
Defined.

(** ** The grouped key table and the insertion order (pycore_dict.h) *)

Module PycoreFacts.
Import PycoreDict.

(** X19: the layout the macros of pycore_dict.h compute, for a table of at
    most [2^62] cells.  The table has [GROUP_WIDTH] cells per group; a group
    is a control word and [GROUP_WIDTH] indices, and an index of a group is
    wide enough for every slot below [DK_SIZE].  Up to [dk_log2_size = 57]
    the entries start right after [DK_GROUPS] groups of [DK_GROUP_SIZE]
    bytes.  For 58 and 59 the shift of [DK_ENTRIES] wraps around: the offset
    is that of [DK_GROUPS] control words only, inside the groups. *)
Theorem group_layout (dk : keysobject) :
  0 <= dk_log2_size dk <= 59 ->
  DK_SIZE dk = GROUP_WIDTH * DK_GROUPS dk /\
  DK_GROUP_SIZE dk = sizeof_group (index_bytes dk) /\
  DK_SIZE dk <= 2 ^ (8 * index_bytes dk) /\
  (dk_log2_size dk <= 57 ->
   DK_ENTRIES_offset dk = DK_GROUPS dk * DK_GROUP_SIZE dk) /\
  (57 < dk_log2_size dk ->
   DK_ENTRIES_offset dk = DK_GROUPS dk * GROUP_WIDTH /\
   DK_ENTRIES_offset dk < DK_GROUPS dk * DK_GROUP_SIZE dk).
Proof.
  intros Hlog.
  assert (Hsize : DK_SIZE dk = GROUP_WIDTH * DK_GROUPS dk).
  { unfold DK_SIZE, DK_GROUPS, DK_LOG_SIZE, GROUP_WIDTH.
    rewrite !Z.shiftl_mul_pow2 by lia. rewrite !Z.mul_1_l, Z.pow_add_r by lia.
    change (2 ^ 3) with 8. lia. }
  assert (Hwidth : DK_GROUP_SIZE dk = sizeof_group (index_bytes dk) /\
                   DK_SIZE dk <= 2 ^ (8 * index_bytes dk)).
  { unfold DK_SIZE. rewrite Z.shiftl_mul_pow2, Z.mul_1_l by (unfold DK_LOG_SIZE; lia).
    unfold index_bytes, DK_GROUP_SIZE, DK_LOG_SIZE, sizeof_group, GROUP_WIDTH.
    destruct (dk_log2_size dk + 3 <=? 8) eqn:E1;
      [apply Z.leb_le in E1; split; [reflexivity|];
       change ((8 + 8 * 1 - 8) / 8) with 1; apply Z.pow_le_mono_r; lia|].
    destruct (dk_log2_size dk + 3 <=? 16) eqn:E2;
      [apply Z.leb_le in E2; split; [reflexivity|];
       change ((8 + 8 * 2 - 8) / 8) with 2; apply Z.pow_le_mono_r; lia|].
    destruct (dk_log2_size dk + 3 <=? 32) eqn:E3;
      [apply Z.leb_le in E3; split; [reflexivity|];
       change ((8 + 8 * 4 - 8) / 8) with 4; apply Z.pow_le_mono_r; lia|].
    split; [reflexivity|].
    change ((8 + 8 * 8 - 8) / 8) with 8. apply Z.pow_le_mono_r; lia. }
  split; [exact Hsize|]. split; [apply Hwidth|]. split; [apply Hwidth|]. split.
  - intros Hk. unfold DK_ENTRIES_offset, Mach.size_t, DK_GROUPS.
    rewrite !Z.shiftl_mul_pow2 by lia. rewrite Z.mul_1_l.
    assert (Hg : 16 <= DK_GROUP_SIZE dk <= 72).
    { unfold DK_GROUP_SIZE, sizeof_group, GROUP_WIDTH.
      repeat match goal with |- context [if ?c then _ else _] => destruct c end; lia. }
    assert (Hp : 0 < 2 ^ dk_log2_size dk <= 2 ^ 57)
      by (split; [apply Z.pow_pos_nonneg; lia | apply Z.pow_le_mono_r; lia]).
    rewrite Z.mod_small; [lia|].
    change (2 ^ 57) with 144115188075855872 in Hp.
    change (2 ^ 64) with 18446744073709551616. nia.
  - intros Hk.
    assert (Hc : dk_log2_size dk = 58 \/ dk_log2_size dk = 59) by lia.
    unfold DK_ENTRIES_offset, DK_GROUPS, DK_GROUP_SIZE, DK_LOG_SIZE.
    destruct Hc as [-> | ->]; vm_compute; split; reflexivity.
Qed.

Lemma group_layout_witness :
  let dk := {| dk_refcnt := 1; dk_log2_size := 7; dk_kind := 0; dk_version := 0;
               dk_usable := 682; dk_nentries := 0 |} in
  DK_SIZE dk = GROUP_WIDTH * DK_GROUPS dk /\
  DK_GROUP_SIZE dk = sizeof_group (index_bytes dk) /\
  DK_SIZE dk <= 2 ^ (8 * index_bytes dk) /\
  (dk_log2_size dk <= 57 ->
   DK_ENTRIES_offset dk = DK_GROUPS dk * DK_GROUP_SIZE dk) /\
  (57 < dk_log2_size dk ->
   DK_ENTRIES_offset dk = DK_GROUPS dk * GROUP_WIDTH /\
   DK_ENTRIES_offset dk < DK_GROUPS dk * DK_GROUP_SIZE dk).
Proof.
  apply (group_layout
           {| dk_refcnt := 1; dk_log2_size := 7; dk_kind := 0; dk_version := 0;
              dk_usable := 682; dk_nentries := 0 |}).
  simpl. lia.
Defined.

(** The shift of [DK_ENTRIES] at [dk_log2_size = 58]: [72 << 58] as a
    [size_t] is [2^61], where [DK_GROUPS] groups of 72 bytes end at
    [72 * 2^58]. *)
Example DK_ENTRIES_wraps :
  let dk := {| dk_refcnt := 1; dk_log2_size := 58; dk_kind := 0; dk_version := 0;
               dk_usable := 0; dk_nentries := 0 |} in
  DK_ENTRIES_offset dk = 2 ^ 61 /\ DK_GROUPS dk * DK_GROUP_SIZE dk = 72 * 2 ^ 58.
Proof. split; reflexivity. Qed.

Lemma add_to_insertion_order_step (prefix : list Z) (ix : Z) :
  0 <= used_size prefix -> used_size prefix + 2 < prefix_size prefix ->
  prefix_size prefix <= Z.of_nat (length prefix) -> prefix_size prefix < 2 ^ 8 ->
  0 <= ix < SHARED_KEYS_MAX_SIZE ->
  let prefix' := _PyDictValues_AddToInsertionOrder prefix ix in
  used_size prefix' = used_size prefix + 1 /\
  prefix_size prefix' = prefix_size prefix /\
  length prefix' = length prefix /\
  insertion_order prefix' = insertion_order prefix ++ [ix].
Proof.
  intros Hs Hroom Hlen Hbyte Hix prefix'. unfold SHARED_KEYS_MAX_SIZE in Hix.
  unfold prefix', _PyDictValues_AddToInsertionOrder.
  fold (used_size prefix). set (s := used_size prefix) in *.
  change (2 ^ 8) with 256 in *.
  rewrite (Z.mod_small ix) by lia. rewrite (Z.mod_small (s + 1)) by lia.
  assert (Hlen' : length (aset prefix (1 + (s + 1)) ix) = length prefix)
    by apply length_aset.
  split; [|split; [|split]].
  - unfold used_size. apply aget_aset_same. lia.
  - unfold prefix_size. rewrite !aget_aset_other by lia. reflexivity.
  - rewrite length_aset. exact Hlen'.
  - unfold insertion_order.
    replace (used_size (aset (aset prefix (1 + (s + 1)) ix) 1 (s + 1))) with (s + 1)
      by (unfold used_size; symmetry; apply aget_aset_same; lia).
    fold s. unfold aset.
    rewrite (proj2 (Z.ltb_ge 1 0)), (proj2 (Z.ltb_ge (1 + (s + 1)) 0)) by lia.
    rewrite drop_insert_lt by lia. rewrite drop_insert_ge by lia.
    replace (Z.to_nat (1 + (s + 1)) - 2)%nat with (Z.to_nat s) by lia.
    replace (Z.to_nat (s + 1)) with (S (Z.to_nat s)) by lia.
    rewrite (take_S_r _ _ ix).
    + rewrite take_insert_ge by lia. reflexivity.
    + apply list_lookup_insert_eq. rewrite length_drop. lia.
Qed.

(** X18: [_PyDictValues_AddToInsertionOrder] records the order of the
    insertions.  From a prefix with room for them (the [assert]s of the
    function), adding the indices of a list one after the other leaves the
    insertion order that was there followed by the list; the used size has
    grown by its length, the prefix size and the length of the prefix are
    what they were. *)
Theorem insertion_order_recorded (ixs : list Z) (prefix : list Z) :
  0 <= used_size prefix ->
  used_size prefix + Z.of_nat (length ixs) + 1 < prefix_size prefix ->
  prefix_size prefix <= Z.of_nat (length prefix) -> prefix_size prefix < 2 ^ 8 ->
  Forall (fun ix => 0 <= ix < SHARED_KEYS_MAX_SIZE) ixs ->
  let prefix' := fold_left _PyDictValues_AddToInsertionOrder ixs prefix in
  insertion_order prefix' = insertion_order prefix ++ ixs /\
  used_size prefix' = used_size prefix + Z.of_nat (length ixs) /\
  prefix_size prefix' = prefix_size prefix /\
  length prefix' = length prefix.
Proof.
  revert prefix. induction ixs as [|ix ixs IH]; intros prefix Hs Hroom Hlen Hbyte Hall.
  - cbn. rewrite app_nil_r. repeat split. lia.
  - inversion Hall as [|? ? Hix Hrest]; subst. cbn [fold_left length] in *.
    destruct (add_to_insertion_order_step prefix ix Hs ltac:(lia) Hlen Hbyte Hix)
      as (Hs' & Hp' & Hl' & Ho').
    destruct (IH (_PyDictValues_AddToInsertionOrder prefix ix)) as (H1 & H2 & H3 & H4);
      try (rewrite ?Hs', ?Hp', ?Hl'; lia); [exact Hrest|].
    cbv zeta. rewrite H1, H2, H3, H4, Ho', Hs', Hp', Hl', <- app_assoc.
    repeat split. lia.
Qed.

Lemma insertion_order_recorded_witness :
  let prefix := [8; 0; 0; 0; 0; 0; 0; 0] in
  let prefix' := fold_left _PyDictValues_AddToInsertionOrder [3; 1; 4] prefix in
  insertion_order prefix' = insertion_order prefix ++ [3; 1; 4] /\
  used_size prefix' = used_size prefix + Z.of_nat (length [3; 1; 4]) /\
  prefix_size prefix' = prefix_size prefix /\
  length prefix' = length prefix.
Proof.
  apply (insertion_order_recorded [3; 1; 4] [8; 0; 0; 0; 0; 0; 0; 0]).
  - vm_compute. discriminate.
  - vm_compute. reflexivity.
  - vm_compute. discriminate.
  - vm_compute. reflexivity.
  - repeat constructor; vm_compute; discriminate.
Defined.

End PycoreFacts.
